(** * HelioSat: caching and spacecraft data retrieval

    A shallow embedding of [heliosat/caching.py] and
    [heliosat/spacecraft.py], together with the properties of the
    library's specification that concern them.

    Python exceptions are modelled by the error monad [result]; process
    state (the lazily loaded registry, the cache directory) is threaded
    explicitly. *)

From Stdlib Require Import ZArith String Ascii List Lia Bool.
From stdpp Require Import base tactics option list gmap strings fin_maps pretty sorting.

Local Open Scope string_scope.
Local Open Scope Z_scope.
Local Open Scope list_scope.

(** Let [simpl] compute the concatenation of strings. *)
#[local] Arguments String.append !_ _ / : simpl nomatch.

(* ===================================================================== *)
(** * Exceptions and the error monad *)
(* ===================================================================== *)

(** The Python exception classes raised by the modelled code (by the
    repository itself, or by the interpreter and NumPy on its behalf). *)
Inductive exn : Type :=
  | KeyError
  | NotImplementedError
  | RuntimeError
  | IndexError
  | TypeError
  | ValueError
  | UnboundLocalError
  | UnpicklingError
  | FileNotFoundError
  | NotADirectoryError
  | IsADirectoryError
  | FileExistsError
  | OSError
  | RecursionError.

#[global] Instance exn_eq_dec : EqDecision exn.
Proof. solve_decision. Defined.

Inductive result (A : Type) : Type :=
  | Ok (x : A)
  | Raise (e : exn).
Arguments Ok {A} x.
Arguments Raise {A} e.

#[global] Instance result_ret : MRet result := fun A x => Ok x.
#[global] Instance result_bind : MBind result := fun A B f m =>
  match m with
  | Ok x => f x
  | Raise e => Raise e
  end.
#[global] Instance result_fmap : FMap result := fun A B f m =>
  match m with
  | Ok x => Ok (f x)
  | Raise e => Raise e
  end.

Definition is_ok {A} (r : result A) : bool :=
  match r with Ok _ => true | Raise _ => false end.

(** [mapM]: run an effectful function over a list, left to right,
    stopping at the first exception. *)
Fixpoint mapM {A B} (f : A → result B) (l : list A) : result (list B) :=
  match l with
  | [] => Ok []
  | x :: xs => y ← f x; ys ← mapM f xs; Ok (y :: ys)
  end.

(* ===================================================================== *)
(** * Spacecraft construction ([Spacecraft.__init__]) *)
(* ===================================================================== *)

Module Registry.

(** One mission's entry of [json/spacecraft.json], as far as
    [__init__] reads it. *)
Record descriptor : Type := {
  kernel_group : option string;
  mission_start : string;
  mission_end : option string;
}.

(** The process-wide dictionary [heliosat._spice]: the registry, absent
    until the first construction, and the kernel groups loaded so far. *)
Record spice_state : Type := {
  spacecraft : option (gmap string descriptor);
  kernels_loaded : gset string;
}.

Definition fresh : spice_state :=
  {| spacecraft := None; kernels_loaded := ∅ |}.

(** Modelled from the spec: [heliosat.spice.spice_load] is not under
    src/; it loads a kernel group once per process, later loads of the
    same group being no-ops. *)
Definition spice_load (group : string) (st : spice_state) : spice_state :=
  {| spacecraft := spacecraft st;
     kernels_loaded := {[group]} ∪ kernels_loaded st |}.

(** Truthiness of [self.spacecraft.get("kernel_group", None)]. *)
Definition truthy_str (o : option string) : option string :=
  match o with
  | Some s => if decide (s = "") then None else Some s
  | None => None
  end.

(** The tail of [__init__], once [self.spacecraft] is bound. *)
Definition load_kernels (kw_kernel_group : option string) (sc : descriptor)
    (st : spice_state) : spice_state :=
  match kw_kernel_group, truthy_str (kernel_group sc) with
  | None, Some g => spice_load g st
  | _, _ => st
  end.

(** [Spacecraft.__init__(self, name, **kwargs)], after the base-class
    initialiser has returned. [registry_json] is the content of
    [json/spacecraft.json]; the result is the final process state and
    either the bound [self.spacecraft] or the exception raised. *)
Definition Spacecraft_init (registry_json : gmap string descriptor)
    (name : string) (kw_kernel_group : option string) (st : spice_state)
    : spice_state * result descriptor :=
  match spacecraft st with
  | None =>
      let st' := {| spacecraft := Some registry_json;
                    kernels_loaded := kernels_loaded st |} in
      match registry_json !! name with
      | Some sc => (load_kernels kw_kernel_group sc st', Ok sc)
      | None => (st', Raise KeyError)
      end
  | Some reg =>
      match reg !! name with
      | Some sc => (load_kernels kw_kernel_group sc st, Ok sc)
      | None => (st, Raise NotImplementedError)
      end
  end.

End Registry.

(* ===================================================================== *)
(** * Strings as Python uses them *)
(* ===================================================================== *)

Module PyStr.

(** [s[:n]] *)
Fixpoint take (n : nat) (s : string) : string :=
  match n, s with
  | S n', String c s' => String c (take n' s')
  | _, _ => ""
  end.

(** [s[n:]] *)
Fixpoint drop (n : nat) (s : string) : string :=
  match n, s with
  | S n', String _ s' => drop n' s'
  | _, _ => s
  end.

(** [s.startswith(p)] *)
Fixpoint startswith (p s : string) : bool :=
  match p, s with
  | "", _ => true
  | String a p', String b s' => if decide (a = b) then startswith p' s' else false
  | String _ _, "" => false
  end.

(** [s.endswith(p)] *)
Definition endswith (p s : string) : bool :=
  bool_decide (String.length p ≤ String.length s)%nat
  && bool_decide (drop (String.length s - String.length p) s = p).

(** [s.replace(old, new)] for a non-empty [old]: scan left to right; at
    an occurrence emit [new] and skip the occurrence. [skip] counts the
    characters of the current occurrence still to be dropped. *)
Fixpoint replace_from (old new : string) (skip : nat) (s : string) : string :=
  match s with
  | "" => ""
  | String c s' =>
      match skip with
      | S k => replace_from old new k s'
      | O =>
          if startswith old s
          then new +:+ replace_from old new (String.length old - 1) s'
          else String c (replace_from old new 0 s')
      end
  end.

(** With an empty [old], Python inserts [new] before every character
    and at the end. *)
Fixpoint intersperse (new s : string) : string :=
  match s with
  | "" => new
  | String c s' => new +:+ String c (intersperse new s')
  end.

Definition replace (old new s : string) : string :=
  if decide (old = "") then intersperse new s else replace_from old new 0 s.

(** ["{:0Nd}".format(n)] for a natural number: decimal, left-padded with
    zeros to at least [width] characters. *)
Fixpoint zeros (n : nat) : string :=
  match n with O => "" | S n' => String "0" (zeros n') end.

Definition format_0d (width : nat) (n : Z) : string :=
  let digits := pretty (Z.abs n) in
  let sign := if decide (n < 0) then "-" else "" in
  sign +:+ zeros (width - String.length sign - String.length digits) +:+ digits.

(** [str(n)] *)
Definition str_of_int (n : Z) : string := pretty n.

(** [sub in s] *)
Fixpoint contains (sub s : string) : bool :=
  startswith sub s
  || match s with
     | "" => false
     | String _ s' => contains sub s'
     end.

(** [s.split(sep)] for a separator of one character: the pieces
    between the separators, of which there is at least one. *)
Fixpoint split (sep : ascii) (s : string) : list string :=
  match s with
  | "" => [""]
  | String c s' =>
      if decide (c = sep) then "" :: split sep s'
      else match split sep s' with
           | piece :: pieces => String c piece :: pieces
           | [] => [String c ""]
           end
  end.

(** [sep.join(l)] *)
Fixpoint join (sep : string) (l : list string) : string :=
  match l with
  | [] => ""
  | x :: l' =>
      match l' with
      | [] => x
      | _ :: _ => x +:+ sep +:+ join sep l'
      end
  end.

End PyStr.

(* ===================================================================== *)
(** * The result cache ([heliosat/caching.py]) *)
(* ===================================================================== *)

Module Caching.

(** [pickle.dump] / [pickle.load], an external library. *)
Class Pickle (obj : Type) : Type := {
  pickle_dump : obj → list Byte.byte;
  pickle_load : list Byte.byte → result obj;
}.

(** The cache directory on disk: whether the root exists, and the
    regular files by path. *)
Record cache_dir : Type := {
  root_exists : bool;
  files : gmap string (list Byte.byte);
}.

Definition empty_dir : cache_dir := {| root_exists := false; files := ∅ |}.

(** [os.path.join(a, b)] (POSIX) *)
Definition os_path_join (a b : string) : string :=
  if PyStr.startswith "/" b then b
  else if decide (a = "") then b
  else if PyStr.endswith "/" a then a +:+ b
  else a +:+ "/" +:+ b.

(** [os.path.join(cache_path, "{}.cache".format(key))] *)
Definition cache_file (cache_path key : string) : string :=
  os_path_join cache_path (key +:+ ".cache").

Section Operations.
Context {obj : Type} `{Pickle obj}.
(** [cache_path] is [heliosat._paths["cache"]]. *)
Variable cache_path : string.

Definition cache_entry_exists (key : string) (fs : cache_dir) : bool :=
  bool_decide (is_Some (files fs !! cache_file cache_path key)).

Definition set_cache_entry (key : string) (o : obj) (fs : cache_dir) : cache_dir :=
  {| root_exists := true;
     files := <[cache_file cache_path key := pickle_dump o]> (files fs) |}.

Definition get_cache_entry (key : string) (fs : cache_dir) : result obj :=
  if negb (cache_entry_exists key fs) then Raise KeyError
  else match files fs !! cache_file cache_path key with
       | Some bytes => pickle_load bytes
       | None => Raise KeyError
       end.

Definition delete_cache_entry (key : string) (fs : cache_dir)
    : cache_dir * result unit :=
  if negb (cache_entry_exists key fs) then (fs, Raise KeyError)
  else ({| root_exists := root_exists fs;
           files := delete (cache_file cache_path key) (files fs) |}, Ok ()).

(** A history of cache operations, to speak of keys that were never set. *)
Inductive op : Type :=
  | OpSet (key : string) (o : obj)
  | OpDelete (key : string)
  | OpGet (key : string).

Definition step (fs : cache_dir) (o : op) : cache_dir :=
  match o with
  | OpSet k v => set_cache_entry k v fs
  | OpDelete k => fst (delete_cache_entry k fs)
  | OpGet _ => fs
  end.

Definition run (ops : list op) (fs : cache_dir) : cache_dir :=
  fold_left step ops fs.

Definition writes (o : op) : option string :=
  match o with
  | OpSet k _ => Some (cache_file cache_path k)
  | _ => None
  end.

End Operations.

End Caching.

(* ===================================================================== *)
(** * Dates and times ([datetime]) *)
(* ===================================================================== *)

Module Datetime.

(** A naive [datetime.datetime]. *)
Record datetime : Type := {
  year : Z; month : Z; day : Z;
  hour : Z; minute : Z; second : Z; microsecond : Z;
}.

#[global] Instance datetime_eq_dec : EqDecision datetime.
Proof. solve_decision. Defined.

Definition is_leap (y : Z) : bool :=
  (y mod 4 =? 0) && (negb (y mod 100 =? 0) || (y mod 400 =? 0)).

(** [_DAYS_IN_MONTH] *)
Definition DAYS_IN_MONTH (m : Z) : Z :=
  match m with
  | 1 => 31 | 2 => 28 | 3 => 31 | 4 => 30 | 5 => 31 | 6 => 30
  | 7 => 31 | 8 => 31 | 9 => 30 | 10 => 31 | 11 => 30 | _ => 31
  end.

Definition days_in_month (y m : Z) : Z :=
  if (m =? 2) && is_leap y then 29 else DAYS_IN_MONTH m.

(** [_DAYS_BEFORE_MONTH] *)
Definition DAYS_BEFORE_MONTH (m : Z) : Z :=
  match m with
  | 1 => 0 | 2 => 31 | 3 => 59 | 4 => 90 | 5 => 120 | 6 => 151
  | 7 => 181 | 8 => 212 | 9 => 243 | 10 => 273 | 11 => 304 | _ => 334
  end.

Definition days_before_year (y : Z) : Z :=
  let y' := y - 1 in y' * 365 + y' / 4 - y' / 100 + y' / 400.

Definition days_before_month (y m : Z) : Z :=
  DAYS_BEFORE_MONTH m + (if (2 <? m) && is_leap y then 1 else 0).

(** [date.toordinal]: 0001-01-01 is day 1. *)
Definition ymd2ord (y m d : Z) : Z :=
  days_before_year y + days_before_month y m + d.

Definition DI400Y : Z := 146097.
Definition DI100Y : Z := 36524.
Definition DI4Y : Z := 1461.

(** [date.fromordinal] *)
Definition ord2ymd (n : Z) : Z * Z * Z :=
  let n := n - 1 in
  let n400 := n / DI400Y in let n := n mod DI400Y in
  let y := n400 * 400 + 1 in
  let n100 := n / DI100Y in let n := n mod DI100Y in
  let n4 := n / DI4Y in let n := n mod DI4Y in
  let n1 := n / 365 in let n := n mod 365 in
  let y := y + n100 * 100 + n4 * 4 + n1 in
  if (n1 =? 4) || (n100 =? 4) then (y - 1, 12, 31)
  else
    let leapyear := (n1 =? 3) && (negb (n4 =? 24) || (n100 =? 3)) in
    let m := Z.shiftr (n + 50) 5 in
    let preceding :=
      DAYS_BEFORE_MONTH m + (if (2 <? m) && leapyear then 1 else 0) in
    if n <? preceding then
      let m' := m - 1 in
      let preceding' :=
        preceding
        - (DAYS_IN_MONTH m' + (if (m' =? 2) && leapyear then 1 else 0)) in
      (y, m', n - preceding' + 1)
    else (y, m, n - preceding + 1).

Definition toordinal (d : datetime) : Z := ymd2ord (year d) (month d) (day d).

(** [timetuple().tm_yday] *)
Definition tm_yday (d : datetime) : Z :=
  days_before_month (year d) (month d) + day d.

(** Microseconds since midnight. *)
Definition time_of_day (d : datetime) : Z :=
  ((hour d * 60 + minute d) * 60 + second d) * 1000000 + microsecond d.

Definition MICROS_PER_DAY : Z := 86400000000.

(** [(a - b).days]: a [timedelta] is normalised, so [days] is the floor
    of the difference in days. *)
Definition sub_days (a b : datetime) : Z :=
  ((toordinal a - toordinal b) * MICROS_PER_DAY
   + (time_of_day a - time_of_day b)) / MICROS_PER_DAY.

(** [d + datetime.timedelta(days=i)]: the date moves, the time of day
    stays. Python raises [OverflowError] when the date leaves the years
    1 to 9999; [urls_build] adds at most [(range_end - range_start).days],
    which does not pass [range_end], so the check is left out. *)
Definition add_days (d : datetime) (i : Z) : datetime :=
  let '(y, m, dd) := ord2ymd (toordinal d + i) in
  {| year := y; month := m; day := dd;
     hour := hour d; minute := minute d; second := second d;
     microsecond := microsecond d |}.

(** [datetime.datetime(y, m, d)]: the constructor checks its fields. *)
Definition MINYEAR : Z := 1.
Definition MAXYEAR : Z := 9999.

Definition new (y m d : Z) : result datetime :=
  if (MINYEAR <=? y) && (y <=? MAXYEAR) && (1 <=? m) && (m <=? 12)
     && (1 <=? d) && (d <=? days_in_month y m)
  then Ok {| year := y; month := m; day := d;
             hour := 0; minute := 0; second := 0; microsecond := 0 |}
  else Raise ValueError.

(** Comparison of naive datetimes: lexicographic on the fields. *)
Definition fields (d : datetime) : list Z :=
  [year d; month d; day d; hour d; minute d; second d; microsecond d].

Fixpoint lex_lt (a b : list Z) : bool :=
  match a, b with
  | x :: a', y :: b' => (x <? y) || ((x =? y) && lex_lt a' b')
  | [], _ :: _ => true
  | _, [] => false
  end.

Definition lt (a b : datetime) : bool := lex_lt (fields a) (fields b).
Definition le (a b : datetime) : bool := negb (lt b a).

(** [strftime("%B")[:3].upper()] in the C locale. *)
Definition month_abbr (m : Z) : string :=
  match m with
  | 1 => "JAN" | 2 => "FEB" | 3 => "MAR" | 4 => "APR" | 5 => "MAY"
  | 6 => "JUN" | 7 => "JUL" | 8 => "AUG" | 9 => "SEP" | 10 => "OCT"
  | 11 => "NOV" | _ => "DEC"
  end.

(** The calendar date of a datetime. *)
Definition date_of (d : datetime) : Z * Z * Z := (year d, month d, day d).

Definition valid (d : datetime) : Prop :=
  MINYEAR ≤ year d ≤ MAXYEAR ∧ 1 ≤ month d ≤ 12
  ∧ 1 ≤ day d ≤ days_in_month (year d) (month d)
  ∧ 0 ≤ hour d < 24 ∧ 0 ≤ minute d < 60 ∧ 0 ≤ second d < 60
  ∧ 0 ≤ microsecond d < 1000000.

End Datetime.

(* ===================================================================== *)
(** * URL templating ([urls_build]) *)
(* ===================================================================== *)

Module Urls.
Import Datetime.

(** An entry of a data product's ["versions"] list. *)
Record version : Type := {
  version_start : string;
  version_end : string;
  identifiers : list string;
}.

(** [heliosat.util.strptime] is not under src/; it is taken as a
    parameter: it parses a registry timestamp or raises. *)
Class UtilStrptime : Type := strptime : string → result datetime.

(** The range of days: [range_start + timedelta(days=i)] for [i] in
    [range((range_end - range_start).days + 1)]. *)
Definition days (range_start range_end : datetime) : list datetime :=
  map (λ i : nat, add_days range_start (Z.of_nat i))
      (seq 0 (Z.to_nat (sub_days range_end range_start + 1))).

(** The date placeholders of one day. *)
Definition expand_day (fmt : string) (day : datetime) : result string :=
  let url := fmt in
  let url := PyStr.replace "{YYYY}" (PyStr.str_of_int (year day)) url in
  let url := PyStr.replace "{YY}" (PyStr.format_0d 2 (year day mod 100)) url in
  let url := PyStr.replace "{MM}" (PyStr.format_0d 2 (month day)) url in
  let url := PyStr.replace "{MONTH}" (month_abbr (month day)) url in
  let url := PyStr.replace "{DD}" (PyStr.format_0d 2 (Datetime.day day)) url in
  let url := PyStr.replace "{DOY}" (PyStr.format_0d 3 (tm_yday day)) url in
  doym1 ← Datetime.new (year day) (month day) 1;
  doym2 ← (if month day =? 12
           then d ← Datetime.new (year day + 1) 1 1; Ok (add_days d (-1))
           else d ← Datetime.new (year day) (month day + 1) 1; Ok (add_days d (-1)));
  let url := PyStr.replace "{DOYM1}" (PyStr.format_0d 3 (tm_yday doym1)) url in
  let url := PyStr.replace "{DOYM2}" (PyStr.format_0d 3 (tm_yday doym2)) url in
  Ok url.

(** ["{{V{0}}}".format(i)] *)
Definition placeholder (i : nat) : string := "{V" +:+ pretty i +:+ "}".

(** The inner loop: [url.replace("{Vi}", identifiers[i])] for each [i]. *)
Fixpoint substitute_from (i : nat) (ids : list string) (url : string) : string :=
  match ids with
  | [] => url
  | id :: ids' => substitute_from (S i) ids' (PyStr.replace (placeholder i) id url)
  end.

Definition substitute (ids : list string) (url : string) : string :=
  substitute_from 0 ids url.

Section Versions.
Context `{UtilStrptime}.

(** [strptime(version["version_start"]) <= day < strptime(version["version_end"])];
    a chained comparison evaluates its right part only if the left holds. *)
Definition covers (v : version) (day : datetime) : result bool :=
  s ← strptime (version_start v);
  if Datetime.le s day
  then e ← strptime (version_end v); Ok (Datetime.lt day e)
  else Ok false.

(** The [for version in versions] loop: the first descriptor that
    covers the day. *)
Fixpoint find_version (versions : list version) (day : datetime)
    : result (option version) :=
  match versions with
  | [] => Ok None
  | v :: vs =>
      c ← covers v day;
      if c : bool then Ok (Some v) else find_version vs day
  end.

(** One iteration of the loop over days. *)
Definition url_of_day (fmt : string) (versions : option (list version))
    (day : datetime) : result string :=
  url ← expand_day fmt day;
  match versions with
  | None | Some [] => Ok url
  | Some vs =>
      found ← find_version vs day;
      match found with
      | Some v => Ok (substitute (identifiers v) url)
      | None => Raise RuntimeError
      end
  end.

Definition urls_build (fmt : string) (range_start range_end : datetime)
    (versions : option (list version)) : result (list string) :=
  mapM (url_of_day fmt versions) (days range_start range_end).

End Versions.

(** Modelled from the spec: a parser for the registry's timestamp
    convention [YYYY-MM-DD] or [YYYY-MM-DDTHH:MM:SS], standing in for
    [heliosat.util.strptime] where a concrete one is needed. *)
Definition digit (c : ascii) : option Z :=
  let n := Z.of_N (N_of_ascii c) in
  if (48 <=? n) && (n <=? 57) then Some (n - 48) else None.

Fixpoint number (acc : Z) (s : string) : option Z :=
  match s with
  | "" => Some acc
  | String c s' => d ← digit c; number (acc * 10 + d) s'
  end.

Definition field (start len : nat) (s : string) : option Z :=
  let f := PyStr.take len (PyStr.drop start s) in
  if decide (String.length f = len) then number 0 f else None.

Definition iso_strptime (s : string) : result datetime :=
  let r : option datetime :=
    y ← field 0 4 s; m ← field 5 2 s; d ← field 8 2 s;
    if decide (String.length s = 10%nat) then
      Some {| year := y; month := m; day := d;
              hour := 0; minute := 0; second := 0; microsecond := 0 |}
    else
      h ← field 11 2 s; mi ← field 14 2 s; se ← field 17 2 s;
      if decide (String.length s = 19%nat) then
        Some {| year := y; month := m; day := d;
                hour := h; minute := mi; second := se; microsecond := 0 |}
      else None in
  match r with
  | Some d => Ok d
  | None => Raise ValueError
  end.

End Urls.

(* ===================================================================== *)
(** * Floating-point values and arrays ([numpy]) *)
(* ===================================================================== *)

Module Numpy.

(** Floating-point numbers are kept abstract: the code only compares
    them, and adds one second to a timestamp. [flt a b] is [a < b];
    [a > b] is [flt b a]. *)
Class Float (F : Type) : Type := {
  flt : F → F → bool;
  fadd : F → F → F;
  f_of_Z : Z → F;
}.

Definition fgt {F} `{Float F} (a b : F) : bool := flt b a.

Inductive dtype : Type := float64 | float32.

#[global] Instance dtype_eq_dec : EqDecision dtype.
Proof. solve_decision. Defined.

(** Arrays of at most two dimensions. [Arr2 dt c rows] has shape
    [(length rows, c)]; each row has [c] entries. *)
Inductive ndarray (A : Type) : Type :=
  | Arr0 (dt : dtype) (x : A)
  | Arr1 (dt : dtype) (xs : list A)
  | Arr2 (dt : dtype) (ncols : nat) (rows : list (list A)).
Arguments Arr0 {A} dt x.
Arguments Arr1 {A} dt xs.
Arguments Arr2 {A} dt ncols rows.

Section Arrays.
Context {A : Type}.

Definition shape (a : ndarray A) : list nat :=
  match a with
  | Arr0 _ _ => []
  | Arr1 _ xs => [length xs]
  | Arr2 _ c rows => [length rows; c]
  end.

Definition ndim (a : ndarray A) : nat := length (shape a).

Definition dtype_of (a : ndarray A) : dtype :=
  match a with Arr0 dt _ | Arr1 dt _ | Arr2 dt _ _ => dt end.

(** Every row of a two-dimensional array has the declared width. *)
Definition well_formed (a : ndarray A) : Prop :=
  match a with
  | Arr2 _ c rows => Forall (λ r, length r = c) rows
  | _ => True
  end.

(** [len(a)]: a zero-dimensional array is unsized. *)
Definition len (a : ndarray A) : result nat :=
  match a with
  | Arr0 _ _ => Raise TypeError
  | Arr1 _ xs => Ok (length xs)
  | Arr2 _ _ rows => Ok (length rows)
  end.

(** [a[0]] *)
Definition first (a : ndarray A) : result (ndarray A) :=
  match a with
  | Arr0 _ _ => Raise IndexError
  | Arr1 dt xs => match xs with x :: _ => Ok (Arr0 dt x) | [] => Raise IndexError end
  | Arr2 dt _ rows => match rows with r :: _ => Ok (Arr1 dt r) | [] => Raise IndexError end
  end.

(** [a.reshape(-1, 1)] of a one-dimensional array. *)
Definition column_vector (dt : dtype) (xs : list A) : ndarray A :=
  Arr2 dt 1 (map (λ x, [x]) xs).

(** [l[lo:hi]] for [0 <= lo <= hi]: clipped at the end of [l]. *)
Definition slice {B} (lo hi : nat) (l : list B) : list B :=
  take (hi - lo) (drop lo l).

(** [a[lo:hi]]: a slice of the first axis. *)
Definition slice_rows (lo hi : nat) (a : ndarray A) : result (ndarray A) :=
  match a with
  | Arr0 _ _ => Raise IndexError
  | Arr1 dt xs => Ok (Arr1 dt (slice lo hi xs))
  | Arr2 dt c rows => Ok (Arr2 dt c (slice lo hi rows))
  end.

(** The stop of the slice [0:n] on an axis of length [c]; a negative [n]
    counts from the end. *)
Definition slice_stop (n : Z) (c : nat) : nat :=
  if decide (n < 0) then Z.to_nat (Z.of_nat c + n) else Nat.min (Z.to_nat n) c.

(** [a[:, 0:n]] *)
Definition truncate_columns (n : Z) (a : ndarray A) : result (ndarray A) :=
  match a with
  | Arr2 dt c rows => Ok (Arr2 dt (slice_stop n c) (map (take (slice_stop n c)) rows))
  | _ => Raise IndexError
  end.

(** [a[:, 0]] *)
Definition column0 (a : ndarray A) : result (list A) :=
  match a with
  | Arr2 _ c rows =>
      match c with
      | O => Raise IndexError
      | S _ => mapM (λ r, match r with x :: _ => Ok x | [] => Raise IndexError end) rows
      end
  | _ => Raise IndexError
  end.

Definition promote (a b : dtype) : dtype :=
  match a, b with float32, float32 => float32 | _, _ => float64 end.

(** [np.hstack((a, b))] of two-dimensional arrays: the rows are joined
    side by side, and the row counts must agree. Arrays of fewer
    dimensions do not reach this call. *)
Definition hstack (a b : ndarray A) : result (ndarray A) :=
  match a, b with
  | Arr2 dta ca ra, Arr2 dtb cb rb =>
      if decide (length ra = length rb)
      then Ok (Arr2 (promote dta dtb) (ca + cb) (zip_with app ra rb))
      else Raise ValueError
  | _, _ => Raise ValueError
  end.

(** [np.squeeze(a)]: axes of length one are removed. *)
Definition squeeze (a : ndarray A) : ndarray A :=
  match a with
  | Arr0 dt x => Arr0 dt x
  | Arr1 dt [x] => Arr0 dt x
  | Arr1 dt xs => Arr1 dt xs
  | Arr2 dt c rows =>
      match rows, c with
      | [[x]], 1%nat => Arr0 dt x
      | [r], _ => Arr1 dt r
      | _, 1%nat => Arr1 dt (concat rows)
      | _, _ => Arr2 dt c rows
      end
  end.

(** [np.where(cond)[0]] for a one-dimensional condition: the indices
    where it holds, in increasing order. *)
Fixpoint where_from {B} (p : B → bool) (i : nat) (l : list B) : list nat :=
  match l with
  | [] => []
  | x :: l' => if p x then i :: where_from p (S i) l' else where_from p (S i) l'
  end.

Definition where_ {B} (p : B → bool) (l : list B) : list nat := where_from p 0 l.

(** [a[idx]] for an integer index array along the first axis. *)
Definition select (idx : list nat) (a : ndarray A) : result (ndarray A) :=
  let pick {B} (l : list B) : result (list B) :=
    mapM (λ i, match l !! i with Some x => Ok x | None => Raise IndexError end) idx in
  match a with
  | Arr0 _ _ => Raise IndexError
  | Arr1 dt xs => ys ← pick xs; Ok (Arr1 dt ys)
  | Arr2 dt c rows => rs ← pick rows; Ok (Arr2 dt c rs)
  end.

(** The rows of an array along its first axis, for stating properties. *)
Definition rows_of (a : ndarray A) : list (list A) :=
  match a with
  | Arr0 _ x => [[x]]
  | Arr1 _ xs => map (λ x, [x]) xs
  | Arr2 _ _ rows => rows
  end.

(** [l[a:a+len(chunk)] = chunk] on a list that is long enough. *)
Definition assign {B} (a : nat) (chunk : list B) (l : list B) : list B :=
  take a l ++ chunk ++ drop (a + length chunk) l.

(** Broadcasting a value to the shape [(n, c)] for the assignment
    [data[a:b] = value]: an axis of length one is repeated. *)
Definition widen (c' c : nat) (r : list A) : result (list A) :=
  match r with
  | [x] => if decide (c' = 1%nat) then Ok (replicate c x)
           else if decide (c' = c) then Ok r else Raise ValueError
  | _ => if decide (c' = c) then Ok r else Raise ValueError
  end.

Definition broadcast_rows (n c : nat) (v : ndarray A) : result (list (list A)) :=
  match v with
  | Arr0 _ x => Ok (replicate n (replicate c x))
  | Arr1 _ xs =>
      match xs with
      | [x] => Ok (replicate n (replicate c x))
      | _ => if decide (length xs = c) then Ok (replicate n xs) else Raise ValueError
      end
  | Arr2 _ c' rows =>
      if decide (c' = c ∨ c' = 1%nat) then
        match rows with
        | [r] => r' ← widen c' c r; Ok (replicate n r')
        | _ => if decide (length rows = n) then mapM (widen c' c) rows
               else Raise ValueError
        end
      else Raise ValueError
  end.

End Arrays.

End Numpy.

(* ===================================================================== *)
(** * Parsing one file ([read_file]) and joining the results
      ([Spacecraft.get_data_raw]) *)
(* ===================================================================== *)

Module Spacecraft.
Import Numpy Datetime.

(** [datetime.timestamp()] and [datetime.datetime.strptime], from the
    standard library. *)
Class Clock (F : Type) : Type := timestamp : datetime → F.
Class Strptime : Type := py_strptime : string → string → result datetime.

(** An entry of a product's ["columns"]: a column index (text files) or
    a variable name, whose suffix [":N"], when present, is carried as
    [Some N]. *)
Inductive selector : Type :=
  | Index (i : Z)
  | Name (name : string) (keep : option Z).

Section ReadFile.
Context {F : Type} `{Float F} `{Clock F} `{Strptime}.

(** [decode_string(string, format)], the converter of the first column
    of a pds3 file with string timestamps. *)
Definition decode_string (string format : String.string) : result F :=
  if PyStr.endswith "60.000" string then
    let string := PyStr.take 17 string +:+ "59.000" in
    d ← py_strptime string format;
    Ok (fadd (timestamp d) (f_of_Z 1))
  else
    d ← py_strptime string format;
    Ok (timestamp d).

(** The dispatch on ["format"] and, for pds3, on ["time_format_type"]. *)
Definition check_format (format time_format_type : string) : result unit :=
  if decide (format = "cdf") then Ok ()
  else if decide (format = "netcdf") then Ok ()
  else if decide (format = "pds3") then
    if decide (time_format_type = "string") then Ok ()
    else if decide (time_format_type = "timestamp") then Ok ()
    else Raise NotImplementedError
  else Raise NotImplementedError.

(** What the format-specific reader hands over: the one-dimensional
    time array and one array per value selector. *)
Record parsed : Type := {
  time_dtype : dtype;
  time : list F;
  data : list (ndarray F);
}.

(** "fix some odd shapes" *)
Definition fix_shape (a : ndarray F) : ndarray F :=
  match a with
  | Arr1 dt xs => column_vector dt xs
  | _ => a
  end.

(** "discard unneeded dimensions": the loop over [columns[1:]]. *)
Fixpoint discard (cols : list selector) (data : list (ndarray F))
    : result (list (ndarray F)) :=
  match cols with
  | [] => Ok data
  | c :: cols' =>
      match c with
      | Index _ => Raise TypeError
      | Name _ keep =>
          match data with
          | [] => match keep with Some _ => Raise IndexError | None => discard cols' [] end
          | a :: data' =>
              a' ← (match keep with Some n => truncate_columns n a | None => Ok a end);
              rest ← discard cols' data';
              Ok (a' :: rest)
          end
      end
  end.

Definition discard_dimensions (columns : list selector) (data : list (ndarray F))
    : result (list (ndarray F)) :=
  match columns with
  | [] => Raise IndexError
  | Name _ _ :: cols => discard cols data
  | Index _ :: _ => Ok data
  end.

(** The loop that builds [data_part]. *)
Fixpoint stack_parts (lo hi : nat) (acc : ndarray F) (data : list (ndarray F))
    : result (ndarray F) :=
  match data with
  | [] => Ok acc
  | d :: data' =>
      s ← slice_rows lo hi d;
      acc' ← hstack acc s;
      stack_parts lo hi acc' data'
  end.

Definition data_block (lo hi : nat) (data : list (ndarray F)) : result (ndarray F) :=
  match data with
  | [] => Raise UnboundLocalError
  | d0 :: data' => p ← slice_rows lo hi d0; stack_parts lo hi p data'
  end.

(** [values[i]] *)
Definition item (values : list F) (i : nat) : result F :=
  match values !! i with Some v => Ok v | None => Raise IndexError end.

Definition in_window (lo hi : F) (t : F) : bool := fgt t lo && flt t hi.

(** [read_file], from the point where the file has been read. *)
Definition read_file (format time_format_type : string) (file : parsed)
    (columns : list selector) (values : option (list F))
    (range_start range_end : datetime)
    : result (ndarray F * ndarray F) :=
  _ ← check_format format time_format_type;
  let data := map fix_shape (data file) in
  data ← discard_dimensions columns data;
  let mask := where_ (in_window (timestamp range_start) (timestamp range_end)) (time file) in
  match mask with
  | [] => Ok (Arr1 float64 [], Arr1 float32 [])
  | lo :: _ =>
      let hi := S (List.last mask lo) in
      let time_part := squeeze (Arr1 (time_dtype file) (slice lo hi (time file))) in
      data_part ← data_block lo hi data;
      let data_part := squeeze data_part in
      match values with
      | Some ((_ :: _) as vs) =>
          col ← column0 data_part;
          v0 ← item vs 0;
          v1 ← item vs 1;
          let valid_indices := where_ (in_window v0 v1) col in
          time_part ← select valid_indices time_part;
          data_part ← select valid_indices data_part;
          Ok (time_part, data_part)
      | _ => Ok (time_part, data_part)
      end
  end.

(** [get_data_raw], from the per-file results on. The arrays made by
    [np.empty] hold [None] where nothing has been written. *)
Definition broadcast_line {A} (n : nat) (v : ndarray A) : result (list A) :=
  match v with
  | Arr0 _ x => Ok (replicate n x)
  | Arr1 _ [x] => Ok (replicate n x)
  | Arr1 _ xs => if decide (length xs = n) then Ok xs else Raise ValueError
  | Arr2 _ _ [[x]] => Ok (replicate n x)
  | Arr2 _ _ [r] => if decide (length r = n) then Ok r else Raise ValueError
  | Arr2 _ _ _ => Raise ValueError
  end.

Definition sum_nat (l : list nat) : nat := foldr Nat.add 0%nat l.

Fixpoint fill (lengths : list nat) (i : nat)
    (results : list (ndarray F * ndarray F))
    (columns : nat) (acc : list (option F) * list (list (option F)))
    : result (list (option F) * list (list (option F))) :=
  match results with
  | [] => Ok acc
  | r :: results' =>
      n ← len r.1;
      acc' ← (if decide (0 < n)%nat then
                let a := sum_nat (take i lengths) in
                let b := sum_nat (take (S i) lengths) in
                t ← broadcast_line (b - a) r.1;
                d ← broadcast_rows (b - a) columns r.2;
                Ok (assign a (map Some t) acc.1,
                    assign a (map (map Some) d) acc.2)
              else Ok acc);
      fill lengths (S i) results' columns acc'
  end.

Definition get_data_raw (results : list (ndarray F * ndarray F))
    : result (ndarray (option F) * ndarray (option F)) :=
  (* multiprocessing.Pool(processes=min(cpu_count() * 2, len(raw_files))) *)
  _ ← (if decide (length results = 0%nat) then Raise ValueError else Ok ());
  lengths ← mapM (λ r, len r.1) results;
  columns ← (r0 ← (match results with r :: _ => Ok r | [] => Raise IndexError end);
             row ← first r0.2;
             len row);
  let time := replicate (sum_nat lengths) None in
  let data := replicate (sum_nat lengths) (replicate columns None) in
  filled ← fill lengths 0 results columns (time, data);
  Ok (Arr1 float64 filled.1, Arr2 float32 columns filled.2).

End ReadFile.

End Spacecraft.

(* ===================================================================== *)
(** * SHA-256 ([hashlib.sha256]) *)
(* ===================================================================== *)

Module Sha256.

(** 32-bit words as integers, wrapped after each addition. *)
Definition w32 (x : Z) : Z := Z.land x 4294967295.

Definition rotr (n x : Z) : Z :=
  Z.lor (Z.shiftr x n) (w32 (Z.shiftl x (32 - n))).

Definition Ch (x y z : Z) : Z := Z.lxor (Z.land x y) (Z.land (w32 (Z.lnot x)) z).
Definition Maj (x y z : Z) : Z :=
  Z.lxor (Z.lxor (Z.land x y) (Z.land x z)) (Z.land y z).
Definition Sigma0 (x : Z) : Z := Z.lxor (Z.lxor (rotr 2 x) (rotr 13 x)) (rotr 22 x).
Definition Sigma1 (x : Z) : Z := Z.lxor (Z.lxor (rotr 6 x) (rotr 11 x)) (rotr 25 x).
Definition sigma0 (x : Z) : Z := Z.lxor (Z.lxor (rotr 7 x) (rotr 18 x)) (Z.shiftr x 3).
Definition sigma1 (x : Z) : Z := Z.lxor (Z.lxor (rotr 17 x) (rotr 19 x)) (Z.shiftr x 10).

(** The constants are derived as the standard defines them: from the
    cube roots (round constants) and square roots (initial hash value)
    of the first primes, of which the first 32 fractional bits are
    taken. *)
Definition is_prime (n : Z) : bool :=
  (1 <? n) && forallb (λ d : nat, negb (n mod Z.of_nat d =? 0))
                (seq 2 (Z.to_nat (Z.sqrt n) - 1)).

Definition primes (count : nat) : list Z :=
  take count (filter (λ n, is_prime n = true) (map Z.of_nat (seq 2 400))).

(** The integer cube root, bit by bit from the top. *)
Fixpoint cbrt_from (fuel : nat) (n r bit : Z) : Z :=
  match fuel with
  | O => r
  | S fuel' =>
      let r' := r + bit in
      cbrt_from fuel' n (if r' * r' * r' <=? n then r' else r) (bit / 2)
  end.

Definition cbrt (n : Z) : Z := cbrt_from 40 n 0 (2 ^ 39).

Definition K : list Z :=
  Eval vm_compute in map (λ p, w32 (cbrt (p * 2 ^ 96))) (primes 64).

(** The eight working variables, and the hash value. *)
Record state : Type := {
  ha : Z; hb : Z; hc : Z; hd : Z; he : Z; hf : Z; hg : Z; hh : Z;
}.

Definition root_bits (i : nat) : Z :=
  w32 (Z.sqrt (nth i (primes 8) 0 * 2 ^ 64)).

Definition initial : state :=
  Eval vm_compute in
  {| ha := root_bits 0; hb := root_bits 1; hc := root_bits 2; hd := root_bits 3;
     he := root_bits 4; hf := root_bits 5; hg := root_bits 6; hh := root_bits 7 |}.

(** Big-endian words of a block of bytes. *)
Fixpoint words (bytes : list Z) : list Z :=
  match bytes with
  | b0 :: b1 :: b2 :: b3 :: rest =>
      (((b0 * 256 + b1) * 256 + b2) * 256 + b3) :: words rest
  | _ => []
  end.

(** The message schedule, most recent word first: [n] more words are
    derived from the sixteen before them. *)
Fixpoint extend (n : nat) (rev_w : list Z) : list Z :=
  match n with
  | O => rev_w
  | S n' =>
      let w2 := nth 1 rev_w 0 in
      let w7 := nth 6 rev_w 0 in
      let w15 := nth 14 rev_w 0 in
      let w16 := nth 15 rev_w 0 in
      extend n' (w32 (sigma1 w2 + w7 + sigma0 w15 + w16) :: rev_w)
  end.

Definition schedule (block : list Z) : list Z :=
  rev (extend 48 (rev (words block))).

Definition round (s : state) (kw : Z * Z) : state :=
  let t1 := w32 (hh s + Sigma1 (he s) + Ch (he s) (hf s) (hg s) + kw.1 + kw.2) in
  let t2 := w32 (Sigma0 (ha s) + Maj (ha s) (hb s) (hc s)) in
  {| ha := w32 (t1 + t2); hb := ha s; hc := hb s; hd := hc s;
     he := w32 (hd s + t1); hf := he s; hg := hf s; hh := hg s |}.

Definition compress (h : state) (block : list Z) : state :=
  let s := fold_left round (zip K (schedule block)) h in
  {| ha := w32 (ha h + ha s); hb := w32 (hb h + hb s);
     hc := w32 (hc h + hc s); hd := w32 (hd h + hd s);
     he := w32 (he h + he s); hf := w32 (hf h + hf s);
     hg := w32 (hg h + hg s); hh := w32 (hh h + hh s) |}.

(** Padding: a one bit, zeros, and the bit length in 64 bits. *)
Definition be64 (n : Z) : list Z :=
  map (λ i, Z.land (Z.shiftr n (8 * i)) 255) [7; 6; 5; 4; 3; 2; 1; 0].

Definition pad (msg : list Z) : list Z :=
  let l := Z.of_nat (length msg) in
  msg ++ [128] ++ replicate (Z.to_nat ((55 - l) mod 64)) 0 ++ be64 (8 * l).

(** Absorb the padded message block by block; [buf] holds the bytes of
    the current block, most recent first. *)
Fixpoint absorb (h : state) (buf : list Z) (n : nat) (bytes : list Z) : state :=
  match bytes with
  | [] => h
  | b :: rest =>
      if decide (n = 63%nat) then absorb (compress h (rev (b :: buf))) [] 0 rest
      else absorb h (b :: buf) (S n) rest
  end.

Definition digest (msg : list Z) : state := absorb initial [] 0 (pad msg).

Definition hex_digit (n : Z) : ascii :=
  match n with
  | 0 => "0" | 1 => "1" | 2 => "2" | 3 => "3" | 4 => "4" | 5 => "5"
  | 6 => "6" | 7 => "7" | 8 => "8" | 9 => "9" | 10 => "a" | 11 => "b"
  | 12 => "c" | 13 => "d" | 14 => "e" | _ => "f"
  end%char.

Definition nibble (w : Z) (i : Z) : ascii :=
  hex_digit (Z.land (Z.shiftr w (4 * i)) 15).

Definition hex8 (w : Z) (rest : string) : string :=
  String (nibble w 7) (String (nibble w 6) (String (nibble w 5)
  (String (nibble w 4) (String (nibble w 3) (String (nibble w 2)
  (String (nibble w 1) (String (nibble w 0) rest))))))).

Definition hex_of_state (s : state) : string :=
  hex8 (ha s) (hex8 (hb s) (hex8 (hc s) (hex8 (hd s)
  (hex8 (he s) (hex8 (hf s) (hex8 (hg s) (hex8 (hh s) ""))))))).

(** [hashlib.sha256(msg).hexdigest()] *)
Definition hexdigest (msg : list Z) : string := hex_of_state (digest msg).

(** [s.encode("utf-8")], for code points below 256. *)
Fixpoint utf8 (s : string) : list Z :=
  match s with
  | "" => []
  | String c s' =>
      let n := Z.of_N (N_of_ascii c) in
      if decide (n < 128) then n :: utf8 s'
      else Z.lor 192 (Z.shiftr n 6) :: Z.lor 128 (Z.land n 63) :: utf8 s'
  end.

End Sha256.

(* ===================================================================== *)
(** * JSON serialisation ([json.dumps(..., sort_keys=True)]) *)
(* ===================================================================== *)

Module Json.

(** Python floats are kept abstract: [float_repr] is what [json.dumps]
    prints for one, [float_bool] its truth value. *)
Class PyFloat (F : Type) : Type := {
  float_repr : F → string;
  float_bool : F → bool;
}.

(** The values of an identity record: scalars and arrays. *)
#[local] Set Warnings "-register-all".
Inductive json (F : Type) : Type :=
  | JNull
  | JBool (b : bool)
  | JInt (n : Z)
  | JFloat (x : F)
  | JStr (s : string)
  | JList (l : list (json F)).
Arguments JNull {F}.
Arguments JBool {F} b.
Arguments JInt {F} n.
Arguments JFloat {F} x.
Arguments JStr {F} s.
Arguments JList {F} l.

(** A Python [dict] with string keys: the items in insertion order,
    each key once. *)
Definition pydict (V : Type) : Type := list (string * V).

Definition keys {V} (d : pydict V) : list string := map fst d.

Fixpoint get {V} (k : string) (d : pydict V) : option V :=
  match d with
  | [] => None
  | (k', v) :: d' => if decide (k = k') then Some v else get k d'
  end.

(** [d[k] = v]: an existing key keeps its place. *)
Fixpoint set {V} (k : string) (v : V) (d : pydict V) : pydict V :=
  match d with
  | [] => [(k, v)]
  | (k', v') :: d' =>
      if decide (k = k') then (k, v) :: d' else (k', v') :: set k v d'
  end.

(** [d.update(other)] *)
Definition update {V} (d other : pydict V) : pydict V :=
  fold_left (λ acc kv, set kv.1 kv.2 acc) other d.

(** [del d[k]] of a key that may be absent. *)
Fixpoint remove {V} (k : string) (d : pydict V) : pydict V :=
  match d with
  | [] => []
  | (k', v) :: d' => if decide (k = k') then d' else (k', v) :: remove k d'
  end.

(** [d.pop(k)] and [d.pop(k, default)]: the value, and the dict that is
    left. *)
Definition pop {V} (k : string) (d : pydict V) : result (V * pydict V) :=
  match get k d with
  | Some v => Ok (v, remove k d)
  | None => Raise KeyError
  end.

Definition pop_default {V} (k : string) (default : V) (d : pydict V)
    : V * pydict V :=
  match get k d with
  | Some v => (v, remove k d)
  | None => (default, d)
  end.

(** Two dicts are equal as mappings. *)
Definition same_mapping {V} (d1 d2 : pydict V) : Prop :=
  ∀ k, get k d1 = get k d2.

Definition quote : ascii := ascii_of_N 34.
Definition backslash : ascii := ascii_of_N 92.

Definition hex_digit (n : N) : ascii :=
  match n with
  | 0 => "0" | 1 => "1" | 2 => "2" | 3 => "3" | 4 => "4" | 5 => "5"
  | 6 => "6" | 7 => "7" | 8 => "8" | 9 => "9" | 10 => "a" | 11 => "b"
  | 12 => "c" | 13 => "d" | 14 => "e" | _ => "f"
  end%char%N.

(** One character of [py_encode_basestring_ascii]: the short escapes,
    printable ASCII as it is, and [\u00XX] for the rest. *)
Definition escape (c : ascii) : string :=
  let n := N_of_ascii c in
  if decide (n = 34)%N then String backslash (String quote "")
  else if decide (n = 92)%N then String backslash (String backslash "")
  else if decide (n = 10)%N then String backslash "n"
  else if decide (n = 13)%N then String backslash "r"
  else if decide (n = 9)%N then String backslash "t"
  else if decide (n = 12)%N then String backslash "f"
  else if decide (n = 8)%N then String backslash "b"
  else if decide (32 ≤ n ≤ 126)%N then String c ""
  else String backslash
         (String "u" (String "0" (String "0"
           (String (hex_digit (n / 16)) (String (hex_digit (n mod 16)) ""))))).

Fixpoint escape_body (s : string) (rest : string) : string :=
  match s with
  | "" => rest
  | String c s' => escape c +:+ escape_body s' rest
  end.

(** A string literal followed by [rest]. *)
Definition dumps_str (s : string) (rest : string) : string :=
  String quote (escape_body s (String quote rest)).

Section Dumps.
Context {F : Type} `{PyFloat F}.

(** [dumps_value v rest] is the text of [v] followed by [rest]; the
    separators are the defaults [", "] and [": "]. *)
Fixpoint dumps_value (v : json F) (rest : string) : string :=
  match v with
  | JNull => "null" +:+ rest
  | JBool true => "true" +:+ rest
  | JBool false => "false" +:+ rest
  | JInt n => pretty n +:+ rest
  | JFloat x => float_repr x +:+ rest
  | JStr s => dumps_str s rest
  | JList l =>
      match l with
      | [] => "[]" +:+ rest
      | x :: xs =>
          String "["
            (dumps_value x
               ((fix tail (l : list (json F)) : string :=
                   match l with
                   | [] => String "]" rest
                   | y :: ys => ", " +:+ dumps_value y (tail ys)
                   end) xs))
      end
  end.

Fixpoint dumps_tail (l : list (json F)) (rest : string) : string :=
  match l with
  | [] => String "]" rest
  | y :: ys => ", " +:+ dumps_value y (dumps_tail ys rest)
  end.

Definition dumps_item (kv : string * json F) (rest : string) : string :=
  dumps_str kv.1 (": " +:+ dumps_value kv.2 rest).

Fixpoint dumps_items_tail (l : list (string * json F)) : string :=
  match l with
  | [] => "}"
  | kv :: l' => ", " +:+ dumps_item kv (dumps_items_tail l')
  end.

(** [sorted(dct.items())]: with distinct keys the order is that of the
    keys, compared as Python compares strings. *)
Definition key_le (a b : string * json F) : Prop := String.le a.1 b.1.

#[global] Instance key_le_dec : RelDecision key_le.
Proof. intros a b. unfold key_le. apply _. Defined.

Definition sorted_items (d : pydict (json F)) : list (string * json F) :=
  merge_sort key_le d.

(** [json.dumps(d, sort_keys=True)] *)
Definition dumps (d : pydict (json F)) : string :=
  match sorted_items d with
  | [] => "{}"
  | kv :: l => String "{" (dumps_item kv (dumps_items_tail l))
  end.

(** Truth value of a JSON-like Python value. *)
Definition truthy (v : json F) : bool :=
  match v with
  | JNull => false
  | JBool b => b
  | JInt n => negb (n =? 0)
  | JFloat x => float_bool x
  | JStr s => negb (String.eqb s "")
  | JList l => match l with [] => false | _ => true end
  end.

End Dumps.

End Json.

(* ===================================================================== *)
(** * Cache keys ([generate_cache_key], and their use in
      [Spacecraft.get_data]) *)
(* ===================================================================== *)

Module CacheKey.
Import Json Datetime.

Section Keys.
Context {F : Type} `{PyFloat F} `{Spacecraft.Clock F}.

(** [generate_cache_key(identifiers)] *)
Definition generate_cache_key (identifiers : pydict (json F)) : string :=
  Sha256.hexdigest (Sha256.utf8 (dumps identifiers)).

(** The identity record of [get_data]: the three fixed entries, then
    [identifier.update(kwargs)]. *)
Definition identifier (name data_key : string) (t : list datetime)
    (kwargs : pydict (json F)) : pydict (json F) :=
  update
    [ ("data_key", JStr data_key);
      ("spacecraft", JStr name);
      ("times", JList (map (λ _t, JFloat (Spacecraft.timestamp _t)) t)) ]
    kwargs.

(** [kwargs.pop("cache", False)], as a truth value. *)
Definition cache_enabled (kwargs : pydict (json F)) : bool :=
  match get "cache" kwargs with
  | Some v => truthy v
  | None => false
  end.

(** The cache key of a call [self.get_data(t, data_key, **kwargs)],
    where [self.name] is [name]; [None] when caching is off. A keyword
    that repeats a named parameter is rejected by the call itself. *)
Definition get_data_cache_key (name : string) (t : list datetime)
    (data_key : string) (kwargs : pydict (json F)) : result (option string) :=
  if decide ("self" ∈ keys kwargs ∨ "t" ∈ keys kwargs ∨ "data_key" ∈ keys kwargs)
  then Raise TypeError
  else if cache_enabled kwargs
       then Ok (Some (generate_cache_key (identifier name data_key t kwargs)))
       else Ok None.

End Keys.

End CacheKey.

(* ===================================================================== *)
(** * Processed data ([Spacecraft.get_data]) *)
(* ===================================================================== *)

Module GetData.
Import Json Datetime Caching CacheKey.

(** An entry of [self.spacecraft["data"]], as far as [get_data] reads
    it: the value under ["frame"], when the key is there. *)
Record product (F : Type) : Type := { frame : option (json F) }.
Arguments frame {F} p.

(** What [get_data] calls and this file does not define:
    [self.get_data_raw] as a whole (its parts are modelled above),
    [heliosat.smoothing.smooth_data] and [heliosat.spice.transform_frame].
    Each may read and change the world outside the cache directory, and
    return or raise; what it raises is passed on. [T] and [D] are the
    time and the data array. *)
Class Externals (F T D W : Type) : Type := {
  get_data_raw :
    datetime → datetime → string → pydict (json F) → W → W * result (T * D);
  smooth_data :
    list datetime → T → D → pydict (json F) → W → W * result (T * D);
  transform_frame :
    T → D → json F → json F → json F → W → W * result D;
}.

Section GetData.
Context {F : Type} `{PyFloat F} `{Spacecraft.Clock F}.
Context {T D W : Type} `{Pickle (T * D)} `{Externals F T D W}.
(** [heliosat._paths["cache"]] and [self.spacecraft["data"]]. *)
Variable cache_path : string.
Variable data : gmap string (product F).

(** "move all arguments with smoothing in them to the smoothing dict":
    the loop over the keys of a copy of [kwargs]. *)
Fixpoint move_smoothing (keys_ : list string)
    (kwargs smoothing_dict : pydict (json F))
    : result (pydict (json F) * pydict (json F)) :=
  match keys_ with
  | [] => Ok (kwargs, smoothing_dict)
  | key :: keys' =>
      if PyStr.contains "smoothing" key then
        popped ← pop key kwargs;
        move_smoothing keys' popped.2 (set key popped.1 smoothing_dict)
      else move_smoothing keys' kwargs smoothing_dict
  end.

(** The options of a call, as the head of [get_data] sorts them. *)
Record options : Type := {
  cache : json F;
  frame_to : json F;
  smoothing : json F;
  raw_kwargs : pydict (json F);
  smoothing_dict : pydict (json F);
}.

Definition read_options (kwargs : pydict (json F)) : result options :=
  let '(cache, kwargs) := pop_default "cache" (JBool false) kwargs in
  let '(frame, kwargs) := pop_default "frame" JNull kwargs in
  let smoothing := default JNull (get "smoothing" kwargs) in
  moved ← move_smoothing (keys kwargs) kwargs [("smoothing", smoothing)];
  Ok {| cache := cache; frame_to := frame; smoothing := smoothing;
        raw_kwargs := moved.1; smoothing_dict := moved.2 |}.

(** [self.spacecraft["data"][data_key]] *)
Definition lookup_product (data_key : string) : result (product F) :=
  match data !! data_key with
  | Some p => Ok p
  | None => Raise KeyError
  end.

(** The two conditions on the frame; [and] evaluates its right operand
    only when the left one is true. *)
Definition frame_defined (frame : json F) (data_key : string) : result bool :=
  if truthy frame
  then p ← lookup_product data_key; Ok (bool_decide (is_Some (GetData.frame p)))
  else Ok false.

Definition frame_missing (frame : json F) (data_key : string) : result bool :=
  if truthy frame
  then p ← lookup_product data_key;
       Ok (negb (from_option truthy false (GetData.frame p)))
  else Ok false.

(** The transformation into the requested frame, or [KeyError]. *)
Definition in_frame (o : options) (data_key : string) (time : T) (data_ : D)
    (w : W) : W * result D :=
  match frame_defined (frame_to o) data_key with
  | Raise e => (w, Raise e)
  | Ok true =>
      match p ← lookup_product data_key;
            from_option Ok (Raise KeyError) (GetData.frame p) with
      | Raise e => (w, Raise e)
      | Ok frame_from =>
          transform_frame time data_ frame_from (frame_to o)
            (default JNull (get "frame_static" (raw_kwargs o))) w
      end
  | Ok false =>
      match frame_missing (frame_to o) data_key with
      | Raise e => (w, Raise e)
      | Ok true => (w, Raise KeyError)
      | Ok false => (w, Ok data_)
      end
  end.

(** From the call of [get_data_raw] to the frame: what is computed when
    the cache does not answer. A keyword that repeats a parameter of
    [get_data_raw] is rejected by the call, after [t[0]] and [t[-1]]
    have been evaluated. *)
Definition processed (o : options) (t : list datetime) (data_key : string)
    (w : W) : W * result (T * D) :=
  match t with
  | [] => (w, Raise IndexError)
  | t0 :: _ =>
      if decide ("range_start" ∈ keys (raw_kwargs o)
                 ∨ "range_end" ∈ keys (raw_kwargs o))
      then (w, Raise TypeError)
      else
        match get_data_raw t0 (List.last t t0) data_key (raw_kwargs o) w with
        | (w, Raise e) => (w, Raise e)
        | (w, Ok (time, data_)) =>
            match (if truthy (smoothing o)
                   then smooth_data t time data_ (smoothing_dict o) w
                   else (w, Ok (time, data_))) with
            | (w, Raise e) => (w, Raise e)
            | (w, Ok (time, data_)) =>
                match in_frame o data_key time data_ w with
                | (w, Raise e) => (w, Raise e)
                | (w, Ok data_) => (w, Ok (time, data_))
                end
            end
        end
  end.

(** [self.get_data(t, data_key, **kwargs)], where [self.name] is
    [name]: the final cache directory and world, and what is returned or
    raised. *)
Definition get_data (name : string) (t : list datetime) (data_key : string)
    (kwargs : pydict (json F)) (fs : cache_dir) (w : W)
    : cache_dir * W * result (T * D) :=
  if decide ("self" ∈ keys kwargs ∨ "t" ∈ keys kwargs ∨ "data_key" ∈ keys kwargs)
  then (fs, w, Raise TypeError)
  else
    let identifier := identifier name data_key t kwargs in
    match read_options kwargs with
    | Raise e => (fs, w, Raise e)
    | Ok o =>
        let cache_key := generate_cache_key identifier in
        if truthy (cache o) && cache_entry_exists cache_path cache_key fs
        then (fs, w, get_cache_entry cache_path cache_key fs)
        else
          match processed o t data_key w with
          | (w, Raise e) => (fs, w, Raise e)
          | (w, Ok (time, data_)) =>
              let fs :=
                if truthy (cache o)
                   && negb (cache_entry_exists cache_path cache_key fs)
                then set_cache_entry cache_path cache_key (time, data_) fs
                else fs in
              (fs, w, Ok (time, data_))
          end
    end.

End GetData.

End GetData.

(* ===================================================================== *)
(** * The arguments of the readers ([Spacecraft.get_data_raw], before
      the files are read) *)
(* ===================================================================== *)

Module ReadArguments.
Import Spacecraft.

(** List objects are told apart by their address. *)
Definition loc : Type := nat.

(** A product dict, as far as this part of [get_data_raw] reads it: the
    value under ["columns"], when the key is there, is a reference to a
    list object. *)
Record product : Type := { columns : option loc }.

(** [self.spacecraft["data"]], which lives as long as the process, and
    the list objects that its products refer to. *)
Record store : Type := {
  data : gmap string product;
  lists : gmap loc (list selector);
}.

(** [kwargs_read = dict(self.spacecraft["data"][data_key])], a new dict
    with the values of the registry's own, and
    [kwargs_read["columns"].extend(kwargs["extra_columns"])] when the
    call has the option: the list that is extended is the one the
    registry refers to. *)
Definition kwargs_read (data_key : string)
    (extra_columns : option (list selector)) (st : store)
    : store * result product :=
  match data st !! data_key with
  | None => (st, Raise KeyError)
  | Some p =>
      let kwargs_read := {| columns := columns p |} in
      match extra_columns with
      | None => (st, Ok kwargs_read)
      | Some extra =>
          match columns kwargs_read with
          | None => (st, Raise KeyError)
          | Some l =>
              ({| data := data st;
                  lists := alter (λ cols, cols ++ extra) l (lists st) |},
               Ok kwargs_read)
          end
      end
  end.

(** [kwargs.get("columns")] in [read_file], on the arguments handed to
    the workers. *)
Definition columns_read (kwargs : product) (st : store)
    : option (list selector) :=
  l ← columns kwargs; lists st !! l.

(** The columns that the readers of one call are given. *)
Definition call (data_key : string) (extra_columns : option (list selector))
    (st : store) : store * result (option (list selector)) :=
  let '(st', r) := kwargs_read data_key extra_columns st in
  (st', kwargs ← r; Ok (columns_read kwargs st')).

(** Calls for one product, one after the other, in one process. *)
Definition calls (data_key : string)
    (extras : list (option (list selector))) (st : store) : store :=
  fold_left (λ st extra, (call data_key extra st).1) extras st.

End ReadArguments.

(* ===================================================================== *)
(** * The raw data files ([Spacecraft.get_data_files]) *)
(* ===================================================================== *)

Module DataFiles.
Import Datetime Urls.

(** A product dict, as far as [get_data_files] reads it: the template
    under ["urls"] when the key is there, the value under ["versions"],
    and the truth value of [.get("use_regex", False)]. *)
Record product : Type := {
  urls : option string;
  versions : option (list version);
  use_regex : bool;
}.

(** What [get_data_files] calls and this file does not define: the
    clock, the file system, [heliosat.util.urls_resolve] and
    [download_files], and [gzip] with [shutil.copyfileobj]. [W] is the
    world they read and change; what they raise is passed on.
    [restrptime] is [heliosat.util.strptime] applied to a [datetime], as
    the error message of the range check applies it. *)
Class System (W : Type) : Type := {
  now : W → datetime;
  restrptime : datetime → result datetime;
  os_path_exists : string → W → bool;
  urls_resolve : list string → W → W * result (list string);
  download_files : list string → string → W → W * result unit;
  gunzip : string → string → W → W * result unit;
  os_remove : string → W → W * result unit;
}.

(** [url.split("/")[-1]] and [".".join(file.split(".")[:-1])] *)
Definition basename (url : string) : string :=
  List.last (PyStr.split "/" url) "".

Definition stem (file : string) : string :=
  PyStr.join "." (removelast (PyStr.split "." file)).

(** [l.remove(x)]: the first occurrence goes; [ValueError] when there
    is none. *)
Fixpoint remove_first (x : string) (l : list string) : result (list string) :=
  match l with
  | [] => Raise ValueError
  | y :: l' =>
      if decide (x = y) then Ok l'
      else l'' ← remove_first x l'; Ok (y :: l'')
  end.

Section DataFiles.
Context {W : Type} `{UtilStrptime} `{System W}.
(** [heliosat._paths["data"]], [self.spacecraft] and
    [self.spacecraft["data"]]. *)
Variable data_root : string.
Variable spacecraft : Registry.descriptor.
Variable data : gmap string product.

(** The properties [mission_start] and [mission_end]. *)
Definition mission_start : result datetime :=
  strptime (Registry.mission_start spacecraft).

Definition mission_end (w : W) : result datetime :=
  match Registry.mission_end spacecraft with
  | Some s => strptime s
  | None => Ok (now w)
  end.

(** The check of the range against the mission. The bounds are
    formatted for the log and again for the exception, with the same
    outcome. *)
Definition check_range (range_start range_end : datetime) (w : W)
    : result unit :=
  ms ← mission_start;
  outside ← (if Datetime.lt range_start ms then Ok true
             else me ← mission_end w; Ok (Datetime.lt me range_end));
  if outside : bool then
    _ ← (ms ← mission_start; restrptime ms);
    _ ← (me ← mission_end w; restrptime me);
    Raise ValueError
  else Ok ().

(** "skip the download if the extracted versions exist": the loop over
    a copy of [urls]. *)
Fixpoint skip_extracted (data_path : string) (copy urls files_extracted : list string)
    (w : W) : result (list string * list string) :=
  match copy with
  | [] => Ok (urls, files_extracted)
  | url :: copy' =>
      if PyStr.endswith ".gz" url then
        let file := stem (basename url) in
        if os_path_exists (Caching.os_path_join data_path file) w then
          urls' ← remove_first url urls;
          skip_extracted data_path copy' urls'
            (files_extracted ++ [Caching.os_path_join data_path file]) w
        else skip_extracted data_path copy' urls files_extracted w
      else skip_extracted data_path copy' urls files_extracted w
  end.

(** "extract new archives and add old ones to the list": the loop over
    a copy of [files]. *)
Fixpoint extract_archives (copy files : list string) (w : W)
    : W * result (list string) :=
  match copy with
  | [] => (w, Ok files)
  | file :: copy' =>
      if PyStr.endswith ".gz" file then
        match gunzip file (stem file) w with
        | (w, Raise e) => (w, Raise e)
        | (w, Ok _) =>
            match os_remove file w with
            | (w, Raise e) => (w, Raise e)
            | (w, Ok _) =>
                match remove_first file files with
                | Raise e => (w, Raise e)
                | Ok files' => extract_archives copy' (files' ++ [stem file]) w
                end
            end
        end
      else extract_archives copy' files w
  end.

(** [self.get_data_files(range_start, range_end, data_key)] *)
Definition get_data_files (range_start range_end : datetime) (data_key : string)
    (w : W) : W * result (list string) :=
  match check_range range_start range_end w with
  | Raise e => (w, Raise e)
  | Ok _ =>
      let data_path := Caching.os_path_join data_root data_key in
      match (p ← from_option Ok (Raise KeyError) (data !! data_key);
             fmt ← from_option Ok (Raise KeyError) (urls p);
             built ← urls_build fmt range_start range_end (versions p);
             Ok (p, built)) with
      | Raise e => (w, Raise e)
      | Ok (p, built) =>
          match (if use_regex p then urls_resolve built w else (w, Ok built)) with
          | (w, Raise e) => (w, Raise e)
          | (w, Ok urls) =>
              match skip_extracted data_path urls urls [] w with
              | Raise e => (w, Raise e)
              | Ok (urls, files_extracted) =>
                  match download_files urls data_path w with
                  | (w, Raise e) => (w, Raise e)
                  | (w, Ok _) =>
                      let files :=
                        map (λ url, Caching.os_path_join data_path (basename url)) urls in
                      let files := files ++ files_extracted in
                      extract_archives files files w
                  end
              end
          end
      end
  end.

End DataFiles.

End DataFiles.

(* ===================================================================== *)
(* ===================================================================== *)
(** * The vocabulary of the properties *)
(* ===================================================================== *)
(* ===================================================================== *)

(** Predicates and auxiliary functions in which the properties below are
    stated and proved; none of them is part of the program. *)

Section CalendarVocabulary.
Import Datetime.

(** The month and the day that [ord2ymd] computes, as a function of the
    day of the year (counted from 0) and of whether the year is a leap
    year. *)
Definition month_day (n : Z) (leapyear : bool) : Z * Z :=
  let m := Z.shiftr (n + 50) 5 in
  let preceding :=
    DAYS_BEFORE_MONTH m + (if (2 <? m) && leapyear then 1 else 0) in
  if n <? preceding then
    let m' := m - 1 in
    let preceding' :=
      preceding
      - (DAYS_IN_MONTH m' + (if (m' =? 2) && leapyear then 1 else 0)) in
    (m', n - preceding' + 1)
  else (m, n - preceding + 1).

(** The month and day found for day [n] of a year are a date of that
    year, and the date of that very day. *)
Definition month_day_ok (leap : bool) (n : Z) : bool :=
  let '(m, d) := month_day n leap in
  (1 <=? m) && (m <=? 12) && (1 <=? d)
  && (DAYS_BEFORE_MONTH m + (if (2 <? m) && leap then 1 else 0) + d =? n + 1).

(** [p] holds of the [fuel] integers from [n] on. *)
Fixpoint all_below (fuel : nat) (n : Z) (p : Z → bool) : bool :=
  match fuel with
  | O => true
  | S fuel' => p n && all_below fuel' (n + 1) p
  end.

(** The time of day is one of a real clock. *)
Definition clock_time (d : datetime) : Prop :=
  0 ≤ time_of_day d < MICROS_PER_DAY.

End CalendarVocabulary.

Section DateVocabulary.
Import Datetime.

(** Day [d] of month [m], if the month has such a day, is read back by
    [month_day] from its number in the year; that number is below the
    length of the year, and is 365 on the last day of December only. *)
Definition month_day_back (leap : bool) (m d : Z) : bool :=
  negb (d <=? DAYS_IN_MONTH m + (if (m =? 2) && leap then 1 else 0))
  || (let n := DAYS_BEFORE_MONTH m + (if (2 <? m) && leap then 1 else 0) + d - 1 in
      let '(m', d') := month_day n leap in
      (m' =? m) && (d' =? d) && (n <? 365 + (if leap then 1 else 0))
      && ((n <? 365) || ((m =? 12) && (d =? 31)))).

Definition all_dates (leap : bool) : bool :=
  all_below 12 1 (λ m, all_below 31 1 (λ d, month_day_back leap m d)).

(** The month and the day are those of a date of the calendar. *)
Definition calendar_date (d : datetime) : Prop :=
  1 ≤ month d ≤ 12 ∧ 1 ≤ day d ≤ days_in_month (year d) (month d).

(** The moment of a datetime, in microseconds. *)
Definition instant (d : datetime) : Z :=
  toordinal d * MICROS_PER_DAY + time_of_day d.

End DateVocabulary.

Section TemplateVocabulary.
Import Datetime.

(** A template with its date placeholders filled in, in the order in
    which [urls_build] replaces them. *)
Definition fill_in (fmt : string) (y m d doy doym1 doym2 : Z) : string :=
  PyStr.replace "{DOYM2}" (PyStr.format_0d 3 doym2)
    (PyStr.replace "{DOYM1}" (PyStr.format_0d 3 doym1)
      (PyStr.replace "{DOY}" (PyStr.format_0d 3 doy)
        (PyStr.replace "{DD}" (PyStr.format_0d 2 d)
          (PyStr.replace "{MONTH}" (month_abbr m)
            (PyStr.replace "{MM}" (PyStr.format_0d 2 m)
              (PyStr.replace "{YY}" (PyStr.format_0d 2 (y mod 100))
                (PyStr.replace "{YYYY}" (PyStr.str_of_int y) fmt))))))).

End TemplateVocabulary.

Section UrlVocabulary.
Import Datetime Urls.
Context {SP : UtilStrptime}.

(** The day lies in the half-open interval of the descriptor. *)
Definition inside (v : version) (day : datetime) : Prop :=
  ∃ s e, strptime (version_start v) = Ok s ∧ strptime (version_end v) = Ok e
         ∧ Datetime.le s day = true ∧ Datetime.lt day e = true.

(** [v] is the first descriptor of the list whose interval holds the day. *)
Definition selected (vs : list version) (day : datetime) (v : version) : Prop :=
  ∃ pre post : list version,
    vs = pre ++ v :: post ∧ inside v day ∧ ∀ u, u ∈ pre → ¬ inside u day.

Definition bounds_parse (vs : list version) : Prop :=
  ∀ v, v ∈ vs → is_ok (strptime (version_start v)) = true
                ∧ is_ok (strptime (version_end v)) = true.

End UrlVocabulary.

Section MaskVocabulary.
Context {B : Type} (p : B → bool).

(** The block between the first and the last element satisfying [p]:
    [l = pre ++ mid ++ post], nothing in [pre] or [post] satisfies [p],
    and [mid] begins and ends with elements that do. *)
Record block_of (l pre mid post : list B) : Prop := {
  block_split : l = pre ++ mid ++ post;
  block_pre : Forall (λ x, p x = false) pre;
  block_post : Forall (λ x, p x = false) post;
  block_first : ∃ x, head mid = Some x ∧ p x = true;
  block_last : ∃ y, last mid = Some y ∧ p y = true;
}.

(** If the elements satisfying [p] are contiguous, the block holds
    nothing else. *)
Definition contiguous (l : list B) : Prop :=
  ∀ i j k x y z, (i ≤ j ≤ k)%nat →
    l !! i = Some x → l !! j = Some y → l !! k = Some z →
    p x = true → p z = true → p y = true.

End MaskVocabulary.

Section SelectVocabulary.
Context {C D : Type} (q : C → bool).

(** The entries of [l] whose companion in [col] satisfies [q]. *)
Definition keep (col : list C) (l : list D) : list D :=
  map snd (filter (λ cx, q cx.1 = true) (zip col l)).

End SelectVocabulary.

Section TableVocabulary.
Import Numpy Spacecraft.
Context {F : Type} {FF : Float F}.

(** A two-dimensional array of [n] rows, each as wide as declared. *)
Definition is_table (n : nat) (a : ndarray F) : Prop :=
  match a with
  | Arr2 _ c rows => length rows = n ∧ Forall (λ r, length r = c) rows
  | _ => False
  end.

(** [np.hstack] of a whole list of tables onto a first one. *)
Fixpoint join_tables (dt : dtype) (c : nat) (rows : list (list F))
    (data : list (ndarray F)) : ndarray F :=
  match data with
  | [] => Arr2 dt c rows
  | Arr2 dt2 c2 rows2 :: data' =>
      join_tables (promote dt dt2) (c + c2) (zip_with app rows rows2) data'
  | _ :: data' => join_tables dt c rows data'
  end.

(** The table of all value channels, side by side. *)
Definition joined (data : list (ndarray F)) : ndarray F :=
  match data with
  | Arr2 dt c rows :: data' => join_tables dt c rows data'
  | _ => Arr2 float32 0 []
  end.

(** The time stamps of a per-file result, and its rows of values (an
    empty result contributes none, whatever the shape of its data). *)
Definition times_of (r : ndarray F * ndarray F) : list F :=
  match r.1 with Arr1 _ ts => ts | _ => [] end.

Definition values_of (r : ndarray F * ndarray F) : list (list F) :=
  match r.1, r.2 with
  | Arr1 _ (_ :: _), Arr2 _ _ rows => rows
  | _, _ => []
  end.

(** A per-file result as [read_file] shapes it for several rows and
    channels: a line of time stamps and, unless it is empty, a table of
    [c] channels with a row for each time stamp. *)
Definition well_shaped (c : nat) (r : ndarray F * ndarray F) : Prop :=
  ∃ dt ts, r.1 = Arr1 dt ts
    ∧ (ts = [] ∨ ∃ dt' rows, r.2 = Arr2 dt' c rows
                  ∧ length rows = length ts ∧ Forall (λ row, length row = c) rows).

(** The first value channel of a row lies strictly within the range. *)
Definition first_in (v0 v1 : F) (r : list F) : bool :=
  match r with
  | x :: _ => in_window v0 v1 x
  | [] => false
  end.

(** A time column is sorted when no later entry is smaller than an
    earlier one. *)
Definition sorted_time (l : list F) : Prop :=
  ∀ i j x y, (i ≤ j)%nat → l !! i = Some x → l !! j = Some y → flt y x = false.

End TableVocabulary.

Section ShapeVocabulary.
Import Numpy Spacecraft.
Context {F : Type}.

(** What is raised, if anything, is not [NotImplementedError]. *)
Definition implemented {A} (r : result A) : Prop := r ≠ Raise NotImplementedError.

(** A variable as the readers hand it over, with an entry or a row for
    each of [n] time stamps. *)
Definition per_time_stamp (n : nat) (a : ndarray F) : Prop :=
  match a with
  | Arr0 _ _ => False
  | Arr1 _ xs => length xs = n
  | Arr2 _ c rows => length rows = n ∧ Forall (λ r, length r = c) rows
  end.

Definition is_name (c : selector) : bool :=
  match c with
  | Name _ _ => true
  | Index _ => false
  end.

End ShapeVocabulary.

Section TextVocabulary.
Import Json.

(** Reading back one character of a string literal. *)
Definition unhex (c : ascii) : option N :=
  let n := N_of_ascii c in
  if decide (48 ≤ n ≤ 57)%N then Some (n - 48)%N
  else if decide (97 ≤ n ≤ 102)%N then Some (n - 87)%N
  else None.

Definition unescape (s : string) : option (ascii * string) :=
  match s with
  | "" => None
  | String c s' =>
      if decide (c = quote) then None
      else if decide (c = backslash) then
        match s' with
        | String e s'' =>
            if decide (e = quote) then Some (quote, s'')
            else if decide (e = backslash) then Some (backslash, s'')
            else if decide (e = "n"%char) then Some (ascii_of_N 10, s'')
            else if decide (e = "r"%char) then Some (ascii_of_N 13, s'')
            else if decide (e = "t"%char) then Some (ascii_of_N 9, s'')
            else if decide (e = "f"%char) then Some (ascii_of_N 12, s'')
            else if decide (e = "b"%char) then Some (ascii_of_N 8, s'')
            else match s'' with
                 | String _ (String _ (String h (String l r))) =>
                     match unhex h, unhex l with
                     | Some a, Some b => Some (ascii_of_N (16 * a + b), r)
                     | _, _ => None
                     end
                 | _ => None
                 end
        | "" => None
        end
      else Some (c, s')
  end.

(** The characters that end a number or a keyword inside a record, and
    the characters that begin a string or an array. *)
Definition delimiter (c : ascii) : bool :=
  bool_decide (c = ","%char ∨ c = "]"%char ∨ c = "}"%char).

Definition opener (c : ascii) : bool :=
  bool_decide (c = quote ∨ c = "["%char).

Definition atom_char (c : ascii) : bool := negb (delimiter c) && negb (opener c).

Fixpoint all_chars (p : ascii → bool) (s : string) : bool :=
  match s with
  | "" => true
  | String c s' => p c && all_chars p s'
  end.

Fixpoint some_char (p : ascii → bool) (s : string) : bool :=
  match s with
  | "" => false
  | String c s' => p c || some_char p s'
  end.

(** What follows a value: nothing, or a delimiter. *)
Definition stops (r : string) : bool :=
  match r with
  | "" => true
  | String c _ => delimiter c
  end.

(** Integer literals are made of digits and a sign. *)
Definition int_char (c : ascii) : bool :=
  bool_decide (48 ≤ N_of_ascii c ≤ 57)%N || bool_decide (c = "-"%char).

(** The characters of a float as [json.dumps] prints it: digits, sign,
    point and exponent, and the letters of [NaN] and [Infinity]. A float
    is told from an integer by a character that no integer has. *)
Definition float_char (c : ascii) : bool :=
  int_char c
  || bool_decide (c ∈ ["+"; "."; "e"; "I"; "n"; "f"; "i"; "t"; "y"; "N"; "a"]%char).

Definition float_shape (s : string) : bool :=
  all_chars float_char s && some_char (λ c, negb (int_char c)) s.

Definition lower_hex (c : ascii) : bool :=
  bool_decide (c ∈ ["0"; "1"; "2"; "3"; "4"; "5"; "6"; "7"; "8"; "9";
                    "a"; "b"; "c"; "d"; "e"; "f"]%char).

(** Reading back the first character of an encoded string. *)
Definition unutf8 (bytes : list Z) : option (ascii * list Z) :=
  match bytes with
  | [] => None
  | b :: rest =>
      if decide (b < 128) then Some (ascii_of_N (Z.to_N b), rest)
      else match rest with
           | b2 :: rest' =>
               Some (ascii_of_N (Z.to_N ((b - 192) * 64 + (b2 - 128))), rest')
           | [] => None
           end
  end.

(** Two different messages with the same digest. *)
Definition collision (m1 m2 : list Z) : Prop :=
  m1 ≠ m2 ∧ Sha256.hexdigest m1 = Sha256.hexdigest m2.

End TextVocabulary.

Section AtomVocabulary.
Import Json.
Context {F : Type} {PF : PyFloat F}.

(** The text of a number or keyword. *)
Definition atom_text (v : json F) : option string :=
  match v with
  | JNull => Some "null"
  | JBool true => Some "true"
  | JBool false => Some "false"
  | JInt n => Some (pretty n)
  | JFloat x => Some (float_repr x)
  | JStr _ | JList _ => None
  end.

End AtomVocabulary.

Section FilesVocabulary.
Import DataFiles.
Context {W : Type} `{System W}.

(** The name is that of a gzip archive. *)
Definition archive (file : string) : bool := PyStr.endswith ".gz" file.

(** Where the content of the archive behind a URL is kept once
    extracted, and whether it is there already. *)
Definition extracted_path (data_path url : string) : string :=
  Caching.os_path_join data_path (stem (basename url)).

Definition already_extracted (data_path : string) (w : W) (url : string) : bool :=
  archive url && os_path_exists (extracted_path data_path url) w.

(** Each archive in turn is extracted beside itself and removed. *)
Fixpoint extract_each (archives : list string) (w : W) : W * result unit :=
  match archives with
  | [] => (w, Ok ())
  | file :: archives' =>
      match gunzip file (stem file) w with
      | (w, Raise e) => (w, Raise e)
      | (w, Ok _) =>
          match os_remove file w with
          | (w, Raise e) => (w, Raise e)
          | (w, Ok _) => extract_each archives' w
          end
      end
  end.

End FilesVocabulary.

(* ===================================================================== *)
(** * Sample inputs *)
(* ===================================================================== *)

Section RegistrySamples.
Import Registry.

Definition wind : descriptor :=
  {| kernel_group := Some "default"; mission_start := "1994-11-01T00:00:00";
     mission_end := None |}.

Definition sample_registry : gmap string descriptor := {[ "wind" := wind ]}.

Definition loaded : spice_state :=
  {| spacecraft := Some sample_registry; kernels_loaded := ∅ |}.

End RegistrySamples.

(** A pickle for byte strings, to instantiate the cache with. *)
#[local] Instance bytes_pickle : Caching.Pickle (list Byte.byte) :=
  {| Caching.pickle_dump := id; Caching.pickle_load := Ok |}.

(** Whole seconds as timestamps, UTC as the local time zone, and a
    parser for ["%Y-%m-%dT%H:%M:%S.%f"] with a zero fraction: instances
    to evaluate the decoder with. *)
#[local] Instance seconds_float : Numpy.Float Z :=
  {| Numpy.flt := Z.ltb; Numpy.fadd := Z.add; Numpy.f_of_Z := id |}.

#[local] Instance utc_clock : Spacecraft.Clock Z := λ d,
  (Datetime.toordinal d - 719163) * 86400
  + (Datetime.hour d * 60 + Datetime.minute d) * 60 + Datetime.second d.

#[local] Instance default_strptime : Spacecraft.Strptime := λ s _,
  if PyStr.endswith ".000" s then Urls.iso_strptime (PyStr.take 19 s)
  else Raise ValueError.

Section UrlSamples.
Import Datetime Urls.

Definition at_hour (y m d h : Z) : datetime :=
  {| year := y; month := m; day := d;
     hour := h; minute := 0; second := 0; microsecond := 0 |}.

Definition sample_versions : list version :=
  [ {| version_start := "2020-01-01"; version_end := "2020-06-01";
       identifiers := ["v1"] |};
    {| version_start := "2020-06-01"; version_end := "2021-01-01";
       identifiers := ["v2"] |} ].

End UrlSamples.

Section ReadFileSamples.
Import Numpy Spacecraft.

(** A moment [s] seconds after the epoch (for [s] below 60). *)
Definition epoch_second (s : Z) : Datetime.datetime :=
  {| Datetime.year := 1970; Datetime.month := 1; Datetime.day := 1;
     Datetime.hour := 0; Datetime.minute := 0; Datetime.second := s;
     Datetime.microsecond := 0 |}.

(** A file of a three-channel variable whose second record is out of
    order, and a file of a single-channel variable. *)
Definition unsorted_file : @parsed Z :=
  {| time_dtype := float64; time := [5; 100; 6];
     data := [Arr2 float32 3 [[1; 2; 3]; [4; 5; 6]; [7; 8; 9]]] |}.

Definition sorted_file : @parsed Z :=
  {| time_dtype := float64; time := [-3; 5; 6; 100];
     data := [Arr2 float32 3 [[0; 0; 0]; [1; 2; 3]; [4; 5; 6]; [7; 8; 9]]] |}.

Definition density_file : @parsed Z :=
  {| time_dtype := float64; time := [5; 100];
     data := [Arr1 float32 [10; 11]] |}.

Definition field_columns : list selector := [Name "Epoch" None; Name "B" None].
Definition density_columns : list selector := [Name "Epoch" None; Name "Np" None].

End ReadFileSamples.

(** Floats with a whole value, printed as Python prints them
    ([1577836800.0]): an instance to evaluate the keys with. *)
#[local] Instance whole_floats : Json.PyFloat Z :=
  {| Json.float_repr := λ z, pretty z +:+ ".0"; Json.float_bool := λ z, negb (z =? 0) |}.

Section CacheKeySamples.
Import Json.

Definition new_year : list Datetime.datetime := [at_hour 2020 1 1 0].

Definition heeq_call : pydict (json Z) :=
  [("cache", JBool true); ("frame", JStr "HEEQ")].
Definition hee_call : pydict (json Z) :=
  [("cache", JBool true); ("frame", JStr "HEE")].
Definition static_call : pydict (json Z) :=
  [("cache", JBool true); ("frame", JStr "HEEQ"); ("frame_static", JBool true)].
Definition truthy_call : pydict (json Z) :=
  [("cache", JInt 1); ("frame", JStr "HEEQ")].

End CacheKeySamples.

(** A pickle for a line of bytes with no data beside it, a world that
    counts the fetches of raw data, and two ways to get data: one that
    returns a line, one that fails at every step. *)
Definition line_pickle : Caching.Pickle (list Byte.byte * unit) :=
  {| Caching.pickle_dump := fst; Caching.pickle_load := λ bytes, Ok (bytes, ()) |}.

Definition counting_fetch : GetData.Externals Z (list Byte.byte) unit nat :=
  {| GetData.get_data_raw := λ _ _ _ _ w, (S w, Ok ([Byte.x01], ()));
     GetData.smooth_data := λ _ time data_ _ w, (w, Ok (time, data_));
     GetData.transform_frame := λ _ data_ _ _ _ w, (w, Ok data_) |}.

Definition failing_fetch : GetData.Externals Z (list Byte.byte) unit nat :=
  {| GetData.get_data_raw := λ _ _ _ _ w, (w, Raise RuntimeError);
     GetData.smooth_data := λ _ _ _ _ w, (w, Raise RuntimeError);
     GetData.transform_frame := λ _ _ _ _ _ w, (w, Raise RuntimeError) |}.

Section GetDataSamples.
Import Json.

(** A product without a reference frame, and calls. *)
Definition frameless : gmap string (GetData.product Z) :=
  {[ "mag" := {| GetData.frame := None |} ]}.

Definition cached_call : pydict (json Z) := [("cache", JBool true)].

Definition smoothed_call : pydict (json Z) :=
  [("cache", JBool true); ("smoothing", JStr "kernel");
   ("smoothing_scale", JInt 5); ("extra_columns", JList [JStr "Bx"])].

Definition framed_call : pydict (json Z) := [("frame", JStr "HEEQ")].

Definition timed_call : pydict (json Z) := [("cache", JBool true); ("times", JInt 0)].

End GetDataSamples.

Section ReadArgumentsSamples.
Import Spacecraft ReadArguments.

(** A registry whose one product has its columns in the list at
    address 0. *)
Definition one_product : store :=
  {| data := {[ "mag" := {| columns := Some 0%nat |} ]};
     lists := {[ 0%nat := [Name "Epoch" None; Name "B" None] ]} |}.

End ReadArgumentsSamples.

(** A world that is the list of the files that exist, in which every
    download and every extraction succeeds. *)
Definition listed_files : DataFiles.System (list string) :=
  {| DataFiles.now := λ _, at_hour 2030 1 1 0;
     DataFiles.restrptime := Ok;
     DataFiles.os_path_exists := λ path w, bool_decide (path ∈ w);
     DataFiles.urls_resolve := λ urls w, (w, Ok urls);
     DataFiles.download_files := λ urls data_path w,
       (map (λ url, Caching.os_path_join data_path (DataFiles.basename url)) urls ++ w,
        Ok ());
     DataFiles.gunzip := λ _ target w, (target :: w, Ok ());
     DataFiles.os_remove := λ file w, (filter (λ f, f ≠ file) w, Ok ()) |}.

Definition daily_archives : gmap string DataFiles.product :=
  {[ "mag" := {| DataFiles.urls := Some "https://host/{YYYY}/mag_{DD}.dat.gz";
                 DataFiles.versions := None;
                 DataFiles.use_regex := false |} ]}.

Section JoinSamples.
Import Numpy.

(** Three per-file results, the second of them empty. *)
Definition three_results : list (ndarray Z * ndarray Z) :=
  [ (Arr1 float64 [1; 2], Arr2 float32 2 [[10; 11]; [20; 21]]);
    (Arr1 float64 [], Arr1 float32 []);
    (Arr1 float64 [3], Arr2 float32 2 [[30; 31]]) ].

End JoinSamples.

(* ===================================================================== *)
(* ===================================================================== *)
(** * Properties *)
(* ===================================================================== *)
(* ===================================================================== *)

(** ** The error monad *)

(** Membership in a list that is written out. *)
Ltac in_list := repeat first [ apply list_elem_of_here | apply list_elem_of_further ].
Ltac not_in_list :=
  let H := fresh in
  intros H; repeat (apply elem_of_cons in H as [H|H]; [discriminate H|]);
  by apply elem_of_nil in H.

(** A case for each month of the year. *)
Ltac each_month m :=
  let Hcases := fresh "Hcases" in
  assert (m = 1 ∨ m = 2 ∨ m = 3 ∨ m = 4 ∨ m = 5 ∨ m = 6 ∨ m = 7 ∨ m = 8
          ∨ m = 9 ∨ m = 10 ∨ m = 11 ∨ m = 12) as Hcases by lia;
  destruct Hcases as [->|[->|[->|[->|[->|[->|[->|[->|[->|[->|[->| ->]]]]]]]]]]].

Lemma bind_Ok {A B} (x : A) (f : A → result B) : (Ok x ≫= f) = f x.
Proof. reflexivity. Qed.

Lemma mapM_ok {A B} (f : A → result B) (g : A → B) (l : list A) :
  (∀ x, x ∈ l → f x = Ok (g x)) → mapM f l = Ok (map g l).
Proof.
  induction l as [|x xs IH]; intros Hf; simpl; [done|].
  rewrite (Hf x) by left. simpl.
  rewrite IH; [done|]. intros y Hy. apply Hf. by right.
Qed.

Lemma mapM_raise_same {A B} (f : A → result B) (l : list A) (e : exn) :
  (∀ x, x ∈ l → f x = Raise e ∨ is_ok (f x) = true) →
  (∃ x, x ∈ l ∧ f x = Raise e) → mapM f l = Raise e.
Proof.
  induction l as [|y ys IH]; intros Hall [x [Hin Hx]].
  - by apply elem_of_nil in Hin.
  - simpl. destruct (Hall y) as [Hy|Hy]; [by left|by rewrite Hy|].
    destruct (f y) as [b|e0] eqn:E; [|done]. simpl.
    apply elem_of_cons in Hin as [->|Hin]; [congruence|].
    rewrite IH; [done| |by exists x].
    intros z Hz. apply Hall. by right.
Qed.

Lemma mapM_length {A B} (f : A → result B) (l : list A) (r : list B) :
  mapM f l = Ok r → length r = length l.
Proof.
  revert r. induction l as [|x xs IH]; intros r; simpl.
  - by intros [= <-].
  - destruct (f x) as [y|]; simpl; [|done].
    destruct (mapM f xs) as [ys|]; simpl; [|done].
    intros [= <-]. simpl. f_equal. by apply IH.
Qed.

(** ** Strings *)

Lemma str_length_app (a b : string) :
  String.length (a +:+ b) = (String.length a + String.length b)%nat.
Proof. induction a as [|c a IH]; simpl; [done|]. by rewrite IH. Qed.

Lemma str_drop_app (a b : string) : PyStr.drop (String.length a) (a +:+ b) = b.
Proof. induction a as [|c a IH]; simpl; [by destruct b|done]. Qed.

Lemma str_take_app (a b : string) : PyStr.take (String.length a) (a +:+ b) = a.
Proof. induction a as [|c a IH]; simpl; [by destruct b|]. by rewrite IH. Qed.

Lemma endswith_app (a b : string) : PyStr.endswith b (a +:+ b) = true.
Proof.
  unfold PyStr.endswith. rewrite str_length_app.
  replace (String.length a + String.length b - String.length b)%nat
    with (String.length a) by lia.
  rewrite str_drop_app.
  rewrite !bool_decide_eq_true_2; [done..|lia].
Qed.

Lemma endswith_app_other (a b c : string) :
  String.length b = String.length c → b ≠ c → PyStr.endswith c (a +:+ b) = false.
Proof.
  intros Hlen Hne. unfold PyStr.endswith. rewrite str_length_app, <- Hlen.
  replace (String.length a + String.length b - String.length b)%nat
    with (String.length a) by lia.
  rewrite str_drop_app.
  rewrite (bool_decide_eq_false_2 (b = c)); [|done].
  apply andb_false_r.
Qed.

(* ===================================================================== *)
(** ** Spacecraft construction *)
(* ===================================================================== *)

Section RegistryFacts.
Import Registry.

(** Once the registry is loaded, an unknown key is reported as "not
    implemented" and the state is left as it was. *)
Lemma Spacecraft_init_unknown_later file reg name kw st :
  spacecraft st = Some reg → reg !! name = None →
  Spacecraft_init file name kw st = (st, Raise NotImplementedError).
Proof. intros Hst Hname. unfold Spacecraft_init. by rewrite Hst, Hname. Qed.

(** On the construction that loads the registry, an unknown key escapes
    as the dictionary's own [KeyError]; the registry stays loaded. *)
Lemma Spacecraft_init_unknown_first file name kw st :
  spacecraft st = None → file !! name = None →
  Spacecraft_init file name kw st
  = ({| spacecraft := Some file; kernels_loaded := kernels_loaded st |},
     Raise KeyError).
Proof. intros Hst Hname. unfold Spacecraft_init. by rewrite Hst, Hname. Qed.

(** A known key succeeds on either path. *)
Lemma Spacecraft_init_known file name kw st sc :
  from_option id file (spacecraft st) !! name = Some sc →
  (Spacecraft_init file name kw st).2 = Ok sc.
Proof.
  unfold Spacecraft_init. destruct (spacecraft st) as [reg|]; simpl; by intros ->.
Qed.

(** C9 (the code departs from the claim). With the registry
    [{"wind": ...}] and the unknown key ["voyager"]: the first
    construction of the process raises [KeyError], not
    [NotImplementedError], and leaves the registry loaded; only a later
    construction raises [NotImplementedError]. *)
Theorem unknown_mission_first_construction_raises_KeyError :
  Spacecraft_init sample_registry "voyager" None fresh = (loaded, Raise KeyError)
  ∧ Spacecraft_init sample_registry "voyager" None loaded
    = (loaded, Raise NotImplementedError).
Proof.
  split.
  - by rewrite Spacecraft_init_unknown_first.
  - by rewrite (Spacecraft_init_unknown_later _ sample_registry).
Qed.

End RegistryFacts.

(* ===================================================================== *)
(** ** The result cache *)
(* ===================================================================== *)

Section CachingFacts.
Import Caching.
Context {obj : Type} `{Pickle obj}.
Variable cache_path : string.
(** What is pickled can be unpickled to an equal object. *)
Hypothesis pickle_round_trip : ∀ o : obj, pickle_load (pickle_dump o) = Ok o.

Lemma exists_set (k : string) (o : obj) (fs : cache_dir) :
  cache_entry_exists cache_path k (set_cache_entry cache_path k o fs) = true.
Proof.
  unfold cache_entry_exists, set_cache_entry. simpl.
  rewrite lookup_insert_eq. by apply bool_decide_eq_true_2.
Qed.

Lemma get_set (k : string) (o : obj) (fs : cache_dir) :
  get_cache_entry cache_path k (set_cache_entry cache_path k o fs) = Ok o.
Proof.
  unfold get_cache_entry. rewrite exists_set. simpl.
  rewrite lookup_insert_eq. apply pickle_round_trip.
Qed.

Lemma exists_delete (k : string) (fs : cache_dir) :
  cache_entry_exists cache_path k (delete_cache_entry cache_path k fs).1 = false.
Proof.
  unfold delete_cache_entry.
  destruct (cache_entry_exists cache_path k fs) eqn:E; simpl; [|done].
  unfold cache_entry_exists. simpl. rewrite lookup_delete_eq.
  apply bool_decide_eq_false_2. by intros [? ?].
Qed.

Lemma absent_raises (k : string) (fs : cache_dir) :
  cache_entry_exists cache_path k fs = false →
  get_cache_entry cache_path k fs = Raise KeyError
  ∧ delete_cache_entry cache_path k fs = (fs, Raise KeyError).
Proof.
  intros E. unfold get_cache_entry, delete_cache_entry. by rewrite E.
Qed.

(** A history that never writes the file of [k] leaves it absent. *)
Lemma never_set_absent (k : string) (ops : list op) (fs : cache_dir) :
  Forall (λ o, writes cache_path o ≠ Some (cache_file cache_path k)) ops →
  cache_entry_exists cache_path k fs = false →
  cache_entry_exists cache_path k (run cache_path ops fs) = false.
Proof.
  revert fs. induction ops as [|o ops IH]; intros fs Hops Hfs; [done|].
  apply Forall_cons in Hops as [Ho Hops]. simpl. apply IH; [done|].
  destruct o as [k' v|k'|k']; simpl in *; [| |done].
  - unfold cache_entry_exists, set_cache_entry in *. simpl.
    rewrite lookup_insert_ne; [done|congruence].
  - unfold delete_cache_entry.
    destruct (cache_entry_exists cache_path k' fs); simpl; [|done].
    unfold cache_entry_exists in *. simpl.
    apply bool_decide_eq_false in Hfs. apply bool_decide_eq_false_2.
    intros [x Hx]. apply Hfs. exists x.
    apply lookup_delete_Some in Hx. tauto.
Qed.


End CachingFacts.

(** Keys that do not begin with a slash have files of their own. *)
Lemma cache_file_inj (cache_path k1 k2 : string) :
  PyStr.startswith "/" k1 = false → PyStr.startswith "/" k2 = false →
  Caching.cache_file cache_path k1 = Caching.cache_file cache_path k2 → k1 = k2.
Proof.
  intros H1 H2. unfold Caching.cache_file, Caching.os_path_join.
  assert (∀ k, PyStr.startswith "/" k = false →
               PyStr.startswith "/" (k +:+ ".cache") = false) as Hs.
  { intros [|c k]; simpl; [done|]. by destruct (decide _). }
  rewrite !Hs by done.
  assert (∀ a b : string, a +:+ ".cache" = b +:+ ".cache" → a = b) as Hinj.
  { induction a as [|c a IH]; intros [|d b] E; simpl in *; try done.
    - injection E as -> E. destruct b as [|? [|? [|? [|? [|? [|? b]]]]]]; simplify_eq/=.
    - injection E as -> E. destruct a as [|? [|? [|? [|? [|? [|? a]]]]]]; simplify_eq/=.
    - injection E as -> E. f_equal. by apply IH. }
  destruct (decide (cache_path = "")); [apply Hinj|].
  destruct (PyStr.endswith "/" cache_path).
  - intros E. by apply String.app_inj, Hinj in E.
  - intros E. apply String.app_inj in E. simpl in E. injection E as E.
    by apply Hinj.
Qed.


(* ===================================================================== *)
(** ** Leap-second repair in [decode_string] *)
(* ===================================================================== *)

Section DecodeFacts.
Import Numpy Spacecraft.
Context {F : Type} {FF : Float F} {CF : Clock F} {SP : Strptime}.

(** The repaired string no longer ends in ["60.000"]. *)
Lemma repaired_not_leap (p : string) : PyStr.endswith "60.000" (p +:+ "59.000") = false.
Proof. by apply endswith_app_other. Qed.


End DecodeFacts.


(* ===================================================================== *)
(** ** URL templating *)
(* ===================================================================== *)

Lemma mapM_all_ok {A B} (f : A → result B) (l : list A) :
  (∀ x, x ∈ l → is_ok (f x) = true) → ∃ r, mapM f l = Ok r.
Proof.
  induction l as [|x xs IH]; intros Hf; simpl; [by eexists|].
  pose proof (Hf x ltac:(left)) as Hx.
  destruct (f x) as [y|]; [|done]. simpl.
  destruct IH as [ys ->]; [|by eexists].
  intros z Hz. apply Hf. by right.
Qed.

Lemma mapM_lookup {A B} (f : A → result B) (l : list A) (r : list B) (i : nat) (x : A) :
  mapM f l = Ok r → l !! i = Some x → ∃ y, r !! i = Some y ∧ f x = Ok y.
Proof.
  revert r i. induction l as [|a l IH]; intros r i; simpl; [done|].
  destruct (f a) as [b|] eqn:Ea; simpl; [|done].
  destruct (mapM f l) as [bs|] eqn:El; simpl; [|done].
  intros [= <-]. destruct i as [|i]; simpl.
  - intros [= <-]. by exists b.
  - intros Hi. by apply (IH bs i).
Qed.

Section UrlFacts.
Import Datetime Urls.
Context {SP : UtilStrptime}.

Lemma covers_inside (v : version) (day : datetime) :
  is_ok (strptime (version_start v)) = true →
  is_ok (strptime (version_end v)) = true →
  ∃ b : bool, covers v day = Ok b ∧ (b = true ↔ inside v day).
Proof.
  unfold covers, inside. intros Hs He.
  destruct (strptime (version_start v)) as [s|] eqn:Es; [|done].
  destruct (strptime (version_end v)) as [e|] eqn:Ee; [|done]. simpl.
  destruct (Datetime.le s day) eqn:Els.
  - exists (Datetime.lt day e). split; [done|]. split.
    + intros Hlt. by exists s, e.
    + intros (s' & e' & [= <-] & [= <-] & _ & Hlt). done.
  - exists false. split; [done|]. split; [done|].
    intros (s' & e' & [= <-] & _ & Hle & _). congruence.
Qed.

Lemma find_version_spec (vs : list version) (day : datetime) :
  bounds_parse vs →
  (∃ v, find_version vs day = Ok (Some v) ∧ selected vs day v)
  ∨ (find_version vs day = Ok None ∧ ∀ v, v ∈ vs → ¬ inside v day).
Proof.
  induction vs as [|v vs IH]; intros Hp; simpl.
  - right. split; [done|]. intros v Hv. by apply elem_of_nil in Hv.
  - destruct (Hp v ltac:(left)) as [Hs He].
    destruct (covers_inside v day Hs He) as (b & -> & Hb). simpl.
    destruct b.
    + left. exists v. split; [done|]. exists [], vs. split_and!; [done|by apply Hb|].
      intros u Hu. by apply elem_of_nil in Hu.
    + assert (¬ inside v day) as Hv by (intros Hi; by apply Hb in Hi).
      destruct IH as [(u & -> & pre & post & -> & Hu & Hpre)|[-> Hnone]].
      { intros w Hw. apply Hp. by right. }
      * left. exists u. split; [done|]. exists (v :: pre), post.
        split_and!; [done..|].
        intros w [->|Hw]%elem_of_cons; [done|by apply Hpre].
      * right. split; [done|].
        intros w [->|Hw]%elem_of_cons; [done|by apply Hnone].
Qed.

Lemma selected_unique (vs : list version) (day : datetime) (v1 v2 : version) :
  selected vs day v1 → selected vs day v2 → v1 = v2.
Proof.
  intros (pre1 & post1 & E1 & Hv1 & Hpre1) (pre2 & post2 & E2 & Hv2 & Hpre2).
  subst vs. revert pre2 E2 Hpre2.
  induction pre1 as [|a pre1 IH]; intros [|b pre2] E2 Hpre2; simpl in E2.
  - by injection E2.
  - injection E2 as -> _. exfalso. apply (Hpre2 b); [by left|done].
  - injection E2 as -> _. exfalso. apply (Hpre1 v2); [by left|done].
  - injection E2 as _ E2. apply (IH ltac:(intros u Hu; apply Hpre1; by right) pre2); [done|].
    intros u Hu. apply Hpre2. by right.
Qed.

Lemma url_of_day_versions (fmt : string) (vs : list version) (day : datetime)
    (base : string) :
  vs ≠ [] → bounds_parse vs → expand_day fmt day = Ok base →
  (∃ v, selected vs day v
        ∧ url_of_day fmt (Some vs) day = Ok (substitute (identifiers v) base))
  ∨ ((∀ v, v ∈ vs → ¬ inside v day)
     ∧ url_of_day fmt (Some vs) day = Raise RuntimeError).
Proof.
  intros Hne Hp Hbase. unfold url_of_day. rewrite Hbase. simpl.
  destruct vs as [|v0 vs0]; [done|].
  destruct (find_version_spec (v0 :: vs0) day Hp) as [(v & E & Hsel)|[E Hnone]];
    rewrite E; simpl.
  - left. by exists v.
  - by right.
Qed.

Lemma urls_build_covered (fmt : string) (range_start range_end : datetime)
    (vs : list version) :
  vs ≠ [] → bounds_parse vs →
  (∀ day, day ∈ days range_start range_end → is_ok (expand_day fmt day) = true) →
  (∀ day, day ∈ days range_start range_end → ∃ v, selected vs day v) →
  ∃ urls, urls_build fmt range_start range_end (Some vs) = Ok urls
    ∧ length urls = length (days range_start range_end)
    ∧ ∀ i day v base,
        days range_start range_end !! i = Some day →
        selected vs day v → expand_day fmt day = Ok base →
        urls !! i = Some (substitute (identifiers v) base).
Proof.
  intros Hne Hp Hexp Hcov. unfold urls_build.
  destruct (mapM_all_ok (url_of_day fmt (Some vs)) (days range_start range_end))
    as [urls Hurls].
  { intros day Hday. pose proof (Hexp day Hday) as Hd.
    destruct (expand_day fmt day) as [base|] eqn:Eb; [|done].
    destruct (url_of_day_versions fmt vs day base Hne Hp Eb)
      as [(v & _ & ->)|[Hnone _]]; [done|].
    destruct (Hcov day Hday) as [v Hv].
    destruct Hv as (pre & post & -> & Hin & _).
    exfalso. apply (Hnone v); [|done]. apply elem_of_app. right. by left. }
  exists urls. split_and!; [done|by eapply mapM_length|].
  intros i day v base Hi Hsel Hbase.
  destruct (mapM_lookup _ _ _ _ _ Hurls Hi) as (u & Hu & Eu).
  destruct (url_of_day_versions fmt vs day base Hne Hp Hbase)
    as [(v' & Hsel' & E')|[Hnone _]].
  - rewrite (selected_unique _ _ _ _ Hsel Hsel'). congruence.
  - destruct Hsel as (pre & post & -> & Hin & _).
    exfalso. apply (Hnone v); [|done]. apply elem_of_app. right. by left.
Qed.

Lemma urls_build_uncovered (fmt : string) (range_start range_end : datetime)
    (vs : list version) :
  vs ≠ [] → bounds_parse vs →
  (∀ day, day ∈ days range_start range_end → is_ok (expand_day fmt day) = true) →
  (∃ day, day ∈ days range_start range_end ∧ ∀ v, v ∈ vs → ¬ inside v day) →
  urls_build fmt range_start range_end (Some vs) = Raise RuntimeError.
Proof.
  intros Hne Hp Hexp (day & Hday & Hnone). unfold urls_build.
  apply mapM_raise_same.
  - intros d Hd. pose proof (Hexp d Hd) as He.
    destruct (expand_day fmt d) as [base|] eqn:Eb; [|done].
    destruct (url_of_day_versions fmt vs d base Hne Hp Eb)
      as [(v & _ & ->)|[_ ->]]; [by right|by left].
  - exists day. split; [done|].
    pose proof (Hexp day Hday) as He.
    destruct (expand_day fmt day) as [base|] eqn:Eb; [|done].
    destruct (url_of_day_versions fmt vs day base Hne Hp Eb)
      as [(v & Hsel & _)|[_ ->]]; [|done].
    destruct Hsel as (pre & post & -> & Hin & _).
    exfalso. apply (Hnone v); [|done]. apply elem_of_app. right. by left.
Qed.

End UrlFacts.

Section CalendarFacts.
Import Datetime.

Lemma all_below_spec (fuel : nat) (n : Z) (p : Z → bool) :
  all_below fuel n p = true → ∀ k, n ≤ k < n + Z.of_nat fuel → p k = true.
Proof.
  revert n. induction fuel as [|fuel IH]; intros n Hall k Hk; [lia|].
  simpl in Hall. apply andb_true_iff in Hall as [Hn Hall].
  destruct (Z.eq_dec k n) as [->|Hne]; [exact Hn|].
  apply (IH (n + 1) Hall). lia.
Qed.

(** Every day of a common year and of a leap year, checked one by one. *)
Lemma month_day_common (n : Z) : 0 ≤ n < 365 → month_day_ok false n = true.
Proof.
  intros Hn. apply (all_below_spec 365 0); [vm_compute; reflexivity|lia].
Qed.

Lemma month_day_leap (n : Z) : 0 ≤ n < 366 → month_day_ok true n = true.
Proof.
  intros Hn. apply (all_below_spec 366 0); [vm_compute; reflexivity|lia].
Qed.

(** The days before year [400 q + 100 a + 4 b + c + 1]. *)
Lemma year_days (q a b c : Z) :
  0 ≤ a ≤ 3 → 0 ≤ b ≤ 24 → 0 ≤ c ≤ 3 →
  days_before_year (q * 400 + 1 + a * 100 + b * 4 + c)
  = 146097 * q + 36524 * a + 1461 * b + 365 * c.
Proof.
  intros Ha Hb Hc. unfold days_before_year. cbv zeta.
  replace (q * 400 + 1 + a * 100 + b * 4 + c - 1)
    with (q * 400 + a * 100 + b * 4 + c) by ring.
  rewrite <- (Z.div_unique (q * 400 + a * 100 + b * 4 + c) 4
                (q * 100 + a * 25 + b) c) by lia.
  rewrite <- (Z.div_unique (q * 400 + a * 100 + b * 4 + c) 100
                (q * 4 + a) (b * 4 + c)) by lia.
  rewrite <- (Z.div_unique (q * 400 + a * 100 + b * 4 + c) 400
                q (a * 100 + b * 4 + c)) by lia.
  lia.
Qed.

(** That year is a leap year as [ord2ymd] decides it. *)
Lemma year_leap (q a b c : Z) :
  0 ≤ a ≤ 3 → 0 ≤ b ≤ 24 → 0 ≤ c ≤ 3 →
  is_leap (q * 400 + 1 + a * 100 + b * 4 + c)
  = (c =? 3) && (negb (b =? 24) || (a =? 3)).
Proof.
  intros Ha Hb Hc. unfold is_leap.
  assert ((q * 400 + 1 + a * 100 + b * 4 + c) mod 4 = (1 + c) mod 4) as ->.
  { replace (q * 400 + 1 + a * 100 + b * 4 + c)
      with (1 + c + (q * 100 + a * 25 + b) * 4) by ring.
    apply Z_mod_plus_full. }
  assert ((q * 400 + 1 + a * 100 + b * 4 + c) mod 100
          = (1 + b * 4 + c) mod 100) as ->.
  { replace (q * 400 + 1 + a * 100 + b * 4 + c)
      with (1 + b * 4 + c + (q * 4 + a) * 100) by ring.
    apply Z_mod_plus_full. }
  assert ((q * 400 + 1 + a * 100 + b * 4 + c) mod 400
          = (1 + a * 100 + b * 4 + c) mod 400) as ->.
  { replace (q * 400 + 1 + a * 100 + b * 4 + c)
      with (1 + a * 100 + b * 4 + c + q * 400) by ring.
    apply Z_mod_plus_full. }
  destruct (Z.eqb_spec c 3) as [->|Hc3].
  - replace ((1 + 3) mod 4) with 0 by reflexivity.
    change (0 =? 0) with true. cbn [andb].
    destruct (Z.eqb_spec b 24) as [->|Hb24].
    + replace ((1 + 24 * 4 + 3) mod 100) with 0 by reflexivity.
      change (0 =? 0) with true. cbn [negb orb].
      destruct (Z.eqb_spec a 3) as [->|Ha3]; [reflexivity|].
      rewrite Z.mod_small by lia. apply Z.eqb_neq. lia.
    + rewrite (Z.mod_small (1 + b * 4 + 3)) by lia.
      assert (1 + b * 4 + 3 ≠ 0) as Hnz by lia.
      apply Z.eqb_neq in Hnz. rewrite Hnz. reflexivity.
  - rewrite (Z.mod_small (1 + c)) by lia.
    assert (1 + c ≠ 0) as Hnz by lia.
    apply Z.eqb_neq in Hnz. rewrite Hnz. reflexivity.
Qed.

Lemma ord2ymd_month_day (n : Z) :
  let n0 := n - 1 in
  let n400 := n0 / DI400Y in let r400 := n0 mod DI400Y in
  let n100 := r400 / DI100Y in let r100 := r400 mod DI100Y in
  let n4 := r100 / DI4Y in let r4 := r100 mod DI4Y in
  let n1 := r4 / 365 in let r1 := r4 mod 365 in
  let y := n400 * 400 + 1 + n100 * 100 + n4 * 4 + n1 in
  ord2ymd n =
  if (n1 =? 4) || (n100 =? 4) then (y - 1, 12, 31)
  else let '(m, d) :=
         month_day r1 ((n1 =? 3) && (negb (n4 =? 24) || (n100 =? 3))) in
       (y, m, d).
Proof.
  cbv zeta. unfold ord2ymd, month_day. cbv zeta.
  destruct (_ || _); [reflexivity|].
  destruct (_ <? _); reflexivity.
Qed.

(** [date.fromordinal] is a right inverse of [date.toordinal], for
    every integer. *)
Lemma ymd2ord_ord2ymd (n : Z) :
  let '(y, m, d) := ord2ymd n in ymd2ord y m d = n.
Proof.
  rewrite ord2ymd_month_day. cbv zeta.
  set (n0 := n - 1).
  set (q := n0 / DI400Y). set (r400 := n0 mod DI400Y).
  set (a := r400 / DI100Y). set (r100 := r400 mod DI100Y).
  set (b := r100 / DI4Y). set (r4 := r100 mod DI4Y).
  set (c := r4 / 365). set (r1 := r4 mod 365).
  assert (n0 = 146097 * q + r400 ∧ 0 ≤ r400 < 146097) as [E400 B400].
  { unfold q, r400, DI400Y.
    split; [apply Z.div_mod; lia|apply Z.mod_pos_bound; lia]. }
  assert (r400 = 36524 * a + r100 ∧ 0 ≤ r100 < 36524) as [E100 B100].
  { unfold a, r100, DI100Y.
    split; [apply Z.div_mod; lia|apply Z.mod_pos_bound; lia]. }
  assert (r100 = 1461 * b + r4 ∧ 0 ≤ r4 < 1461) as [E4 B4].
  { unfold b, r4, DI4Y.
    split; [apply Z.div_mod; lia|apply Z.mod_pos_bound; lia]. }
  assert (r4 = 365 * c + r1 ∧ 0 ≤ r1 < 365) as [E1 B1].
  { unfold c, r1. split; [apply Z.div_mod; lia|apply Z.mod_pos_bound; lia]. }
  clearbody q r400 a r100 b r4 c r1.
  assert (0 ≤ a ≤ 4) as Ba by lia.
  assert (0 ≤ b ≤ 24) as Bb by lia.
  assert (0 ≤ c ≤ 4) as Bc by lia.
  assert (n = n0 + 1) as En by (unfold n0; lia). clearbody n0.
  destruct (Z.eqb_spec c 4) as [->|Hc4]; cbn [orb].
  - (* the last day of a four-year cycle *)
    assert (r1 = 0 ∧ a ≤ 3 ∧ b ≠ 24) as (-> & Ha3 & Hb24) by lia.
    unfold ymd2ord.
    replace (q * 400 + 1 + a * 100 + b * 4 + 4 - 1)
      with (q * 400 + 1 + a * 100 + b * 4 + 3) by ring.
    rewrite year_days by lia.
    unfold days_before_month. rewrite year_leap by lia.
    apply Z.eqb_neq in Hb24. rewrite Hb24.
    change (DAYS_BEFORE_MONTH 12
            + (if (2 <? 12) && ((3 =? 3) && (negb false || (a =? 3)))
               then 1 else 0)) with 335.
    lia.
  - destruct (Z.eqb_spec a 4) as [->|Ha4].
    + (* the last day of a four-hundred-year cycle *)
      assert (r100 = 0 ∧ b = 0 ∧ r4 = 0 ∧ c = 0 ∧ r1 = 0)
        as (-> & -> & -> & -> & ->) by lia.
      unfold ymd2ord.
      replace (q * 400 + 1 + 4 * 100 + 0 * 4 + 0 - 1)
        with (q * 400 + 1 + 3 * 100 + 24 * 4 + 3) by ring.
      rewrite year_days by lia.
      unfold days_before_month. rewrite year_leap by lia.
      change (DAYS_BEFORE_MONTH 12
              + (if (2 <? 12) && ((3 =? 3) && (negb (24 =? 24) || (3 =? 3)))
                 then 1 else 0)) with 335.
      lia.
    + assert (a ≤ 3 ∧ c ≤ 3) as [Ha3 Hc3] by lia.
      set (leap := (c =? 3) && (negb (b =? 24) || (a =? 3))).
      assert (month_day_ok leap r1 = true) as Hok.
      { destruct leap eqn:El; [apply month_day_leap|apply month_day_common]; lia. }
      unfold month_day_ok in Hok.
      destruct (month_day r1 leap) as [m d].
      apply andb_true_iff in Hok as [Hok Hsum].
      apply Z.eqb_eq in Hsum.
      unfold ymd2ord. rewrite year_days by lia.
      unfold days_before_month. rewrite year_leap by lia. fold leap. lia.
Qed.

(** Adding whole days moves the ordinal by as many and keeps the time
    of day. *)
Lemma toordinal_add_days (d : datetime) (i : Z) :
  toordinal (add_days d i) = toordinal d + i.
Proof.
  unfold add_days. pose proof (ymd2ord_ord2ymd (toordinal d + i)) as Hinv.
  destruct (ord2ymd (toordinal d + i)) as [[y m] dd]. exact Hinv.
Qed.

Lemma time_of_day_add_days (d : datetime) (i : Z) :
  time_of_day (add_days d i) = time_of_day d.
Proof.
  unfold add_days. by destruct (ord2ymd (toordinal d + i)) as [[y m] dd].
Qed.

End CalendarFacts.

Section UrlExamples.
Import Datetime Urls.



(** Without versions, [urls_build] expands the template once for each
    day of [days]. *)
Lemma urls_build_plain `{UtilStrptime} (fmt : string) (range_start range_end : datetime) :
  urls_build fmt range_start range_end None
  = mapM (expand_day fmt) (days range_start range_end).
Proof.
  unfold urls_build. induction (days range_start range_end) as [|d ds IH]; simpl; [done|].
  rewrite IH. unfold url_of_day. by destruct (expand_day fmt d).
Qed.

(** The number of days built is the whole number of 24-hour steps from
    [range_start] to [range_end], plus one. *)
Lemma days_length (range_start range_end : datetime) :
  length (days range_start range_end)
  = Z.to_nat (sub_days range_end range_start + 1).
Proof. unfold days. by rewrite length_map, length_seq. Qed.

(** When the end falls earlier in its day than the start in its own,
    the steps are one fewer than the dates from the first to the last. *)
Lemma sub_days_short (a b : datetime) :
  0 ≤ time_of_day a < MICROS_PER_DAY → 0 ≤ time_of_day b < MICROS_PER_DAY →
  time_of_day a < time_of_day b →
  sub_days a b = toordinal a - toordinal b - 1.
Proof.
  intros Ha Hb Hlt. unfold sub_days, MICROS_PER_DAY in *.
  symmetry. apply (Z.div_unique _ _ _ (86400000000 + time_of_day a - time_of_day b)); lia.
Qed.

Lemma sub_days_full (a b : datetime) :
  0 ≤ time_of_day a < MICROS_PER_DAY → 0 ≤ time_of_day b < MICROS_PER_DAY →
  time_of_day b ≤ time_of_day a →
  sub_days a b = toordinal a - toordinal b.
Proof.
  intros Ha Hb Hlt. unfold sub_days, MICROS_PER_DAY in *.
  symmetry. apply (Z.div_unique _ _ _ (time_of_day a - time_of_day b)); lia.
Qed.

(** The dates of the days built are consecutive, from the date of
    [range_start] on. *)
Lemma days_ordinals (range_start range_end : datetime) :
  map toordinal (days range_start range_end)
  = map (λ i : nat, toordinal range_start + Z.of_nat i)
        (seq 0 (Z.to_nat (sub_days range_end range_start + 1))).
Proof.
  unfold days. rewrite map_map. apply map_ext. intros i.
  apply toordinal_add_days.
Qed.

(** When the end is not earlier in its day than the start in its own,
    every date from the first to the last has its day, and no other
    date has one: here the code does what C5 says. *)
Lemma days_reach_last (range_start range_end : datetime) (n : Z) :
  clock_time range_start → clock_time range_end →
  time_of_day range_start ≤ time_of_day range_end →
  n ∈ map toordinal (days range_start range_end)
  ↔ toordinal range_start ≤ n ≤ toordinal range_end.
Proof.
  intros Hs He Hle. rewrite days_ordinals, (sub_days_full _ _ He Hs Hle).
  rewrite list_elem_of_In, in_map_iff. split.
  - intros (i & <- & Hi). apply in_seq in Hi. lia.
  - intros Hn. exists (Z.to_nat (n - toordinal range_start)). split; [lia|].
    apply in_seq. lia.
Qed.

(** When the end is earlier in its day than the start in its own, the
    date of [range_end] has no day: the departure from C5, for every
    such range. *)
Lemma days_miss_last (range_start range_end : datetime) (n : Z) :
  clock_time range_start → clock_time range_end →
  time_of_day range_end < time_of_day range_start →
  n ∈ map toordinal (days range_start range_end)
  ↔ toordinal range_start ≤ n < toordinal range_end.
Proof.
  intros Hs He Hlt. rewrite days_ordinals, (sub_days_short _ _ He Hs Hlt).
  rewrite list_elem_of_In, in_map_iff. split.
  - intros (i & <- & Hi). apply in_seq in Hi. lia.
  - intros Hn. exists (Z.to_nat (n - toordinal range_start)). split; [lia|].
    apply in_seq. lia.
Qed.

(** C5 (the code departs from the claim). The range from 2023-03-05
    23:00 to 2023-03-06 01:00 touches two calendar days, yet one URL is
    built, for the first of them; midnight bounds give both. The
    expansion of the template for 2023-03-05 is the one the claim names. *)
Theorem urls_build_misses_last_day :
  urls_build (H := iso_strptime) "{YYYY}/{MM}/{DD}_{DOY}_{MONTH}.dat"
    (at_hour 2023 3 5 23) (at_hour 2023 3 6 1) None
  = Ok ["2023/03/05_064_MAR.dat"]
  ∧ urls_build (H := iso_strptime) "{YYYY}/{MM}/{DD}_{DOY}_{MONTH}.dat"
      (at_hour 2023 3 5 0) (at_hour 2023 3 6 0) None
    = Ok ["2023/03/05_064_MAR.dat"; "2023/03/06_065_MAR.dat"].
Proof. split; by vm_compute. Qed.

End UrlExamples.

(* ===================================================================== *)
(** ** Arrays: masks, slices and selections *)
(* ===================================================================== *)

Section MaskFacts.
Import Numpy.
Context {B : Type} (p : B → bool).

Lemma where_from_app (k : nat) (l1 l2 : list B) :
  where_from p k (l1 ++ l2)
  = where_from p k l1 ++ where_from p (k + length l1) l2.
Proof.
  revert k. induction l1 as [|x l1 IH]; intros k; simpl.
  - by rewrite Nat.add_0_r.
  - rewrite IH. replace (S k + length l1)%nat with (k + S (length l1))%nat by lia.
    by destruct (p x).
Qed.

Lemma where_from_none (k : nat) (l : list B) :
  Forall (λ x, p x = false) l → where_from p k l = [].
Proof.
  revert k. induction l as [|x l IH]; intros k Hl; simpl; [done|].
  apply Forall_cons in Hl as [-> Hl]. by apply IH.
Qed.

Lemma where_from_nil (k : nat) (l : list B) :
  where_from p k l = [] → Forall (λ x, p x = false) l.
Proof.
  revert k. induction l as [|x l IH]; intros k; simpl; [by constructor|].
  destruct (p x) eqn:E; [done|]. intros Hl. constructor; [done|by eapply IH].
Qed.

(** A list either has no element satisfying [p], or splits at the first
    one. *)
Lemma first_split (l : list B) :
  Forall (λ x, p x = false) l
  ∨ ∃ pre x post, l = pre ++ x :: post ∧ Forall (λ x, p x = false) pre ∧ p x = true.
Proof.
  induction l as [|a l IH]; [by left|].
  destruct (p a) eqn:E.
  - right. exists [], a, l. by split_and!.
  - destruct IH as [Hl|(pre & x & post & -> & Hpre & Hx)].
    + left. by constructor.
    + right. exists (a :: pre), x, post. split_and!; [done| |done]. by constructor.
Qed.

(** ... or at the last one. *)
Lemma last_split (l : list B) :
  Forall (λ x, p x = false) l
  ∨ ∃ pre y post, l = pre ++ y :: post ∧ Forall (λ x, p x = false) post ∧ p y = true.
Proof.
  induction l as [|a l IH] using rev_ind; [by left|].
  destruct (p a) eqn:E.
  - right. exists l, a, []. by split_and!.
  - destruct IH as [Hl|(pre & y & post & -> & Hpost & Hy)].
    + left. apply Forall_app. split; [done|]. by constructor.
    + right. exists pre, y, (post ++ [a]). split_and!; [by rewrite <- app_assoc| |done].
      apply Forall_app. split; [done|]. by constructor.
Qed.

(** The mask of [read_file] and the slice it cuts out. *)
Lemma where_block (l : list B) :
  (where_ p l = [] ∧ Forall (λ x, p x = false) l)
  ∨ ∃ pre mid post lo rest,
      block_of p l pre mid post
      ∧ where_ p l = lo :: rest
      ∧ lo = length pre
      ∧ S (List.last (lo :: rest) lo) = (length pre + length mid)%nat
      ∧ slice lo (S (List.last (lo :: rest) lo)) l = mid.
Proof.
  destruct (first_split l) as [Hl|(pre & x & post1 & -> & Hpre & Hx)].
  { left. split; [by apply where_from_none|done]. }
  right.
  assert (where_ p (pre ++ x :: post1)
          = length pre :: where_from p (S (length pre)) post1) as Hw.
  { unfold where_. rewrite where_from_app, (where_from_none _ pre Hpre). simpl.
    by rewrite Hx. }
  destruct (last_split post1) as [Hpost|(m & y & post & -> & Hpost & Hy)].
  - exists pre, [x], post1, (length pre), [].
    rewrite Hw, (where_from_none _ post1 Hpost). split_and!; try done.
    + split; try done; simpl; eauto.
    + simpl. lia.
    + unfold slice. simpl. rewrite drop_app_length.
      replace (S (length pre) - length pre)%nat with 1%nat by lia. done.
  - exists pre, (x :: m ++ [y]), post, (length pre),
      (where_from p (S (length pre)) m ++ [(S (length pre) + length m)%nat]).
    assert (where_from p (S (length pre)) (m ++ y :: post)
            = where_from p (S (length pre)) m ++ [(S (length pre) + length m)%nat])
      as Hw2.
    { rewrite where_from_app. simpl. rewrite Hy.
      by rewrite (where_from_none _ post Hpost). }
    rewrite Hw, Hw2.
    assert (List.last (length pre :: where_from p (S (length pre)) m
                         ++ [(S (length pre) + length m)%nat]) (length pre)
            = (S (length pre) + length m)%nat) as Hlast.
    { rewrite app_comm_cons. apply last_last. }
    rewrite Hlast. split_and!; try done.
    + split; try done.
      * simpl. by rewrite <- !app_assoc.
      * simpl. eauto.
      * exists y. split; [|done]. rewrite app_comm_cons. apply last_snoc.
    + simpl. rewrite length_app. simpl. lia.
    + unfold slice. rewrite drop_app_length.
      replace (S (S (length pre) + length m) - length pre)%nat
        with (length (x :: m ++ [y])) by (simpl; rewrite length_app; simpl; lia).
      replace (x :: m ++ y :: post) with ((x :: m ++ [y]) ++ post)
        by (simpl; by rewrite <- app_assoc).
      apply take_app_length.
Qed.

(** The block holds every element that satisfies [p]. *)
Lemma block_filter (l pre mid post : list B) :
  block_of p l pre mid post →
  filter (λ x, p x = true) l = filter (λ x, p x = true) mid.
Proof.
  intros [-> Hpre Hpost _ _]. rewrite !filter_app.
  assert (∀ k : list B, Forall (λ x, p x = false) k →
                         filter (λ x, p x = true) k = []) as Hnone.
  { induction k as [|a k IH]; intros Hk; [done|].
    apply Forall_cons in Hk as [Ha Hk]. rewrite filter_cons.
    destruct (decide (p a = true)); [congruence|by apply IH]. }
  rewrite (Hnone pre Hpre), (Hnone post Hpost). simpl. by rewrite app_nil_r.
Qed.

Lemma block_contiguous (l pre mid post : list B) :
  block_of p l pre mid post → contiguous p l → Forall (λ x, p x = true) mid.
Proof.
  intros [-> Hpre Hpost (x & Hx & Hpx) (z & Hz & Hpz)] Hc.
  apply Forall_lookup. intros j y Hj.
  apply (Hc (length pre) (length pre + j)%nat
            (length pre + pred (length mid))%nat x y z).
  - apply lookup_lt_Some in Hj. lia.
  - rewrite lookup_app_r by lia. rewrite Nat.sub_diag.
    rewrite lookup_app_l; [by rewrite <- head_lookup|].
    destruct mid; [done|simpl; lia].
  - rewrite lookup_app_r by lia.
    replace (length pre + j - length pre)%nat with j by lia.
    apply lookup_app_l_Some. done.
  - rewrite lookup_app_r by lia.
    replace (length pre + pred (length mid) - length pre)%nat
      with (pred (length mid)) by lia.
    apply lookup_app_l_Some. by rewrite <- last_lookup.
  - done.
  - done.
Qed.

Lemma filter_all (l : list B) :
  Forall (λ x, p x = true) l → filter (λ x, p x = true) l = l.
Proof.
  induction l as [|a l IH]; intros Hl; [done|].
  apply Forall_cons in Hl as [Ha Hl]. rewrite filter_cons.
  destruct (decide (p a = true)); [|done]. by rewrite IH.
Qed.

End MaskFacts.

Section SelectFacts.
Import Numpy.
Context {C D : Type} (q : C → bool).

Lemma pick_where_from (pre : list D) (col : list C) (l : list D) :
  length col = length l →
  mapM (λ i, match (pre ++ l) !! i with Some x => Ok x | None => Raise IndexError end)
       (where_from q (length pre) col)
  = Ok (keep q col l).
Proof.
  revert pre l. induction col as [|c col IH]; intros pre [|x l] Hlen; try done.
  simpl in Hlen. injection Hlen as Hlen.
  specialize (IH (pre ++ [x]) l Hlen).
  rewrite <- app_assoc, length_app in IH. simpl in IH.
  replace (length pre + 1)%nat with (S (length pre)) in IH by lia.
  unfold keep. simpl. rewrite filter_cons. simpl.
  destruct (q c) eqn:Ec; simpl.
  - rewrite lookup_app_r by lia. rewrite Nat.sub_diag. simpl.
    destruct (decide (true = true)); [|done]. simpl.
    by rewrite IH.
  - destruct (decide (false = true)); [done|]. apply IH.
Qed.

Lemma pick_where (col : list C) (l : list D) :
  length col = length l →
  mapM (λ i, match l !! i with Some x => Ok x | None => Raise IndexError end)
       (where_ q col)
  = Ok (keep q col l).
Proof. intros Hlen. by apply (pick_where_from [] col l). Qed.

Lemma keep_all (col : list C) (l : list D) :
  length col = length l → Forall (λ c, q c = true) col → keep q col l = l.
Proof.
  revert l. induction col as [|c col IH]; intros [|x l] Hlen Hall; try done.
  apply Forall_cons in Hall as [Hc Hall]. unfold keep. simpl.
  rewrite filter_cons. simpl. destruct (decide (q c = true)); [|done].
  simpl. f_equal. apply IH; [by injection Hlen|done].
Qed.

End SelectFacts.

Section TableFacts.
Import Numpy Spacecraft.
Context {F : Type}.

Lemma slice_zip_with (lo hi : nat) (a b : list (list F)) :
  slice lo hi (zip_with app a b) = zip_with app (slice lo hi a) (slice lo hi b).
Proof. unfold slice. by rewrite zip_with_drop, zip_with_take. Qed.

Lemma length_slice {B} (lo hi : nat) (l : list B) :
  length (slice lo hi l) = Nat.min (hi - lo) (length l - lo).
Proof. unfold slice. by rewrite length_take, length_drop. Qed.

Lemma join_tables_is_table (n : nat) (dt : dtype) (c : nat) (rows : list (list F))
    (data : list (ndarray F)) :
  is_table n (Arr2 dt c rows) → Forall (is_table n) data →
  is_table n (join_tables dt c rows data).
Proof.
  revert dt c rows. induction data as [|d data IH]; intros dt c rows Hacc Hdata; [done|].
  apply Forall_cons in Hdata as [Hd Hdata].
  destruct d as [| |dt2 c2 rows2]; [done..|]. simpl.
  apply IH; [|done]. destruct Hacc as [Hn Hw], Hd as [Hn2 Hw2]. split.
  - rewrite length_zip_with. lia.
  - apply Forall_lookup. intros i r Hi.
    apply lookup_zip_with_Some in Hi as (r1 & r2 & -> & H1 & H2).
    rewrite length_app.
    rewrite Forall_lookup in Hw. rewrite Forall_lookup in Hw2.
    by rewrite (Hw i r1 H1), (Hw2 i r2 H2).
Qed.

Lemma stack_parts_tables (n lo hi : nat) (dt : dtype) (c : nat)
    (rows : list (list F)) (data : list (ndarray F)) :
  length rows = n → Forall (is_table n) data →
  stack_parts lo hi (Arr2 dt c (slice lo hi rows)) data
  = slice_rows lo hi (join_tables dt c rows data).
Proof.
  revert dt c rows. induction data as [|d data IH]; intros dt c rows Hn Hdata; [done|].
  apply Forall_cons in Hdata as [Hd Hdata].
  destruct d as [| |dt2 c2 rows2]; [done..|]. destruct Hd as [Hn2 _]. simpl.
  destruct (decide _) as [_|Hne].
  - simpl. rewrite <- slice_zip_with. apply IH; [|done].
    rewrite length_zip_with. lia.
  - exfalso. apply Hne. rewrite !length_slice. lia.
Qed.

(** [data_part] is the slice of the joined table. *)
Lemma data_block_tables (n lo hi : nat) (data : list (ndarray F)) :
  data ≠ [] → Forall (is_table n) data →
  data_block lo hi data = slice_rows lo hi (joined data).
Proof.
  intros Hne Hdata. destruct data as [|d data]; [done|].
  apply Forall_cons in Hdata as [Hd Hdata].
  destruct d as [| |dt c rows]; [done..|]. destruct Hd as [Hn _]. simpl.
  by apply (stack_parts_tables n).
Qed.

Lemma joined_is_table (n : nat) (data : list (ndarray F)) :
  data ≠ [] → Forall (is_table n) data → is_table n (joined data).
Proof.
  intros Hne Hdata. destruct data as [|d data]; [done|].
  apply Forall_cons in Hdata as [Hd Hdata].
  destruct d as [| |dt c rows]; [done..|]. simpl.
  by apply join_tables_is_table.
Qed.

(** [np.squeeze] leaves alone what has no axis of length one. *)
Lemma squeeze_table (dt : dtype) (c : nat) (rows : list (list F)) :
  length rows ≠ 1%nat → c ≠ 1%nat → squeeze (Arr2 dt c rows) = Arr2 dt c rows.
Proof.
  intros Hr Hc. simpl. destruct rows as [|r [|r' rows]]; [|done|].
  - by destruct c as [|[|c]].
  - destruct r as [|x [|x' r]]; by destruct c as [|[|c]].
Qed.

Lemma squeeze_line (dt : dtype) (xs : list F) :
  length xs ≠ 1%nat → squeeze (Arr1 dt xs) = Arr1 dt xs.
Proof. intros Hl. by destruct xs as [|x [|x' xs]]. Qed.

(** The first channel of a table with at least one column. *)
Lemma column0_table (dt : dtype) (c : nat) (rows : list (list F)) (d : F) :
  (0 < c)%nat → Forall (λ r, length r = c) rows →
  column0 (Arr2 dt c rows) = Ok (map (λ r, List.hd d r) rows).
Proof.
  intros Hc Hw. simpl. destruct c as [|c]; [lia|].
  apply mapM_ok. intros r Hr. rewrite Forall_forall in Hw.
  specialize (Hw r Hr). by destruct r.
Qed.

End TableFacts.

(* ===================================================================== *)
(** ** [read_file]: the rows returned *)
(* ===================================================================== *)

Section ReadFileFacts.
Import Numpy Spacecraft.
Context {F : Type} {FF : Float F} {CF : Clock F} {SP : Strptime}.

Lemma column0_where (dt : dtype) (c : nat) (rows : list (list F)) (v0 v1 : F) :
  (0 < c)%nat → Forall (λ r, length r = c) rows →
  ∃ col, column0 (Arr2 dt c rows) = Ok col
         ∧ length col = length rows
         ∧ where_ (in_window v0 v1) col = where_ (first_in v0 v1) rows.
Proof.
  intros Hc Hw. destruct c as [|c]; [lia|]. simpl. clear Hc.
  unfold where_. generalize 0%nat.
  induction rows as [|r rows IH]; intros k; simpl.
  - by exists [].
  - apply Forall_cons in Hw as [Hr Hw]. destruct r as [|x r]; [done|]. simpl.
    destruct (IH Hw (S k)) as (col & Hcol & Hlen & Hwhere).
    specialize (IH Hw k) as (col' & Hcol' & _ & _).
    assert (col' = col) as -> by congruence.
    rewrite Hcol. simpl. exists (x :: col). split_and!; [done|simpl; by f_equal|].
    simpl. rewrite Hwhere. done.
Qed.

Lemma select_line (idx : list nat) (dt : dtype) (xs ys : list F) :
  mapM (λ i, match xs !! i with Some x => Ok x | None => Raise IndexError end) idx
  = Ok ys →
  select idx (Arr1 dt xs) = Ok (Arr1 dt ys).
Proof. intros E. unfold select. by rewrite E. Qed.

Lemma select_table (idx : list nat) (dt : dtype) (c : nat) (rows rs : list (list F)) :
  mapM (λ i, match rows !! i with Some x => Ok x | None => Raise IndexError end) idx
  = Ok rs →
  select idx (Arr2 dt c rows) = Ok (Arr2 dt c rs).
Proof. intros E. unfold select. by rewrite E. Qed.

Lemma keep_self {B} (q : B → bool) (l : list B) :
  keep q l l = filter (λ x, q x = true) l.
Proof.
  unfold keep. induction l as [|x l IH]; [done|]. simpl.
  rewrite !filter_cons. simpl. destruct (decide (q x = true)); simpl; by rewrite IH.
Qed.

Variables (format time_format_type : string) (file : @parsed F)
  (columns : list selector) (values : option (list F))
  (range_start range_end : Datetime.datetime).

#[local] Abbreviation window := (in_window (timestamp range_start) (timestamp range_end)).
#[local] Abbreviation result_of_read :=
  (read_file format time_format_type file columns values range_start range_end).

(** The format is supported and the value arrays, once shaped, are
    tables with one row for each time stamp. *)
Variable shaped : list (ndarray F).
Hypothesis format_ok : check_format format time_format_type = Ok ().
Hypothesis shaped_ok :
  discard_dimensions columns (map fix_shape (data file)) = Ok shaped.
Hypothesis shaped_tables : Forall (is_table (length (time file))) shaped.
Hypothesis shaped_not_empty : shaped ≠ [].

Lemma read_file_no_rows :
  Forall (λ t, window t = false) (time file) →
  result_of_read = Ok (Arr1 float64 [], Arr1 float32 []).
Proof.
  intros Hnone.
  assert (where_ window (time file) = []) as Hmask by (by apply where_from_none).
  unfold read_file. rewrite format_ok, shaped_ok.
  change (Ok () ≫= ?f) with (f ()). cbv beta.
  change (Ok shaped ≫= ?f) with (f shaped). cbv beta zeta.
  by rewrite Hmask.
Qed.

Lemma read_file_block (pre mid post : list F) (lo : nat) (rest : list nat)
    (dt : dtype) (c : nat) (rows : list (list F)) :
  where_ window (time file) = lo :: rest →
  lo = length pre →
  S (List.last (lo :: rest) lo) = (length pre + length mid)%nat →
  slice lo (S (List.last (lo :: rest) lo)) (time file) = mid →
  joined shaped = Arr2 dt c rows →
  let block := slice (length pre) (length pre + length mid) rows in
  length block = length mid
  ∧ Forall (λ r, length r = c) block
  ∧ (match values with Some (_ :: _) => False | _ => True end →
     result_of_read
     = Ok (squeeze (Arr1 (time_dtype file) mid), squeeze (Arr2 dt c block)))
  ∧ (∀ v0 v1 more, values = Some (v0 :: v1 :: more) →
     length mid ≠ 1%nat → (1 < c)%nat →
     result_of_read
     = Ok (Arr1 (time_dtype file) (keep (first_in v0 v1) block mid),
           Arr2 dt c (filter (λ r, first_in v0 v1 r = true) block))).
Proof.
  intros Hmask Hlo Hhi Hmid Hjoined block.
  pose proof (joined_is_table _ _ shaped_not_empty shaped_tables) as Htab.
  rewrite Hjoined in Htab. destruct Htab as [Hrows Hwide].
  assert (length mid ≤ length (time file) - length pre)%nat as Hfit.
  { rewrite <- Hmid, length_slice. lia. }
  assert (length block = length mid) as Hblock.
  { unfold block. rewrite length_slice. lia. }
  assert (Forall (λ r, length r = c) block) as Hbw.
  { unfold block, slice. by apply Forall_take, Forall_drop. }
  assert (data_block lo (S (List.last (lo :: rest) lo)) shaped = Ok (Arr2 dt c block))
    as Hdata.
  { rewrite (data_block_tables (length (time file))) by done.
    rewrite Hjoined. unfold slice_rows, block. rewrite Hhi. by rewrite Hlo. }
  split_and!; [done|done| |].
  - intros Hv. unfold read_file. rewrite format_ok, shaped_ok.
    change (Ok () ≫= ?f) with (f ()). cbv beta.
    change (Ok shaped ≫= ?f) with (f shaped). cbv beta zeta.
    rewrite Hmask. rewrite Hmid, Hdata.
    change (Ok (Arr2 dt c block) ≫= ?f) with (f (Arr2 dt c block)). cbv beta.
    destruct values as [[|? ?]|]; done.
  - intros v0 v1 more -> Hlen Hc.
    unfold read_file. rewrite format_ok, shaped_ok.
    change (Ok () ≫= ?f) with (f ()). cbv beta.
    change (Ok shaped ≫= ?f) with (f shaped). cbv beta zeta.
    rewrite Hmask. rewrite Hmid, Hdata.
    change (Ok (Arr2 dt c block) ≫= ?f) with (f (Arr2 dt c block)). cbv beta.
    rewrite squeeze_table by lia. rewrite squeeze_line by done.
    destruct (column0_where dt c block v0 v1 ltac:(lia) Hbw)
      as (col & -> & Hcol & Hwhere).
    change (Ok col ≫= ?f) with (f col). cbv beta.
    change (item (v0 :: v1 :: more) 0) with (Ok v0).
    change (item (v0 :: v1 :: more) 1) with (Ok v1).
    change (Ok v0 ≫= ?f) with (f v0). cbv beta.
    change (Ok v1 ≫= ?f) with (f v1). cbv beta zeta.
    rewrite Hwhere.
    rewrite (select_line _ _ _ (keep (first_in v0 v1) block mid))
      by (by apply pick_where).
    rewrite (select_table _ _ _ _ (keep (first_in v0 v1) block block))
      by (by apply pick_where).
    by rewrite keep_self.
Qed.

End ReadFileFacts.

Section WindowFacts.
Import Numpy Spacecraft.
Context {F : Type} {FF : Float F}.

(** For a comparison that behaves as a total order (no NaN among the
    time stamps), the rows of a sorted column that lie in a window are
    contiguous. *)
Lemma sorted_contiguous (lo hi : F) (l : list F) :
  (∀ a b c : F, flt a b = true → flt c b = false → flt a c = true) →
  (∀ a b c : F, flt b a = false → flt b c = true → flt a c = true) →
  sorted_time l → contiguous (in_window lo hi) l.
Proof.
  intros Hlt_le Hle_lt Hs i j k x y z [Hij Hjk] Hi Hj Hk Hx Hz.
  unfold in_window, fgt in *.
  apply andb_true_iff in Hx as [Hx _]. apply andb_true_iff in Hz as [_ Hz].
  apply andb_true_iff. split.
  - apply (Hlt_le lo x y); [done|]. by apply (Hs i j).
  - apply (Hle_lt y z hi); [|done]. by apply (Hs j k).
Qed.

Lemma slice_singleton {B} (i : nat) (l : list B) (x : B) :
  slice i (S i) l = [x] → l !! i = Some x.
Proof.
  unfold slice. replace (S i - i)%nat with 1%nat by lia.
  replace i with (i + 0)%nat at 2 by lia. rewrite <- lookup_drop.
  destruct (drop i l) as [|y k]; simpl; [done|]. rewrite take_0. by intros [= ->].
Qed.

End WindowFacts.

Section ReadFileTheorems.
Import Numpy Spacecraft.
Context {F : Type} {FF : Float F} {CF : Clock F} {SP : Strptime}.

(** C7, amended. On a supported format whose value arrays have one row
    for each time stamp, [read_file] returns empty arrays, and no error,
    when no time lies strictly inside the window; otherwise it returns
    the block of rows from the first to the last time strictly inside
    the window. The block holds every row inside the window, and no
    other row when those rows are contiguous, as in a sorted time
    column. With a value filter, on a block of several rows and several
    channels, the rows of the block are kept whose first channel lies
    strictly within the range. *)
Theorem read_file_window (format time_format_type : string) (file : @parsed F)
    (columns : list selector) (values : option (list F))
    (range_start range_end : Datetime.datetime) (shaped : list (ndarray F)) :
  check_format format time_format_type = Ok () →
  discard_dimensions columns (map fix_shape (data file)) = Ok shaped →
  Forall (is_table (length (time file))) shaped →
  shaped ≠ [] →
  let window := in_window (timestamp range_start) (timestamp range_end) in
  let out := read_file format time_format_type file columns values
               range_start range_end in
  (Forall (λ t, window t = false) (time file)
   ∧ out = Ok (Arr1 float64 [], Arr1 float32 []))
  ∨ ∃ (pre mid post : list F) (dt : dtype) (c : nat) (rows : list (list F)),
      block_of window (time file) pre mid post
      ∧ joined shaped = Arr2 dt c rows
      ∧ filter (λ t, window t = true) (time file) = filter (λ t, window t = true) mid
      ∧ (contiguous window (time file) →
         mid = filter (λ t, window t = true) (time file))
      ∧ let block := slice (length pre) (length pre + length mid) rows in
        length block = length mid
        ∧ (match values with Some (_ :: _) => False | _ => True end →
           out = Ok (squeeze (Arr1 (time_dtype file) mid), squeeze (Arr2 dt c block)))
        ∧ (∀ v0 v1 more, values = Some (v0 :: v1 :: more) →
           length mid ≠ 1%nat → (1 < c)%nat →
           out = Ok (Arr1 (time_dtype file) (keep (first_in v0 v1) block mid),
                     Arr2 dt c (filter (λ r, first_in v0 v1 r = true) block))).
Proof.
  intros Hformat Hshaped Htables Hne window out.
  destruct (where_block window (time file))
    as [[_ Hnone]|(pre & mid & post & lo & rest & Hblock & Hmask & Hlo & Hhi & Hmid)].
  - left. split; [done|]. by apply (read_file_no_rows _ _ _ _ _ _ _ shaped).
  - right.
    pose proof (joined_is_table _ _ Hne Htables) as Htab.
    destruct (joined shaped) as [| |dt c rows] eqn:Hjoined; [done..|].
    exists pre, mid, post, dt, c, rows.
    destruct (read_file_block format time_format_type file columns values
                range_start range_end shaped Hformat Hshaped Htables Hne
                pre mid post lo rest dt c rows Hmask Hlo Hhi Hmid Hjoined)
      as (Hlen & _ & Hplain & Hfilter).
    split_and!; try done.
    + apply (block_filter _ _ _ _ _ Hblock).
    + intros Hc. rewrite (block_filter _ _ _ _ _ Hblock).
      symmetry. apply filter_all. by apply (block_contiguous _ _ _ _ _ Hblock).
Qed.

(** C10, amended. When no time lies strictly inside the window the
    result is a zero-length float64 array and a zero-length
    one-dimensional float32 array, whatever the columns. When exactly one
    row matches and no value filter is set, both arrays are squeezed: the
    time becomes zero-dimensional, and the row of values becomes
    one-dimensional if it has several channels and zero-dimensional if it
    has one. *)
Theorem read_file_degenerate_shapes (format time_format_type : string)
    (file : @parsed F) (columns : list selector) (values : option (list F))
    (range_start range_end : Datetime.datetime) (shaped : list (ndarray F)) :
  check_format format time_format_type = Ok () →
  discard_dimensions columns (map fix_shape (data file)) = Ok shaped →
  let mask := where_ (in_window (timestamp range_start) (timestamp range_end))
                (time file) in
  let out := read_file format time_format_type file columns values
               range_start range_end in
  (mask = [] →
   ∃ t d, out = Ok (t, d)
     ∧ dtype_of t = float64 ∧ shape t = [0%nat]
     ∧ dtype_of d = float32 ∧ shape d = [0%nat])
  ∧ (∀ i, mask = [i] →
     Forall (is_table (length (time file))) shaped → shaped ≠ [] →
     match values with Some (_ :: _) => False | _ => True end →
     ∃ (t : F) (dt : dtype) (c : nat) (rows : list (list F)) (row : list F),
       time file !! i = Some t
       ∧ joined shaped = Arr2 dt c rows ∧ rows !! i = Some row ∧ length row = c
       ∧ out = Ok (Arr0 (time_dtype file) t, squeeze (Arr2 dt c [row]))
       ∧ (c ≠ 1%nat → squeeze (Arr2 dt c [row]) = Arr1 dt row)
       ∧ (c = 1%nat → ∃ x, row = [x] ∧ squeeze (Arr2 dt c [row]) = Arr0 dt x)).
Proof.
  intros Hformat Hshaped mask out. split.
  - intros Hmask. exists (Arr1 float64 []), (Arr1 float32 []).
    split_and!; try done.
    apply (read_file_no_rows _ _ _ _ _ _ _ shaped); [done..|].
    by apply (where_from_nil _ 0).
  - intros i Hmask Htables Hne Hvalues.
    destruct (where_block (in_window (timestamp range_start) (timestamp range_end))
                (time file))
      as [[Hnil _]|(pre & mid & post & lo & rest & Hblock & Hw & Hlo & Hhi & Hmid)].
    { unfold mask in Hmask. congruence. }
    unfold mask in Hmask. rewrite Hw in Hmask. injection Hmask as -> ->.
    simpl in Hhi, Hmid.
    assert (length mid = 1%nat) as Hone by lia.
    destruct mid as [|t [|? ?]]; try done.
    pose proof (joined_is_table _ _ Hne Htables) as Htab.
    destruct (joined shaped) as [| |dt c rows] eqn:Hjoined; [done..|].
    destruct (read_file_block format time_format_type file columns values
                range_start range_end shaped Hformat Hshaped Htables Hne
                pre [t] post i [] dt c rows Hw Hlo Hhi Hmid Hjoined)
      as (Hlen & Hwide & Hplain & _).
    simpl in Hlen, Hwide, Hplain.
    replace (length pre + 1)%nat with (S i) in * by lia. rewrite <- Hlo in *.
    destruct (slice i (S i) rows) as [|row [|? ?]] eqn:Hrow; try done.
    apply Forall_cons in Hwide as [Hc _].
    exists t, dt, c, rows, row. split_and!.
    + by apply slice_singleton.
    + done.
    + by apply slice_singleton.
    + done.
    + by apply Hplain.
    + intros Hc1. destruct row as [|x [|x' row]]; simpl in Hc; subst c; done.
    + intros ->. destruct row as [|x [|x' row]]; try done. by exists x.
Qed.

End ReadFileTheorems.

(* ===================================================================== *)
(** ** [get_data_raw]: joining the per-file results *)
(* ===================================================================== *)

Section ConcatFacts.
Import Numpy Spacecraft.
Context {F : Type}.

Lemma well_shaped_len (c : nat) (r : ndarray F * ndarray F) :
  well_shaped c r → len r.1 = Ok (length (times_of r)).
Proof. intros (dt & ts & E & _). unfold times_of. by rewrite E. Qed.

Lemma well_shaped_values_length (c : nat) (r : ndarray F * ndarray F) :
  well_shaped c r → length (values_of r) = length (times_of r).
Proof.
  intros (dt & ts & E & [->|(dt' & rows & E' & Hlen & _)]);
    unfold values_of, times_of; rewrite E; [done|]. rewrite E'.
  destruct ts; [by destruct rows|done].
Qed.

Lemma broadcast_line_exact {A} (n : nat) (dt : dtype) (xs : list A) :
  n = length xs → broadcast_line n (Arr1 dt xs) = Ok xs.
Proof.
  intros ->. destruct xs as [|x [|y xs]]; simpl; [done|done|].
  by destruct (decide _).
Qed.

Lemma broadcast_rows_exact {A} (n : nat) (dt : dtype) (c : nat)
    (rows : list (list A)) :
  n = length rows → Forall (λ row, length row = c) rows →
  broadcast_rows n c (Arr2 dt c rows) = Ok rows.
Proof.
  intros -> Hw. unfold broadcast_rows.
  destruct (decide (c = c ∨ c = 1%nat)) as [_|Hn]; [|exfalso; apply Hn; by left].
  assert (∀ r : list A, length r = c → widen c c r = Ok r) as Hwiden.
  { intros r Hr. unfold widen. destruct r as [|x [|y r]]; simpl in *.
    - by destruct (decide _).
    - destruct (decide (c = 1%nat)) as [->|Hc]; [done|]. by destruct (decide _).
    - by destruct (decide _). }
  assert (mapM (widen c c) rows = Ok rows) as Hall.
  { rewrite <- (map_id rows) at 2. apply mapM_ok. intros r Hr.
    apply Hwiden. rewrite Forall_forall in Hw. by apply Hw. }
  destruct rows as [|r [|r' rows]].
  - done.
  - apply Forall_cons in Hw as [Hr _]. by rewrite (Hwiden r Hr).
  - by destruct (decide _).
Qed.

Lemma sum_nat_app (l1 l2 : list nat) :
  sum_nat (l1 ++ l2) = (sum_nat l1 + sum_nat l2)%nat.
Proof. induction l1 as [|x l1 IH]; simpl; [done|]. unfold sum_nat in *. simpl. lia. Qed.

Lemma assign_next {B} (a k : nat) (done_ chunk : list B) (n : nat) (x : B) :
  a = length done_ → k = length chunk →
  assign a chunk (done_ ++ replicate (k + n) x) = (done_ ++ chunk) ++ replicate n x.
Proof.
  intros -> ->. unfold assign. rewrite take_app_length, <- app_assoc. do 2 f_equal.
  rewrite drop_app_ge by lia.
  replace (length done_ + length chunk - length done_)%nat with (length chunk) by lia.
  rewrite drop_replicate. f_equal. lia.
Qed.

(** The loop writes each result after those before it. *)
Lemma fill_concat (c : nat) (lengths1 lengths2 : list nat)
    (results : list (ndarray F * ndarray F))
    (done_t : list (option F)) (done_d : list (list (option F))) :
  Forall (well_shaped c) results →
  lengths2 = map (λ r, length (times_of r)) results →
  length done_t = sum_nat lengths1 → length done_d = sum_nat lengths1 →
  fill (lengths1 ++ lengths2) (length lengths1) results c
    (done_t ++ replicate (sum_nat lengths2) None,
     done_d ++ replicate (sum_nat lengths2) (replicate c None))
  = Ok (done_t ++ map Some (concat (map times_of results)),
        done_d ++ map (map Some) (concat (map values_of results))).
Proof.
  revert lengths1 lengths2 done_t done_d.
  induction results as [|r results IH];
    intros lengths1 lengths2 done_t done_d Hres -> Ht Hd.
  { by simpl. }
  apply Forall_cons in Hres as [Hr Hres].
  cbn [fill map]. rewrite (well_shaped_len c r Hr).
  change (Ok (length (times_of r)) ≫= ?f) with (f (length (times_of r))). cbv beta.
  set (n := length (times_of r)).
  set (ls := map (λ r0, length (times_of r0)) results).
  assert (sum_nat (take (length lengths1) (lengths1 ++ n :: ls)) = sum_nat lengths1)
    as Ha by (by rewrite take_app_length).
  assert (sum_nat (take (S (length lengths1)) (lengths1 ++ n :: ls))
          = (sum_nat lengths1 + n)%nat) as Hb.
  { replace (S (length lengths1)) with (length (lengths1 ++ [n]))
      by (rewrite length_app; simpl; lia).
    replace (lengths1 ++ n :: ls) with ((lengths1 ++ [n]) ++ ls)
      by (by rewrite <- app_assoc).
    rewrite take_app_length, sum_nat_app. unfold sum_nat. simpl. lia. }
  rewrite Ha, Hb.
  replace (sum_nat lengths1 + n - sum_nat lengths1)%nat with n by lia.
  specialize (IH (lengths1 ++ [n]) ls).
  replace ((lengths1 ++ [n]) ++ ls) with (lengths1 ++ n :: ls) in IH
    by (by rewrite <- app_assoc).
  replace (length (lengths1 ++ [n])) with (S (length lengths1)) in IH
    by (rewrite length_app; simpl; lia).
  assert (sum_nat (lengths1 ++ [n]) = (sum_nat lengths1 + n)%nat) as Hsum.
  { rewrite sum_nat_app. unfold sum_nat. simpl. lia. }
  change (sum_nat (n :: ls)) with (n + sum_nat ls)%nat.
  pose proof (well_shaped_values_length c r Hr) as Hvl. fold n in Hvl.
  destruct (decide (0 < n)%nat) as [Hpos|Hzero].
  - destruct Hr as (dt & ts & E & [->|(dt' & rows & E' & Hlen & Hw)]).
    { unfold n, times_of in Hpos. rewrite E in Hpos. simpl in Hpos. lia. }
    assert (times_of r = ts) as Hts by (unfold times_of; by rewrite E).
    assert (values_of r = rows) as Hvs.
    { unfold values_of. rewrite E, E'. destruct ts; [|done].
      unfold n in Hpos. rewrite Hts in Hpos. simpl in Hpos. lia. }
    assert (n = length ts) as Hn by (unfold n; by rewrite Hts).
    rewrite E, E'.
    rewrite (broadcast_line_exact n dt ts Hn).
    change (Ok ts ≫= ?f) with (f ts). cbv beta.
    rewrite (broadcast_rows_exact n dt' c rows) by (done || lia).
    change (Ok rows ≫= ?f) with (f rows). cbv beta.
    change (Ok ?x ≫= ?f) with (f x). cbv beta.
    cbn [fst snd].
    rewrite (assign_next _ n done_t (map Some ts))
      by (done || rewrite length_map; lia).
    rewrite (assign_next _ n done_d (map (map Some) rows))
      by (done || rewrite length_map; lia).
    rewrite (IH (done_t ++ map Some ts) (done_d ++ map (map Some) rows) Hres eq_refl).
    + cbn [map concat]. rewrite Hts, Hvs.
      by rewrite !map_app, <- !app_assoc.
    + rewrite length_app, length_map, Hsum. lia.
    + rewrite length_app, length_map, Hsum. lia.
  - assert (n = 0%nat) as Hn by lia.
    change (Ok ?x ≫= ?f) with (f x). cbv beta.
    assert (times_of r = []) as Hts by (apply nil_length_inv; by fold n).
    assert (values_of r = []) as Hvs by (apply nil_length_inv; lia).
    replace (n + sum_nat ls)%nat with (sum_nat ls) by lia.
    rewrite (IH done_t done_d Hres eq_refl).
    + cbn [map concat]. by rewrite Hts, Hvs.
    + rewrite Hsum. lia.
    + rewrite Hsum. lia.
Qed.

(** When the first result has rows, the results are joined in order:
    the time array has as many entries as the results together, the data
    array as many rows, and the width of the first result's first row. *)
Lemma get_data_raw_concat (c : nat) (results : list (ndarray F * ndarray F)) :
  Forall (well_shaped c) results →
  (∃ r rest, results = r :: rest ∧ times_of r ≠ []) →
  get_data_raw results
  = Ok (Arr1 float64 (map Some (concat (map times_of results))),
        Arr2 float32 c (map (map Some) (concat (map values_of results)))).
Proof.
  intros Hres (r & rest & -> & Hr). unfold get_data_raw.
  destruct (decide _) as [Hlen|_]; [done|].
  change (Ok () ≫= ?f) with (f ()). cbv beta.
  rewrite (mapM_ok _ (λ r, length (times_of r))); last first.
  { intros x Hx. rewrite Forall_forall in Hres. by apply (well_shaped_len c), Hres. }
  change (Ok ?x ≫= ?f) with (f x). cbv beta.
  pose proof Hres as Hres'. apply Forall_cons in Hres' as [Hr0 _].
  destruct Hr0 as (dt & ts & E & [->|(dt' & rows & E' & Hlen & Hw)]).
  { exfalso. apply Hr. unfold times_of. by rewrite E. }
  assert (times_of r = ts) as Hts by (unfold times_of; by rewrite E).
  destruct rows as [|row rows].
  { exfalso. apply Hr. rewrite Hts. by destruct ts. }
  apply Forall_cons in Hw as [Hrow _].
  rewrite bind_Ok, E'. cbn [first]. rewrite bind_Ok. cbn [len]. rewrite Hrow.
  rewrite bind_Ok. cbv zeta.
  pose proof (fill_concat c [] (map (λ r, length (times_of r)) (r :: rest))
                (r :: rest) [] [] Hres eq_refl eq_refl eq_refl) as Hfill.
  cbn [app length] in Hfill. rewrite Hfill. done.
Qed.

(** C4 (the code departs from the claim). The column count is read
    from the first result, empty or not: when the first file has no
    rows in the window, [get_data_raw] raises [IndexError] although the
    second result has rows. *)
Theorem get_data_raw_first_result_empty (dt1 dt2 dt3 dt4 : dtype)
    (t1 t2 : F) (c : nat) (row1 row2 : list F) :
  get_data_raw [ (Arr1 dt1 [], Arr1 dt2 []);
                 (Arr1 dt3 [t1; t2], Arr2 dt4 c [row1; row2]) ]
  = Raise IndexError.
Proof. reflexivity. Qed.

End ConcatFacts.

Section ReadFileExamples.
Import Numpy Spacecraft.

(** C7, as stated, fails: with the window (0, 10) the row at time 100,
    which lies between two rows inside the window, is returned too. *)
Lemma read_file_returns_row_outside_window :
  read_file "cdf" "" unsorted_file field_columns None
    (epoch_second 0) (epoch_second 10)
  = Ok (Arr1 float64 [5; 100; 6],
        Arr2 float32 3 [[1; 2; 3]; [4; 5; 6]; [7; 8; 9]])
  ∧ in_window (timestamp (epoch_second 0)) (timestamp (epoch_second 10)) 100
    = false.
Proof. split; reflexivity. Qed.

Lemma read_file_window_witness :
  is_ok (read_file "cdf" "" sorted_file field_columns None
           (epoch_second 0) (epoch_second 10)) = true.
Proof.
  assert (Forall (is_table (length (time sorted_file)))
            [Arr2 float32 3 [[0; 0; 0]; [1; 2; 3]; [4; 5; 6]; [7; 8; 9 : Z]]])
    as Htables by (repeat constructor).
  destruct (read_file_window "cdf" "" sorted_file field_columns None
              (epoch_second 0) (epoch_second 10) _ eq_refl eq_refl Htables
              ltac:(discriminate))
    as [[_ E]|(pre & mid & post & dt & c & rows & _ & _ & _ & _ & _ & E & _)].
  - by rewrite E.
  - by rewrite (E I).
Defined.

(** C10, as stated, fails: a single row of a single-channel product is
    squeezed to zero dimensions, not one; and with a value filter the
    squeezed row cannot be indexed, so nothing is returned. *)
Lemma read_file_single_row_single_channel :
  read_file "cdf" "" density_file density_columns None
    (epoch_second 0) (epoch_second 10)
  = Ok (Arr0 float64 5, Arr0 float32 10)
  ∧ ndim (Arr0 float32 (10 : Z)) = 0%nat
  ∧ read_file "cdf" "" density_file density_columns (Some [0; 100])
      (epoch_second 0) (epoch_second 10)
    = Raise IndexError.
Proof. split_and!; reflexivity. Qed.

Lemma read_file_degenerate_shapes_witness :
  read_file "cdf" "" sorted_file field_columns None
    (epoch_second 4) (epoch_second 6)
  = Ok (Arr0 float64 5, Arr1 float32 [1; 2; 3]).
Proof.
  assert (Forall (is_table (length (time sorted_file)))
            [Arr2 float32 3 [[0; 0; 0]; [1; 2; 3]; [4; 5; 6]; [7; 8; 9 : Z]]])
    as Htables by (repeat constructor).
  destruct (read_file_degenerate_shapes "cdf" "" sorted_file field_columns None
              (epoch_second 4) (epoch_second 6) _ eq_refl eq_refl) as [_ Hone].
  destruct (Hone 1%nat eq_refl Htables ltac:(discriminate) I)
    as (t & dt & c & rows & row & Ht & Hj & Hrow & _ & E & _).
  rewrite E. injection Ht as <-. injection Hj as <- <- <-. injection Hrow as <-.
  reflexivity.
Defined.

End ReadFileExamples.

(* ===================================================================== *)
(** ** JSON: the serialisation determines the record *)
(* ===================================================================== *)

Section JsonText.
Import Json.

Lemma unescape_escape (c : ascii) (r : string) :
  unescape (escape c +:+ r) = Some (c, r).
Proof.
  destruct c as [[] [] [] [] [] [] [] []]; reflexivity.
Qed.

Lemma unescape_quote (r : string) : unescape (String quote r) = None.
Proof. reflexivity. Qed.

Lemma escape_body_inj (s1 s2 r1 r2 : string) :
  escape_body s1 (String quote r1) = escape_body s2 (String quote r2) →
  s1 = s2 ∧ r1 = r2.
Proof.
  revert s2. induction s1 as [|c1 s1 IH]; intros [|c2 s2] E; simpl in E.
  - by injection E.
  - apply (f_equal unescape) in E.
    rewrite unescape_escape, unescape_quote in E. done.
  - apply (f_equal unescape) in E.
    rewrite unescape_escape, unescape_quote in E. done.
  - apply (f_equal unescape) in E. rewrite !unescape_escape in E.
    injection E as -> E. destruct (IH _ E) as [-> ->]. done.
Qed.

Lemma dumps_str_inj (s1 s2 r1 r2 : string) :
  dumps_str s1 r1 = dumps_str s2 r2 → s1 = s2 ∧ r1 = r2.
Proof. unfold dumps_str. intros [= E]. by apply escape_body_inj. Qed.

Lemma token_inj (a b r1 r2 : string) :
  all_chars atom_char a = true → all_chars atom_char b = true →
  stops r1 = true → stops r2 = true →
  a +:+ r1 = b +:+ r2 → a = b ∧ r1 = r2.
Proof.
  revert b. induction a as [|c a IH]; intros [|d b] Ha Hb H1 H2 E; simpl in *.
  - done.
  - subst r1. simpl in H1. apply andb_true_iff in Hb as [Hd _].
    unfold atom_char in Hd. rewrite H1 in Hd. done.
  - subst r2. simpl in H2. apply andb_true_iff in Ha as [Hc _].
    unfold atom_char in Hc. rewrite H2 in Hc. done.
  - injection E as -> E.
    apply andb_true_iff in Ha as [_ Ha]. apply andb_true_iff in Hb as [_ Hb].
    destruct (IH b Ha Hb H1 H2 E) as [-> ->]. done.
Qed.

Lemma pretty_N_char_digit (n : N) : int_char (pretty_N_char n) = true.
Proof. unfold pretty_N_char. by repeat case_match. Qed.

Lemma pretty_N_go_chars (x : N) (s : string) :
  all_chars int_char s = true → all_chars int_char (pretty_N_go x s) = true.
Proof.
  revert s. induction (N.lt_wf_0 x) as [x _ IH]; intros s Hs.
  assert (x = 0 ∨ 0 < x)%N as [->|Hx] by lia; [by rewrite pretty_N_go_0|].
  rewrite pretty_N_go_step by done. apply IH; [by apply N.div_lt|].
  simpl. by rewrite pretty_N_char_digit.
Qed.

Lemma pretty_N_chars (x : N) : all_chars int_char (pretty x) = true.
Proof.
  unfold pretty, pretty_N. case_decide; [done|]. by apply pretty_N_go_chars.
Qed.

Lemma pretty_Z_chars (z : Z) : all_chars int_char (pretty z) = true.
Proof.
  destruct z as [|p|p]; unfold pretty, pretty_Z; [done| |].
  - apply pretty_N_chars.
  - simpl. apply pretty_N_chars.
Qed.

Lemma pretty_N_go_length (x : N) (s : string) :
  (String.length s ≤ String.length (pretty_N_go x s))%nat.
Proof.
  revert s. induction (N.lt_wf_0 x) as [x _ IH]; intros s.
  assert (x = 0 ∨ 0 < x)%N as [->|Hx] by lia; [by rewrite pretty_N_go_0|].
  rewrite pretty_N_go_step by done.
  etrans; [|apply IH; by apply N.div_lt]. simpl. lia.
Qed.

Lemma pretty_N_not_empty (x : N) : pretty x ≠ "".
Proof.
  unfold pretty, pretty_N. case_decide; [done|]. intros E.
  assert (0 < x)%N as Hx by lia.
  rewrite pretty_N_go_step in E by done.
  pose proof (pretty_N_go_length (x `div` 10)
                (String (pretty_N_char (x `mod` 10)) "")) as Hlen.
  rewrite E in Hlen. simpl in Hlen. lia.
Qed.

Lemma pretty_Z_not_empty (z : Z) : pretty z ≠ "".
Proof.
  destruct z as [|p|p]; unfold pretty, pretty_Z; [done| |done].
  apply pretty_N_not_empty.
Qed.

Lemma all_chars_weaken (p q : ascii → bool) (s : string) :
  (∀ c, p c = true → q c = true) → all_chars p s = true → all_chars q s = true.
Proof.
  intros Hpq. induction s as [|c s IH]; simpl; [done|].
  intros [Hc Hs]%andb_true_iff. by rewrite (Hpq c Hc), IH.
Qed.

Lemma some_not_all (p : ascii → bool) (s : string) :
  some_char (λ c, negb (p c)) s = true → all_chars p s = false.
Proof.
  induction s as [|c s IH]; simpl; [done|].
  destruct (p c); simpl; [done|done].
Qed.

End JsonText.

Section JsonInjective.
Import Json.
Context {F : Type} {PF : PyFloat F}.

Hypothesis float_repr_inj : ∀ x y : F, float_repr x = float_repr y → x = y.
Hypothesis float_repr_shape : ∀ x : F, float_shape (float_repr x) = true.

(** Induction on values, with the elements of an array. *)
Lemma json_induction (P : json F → Prop) :
  P JNull → (∀ b, P (JBool b)) → (∀ n, P (JInt n)) → (∀ x, P (JFloat x)) →
  (∀ s, P (JStr s)) → (∀ l, Forall P l → P (JList l)) → ∀ v, P v.
Proof.
  intros Hnull Hbool Hint Hfloat Hstr Hlist.
  fix IH 1. intros [| b | n | x | s | l].
  - exact Hnull.
  - apply Hbool.
  - apply Hint.
  - apply Hfloat.
  - apply Hstr.
  - apply Hlist. induction l as [|v l IHl]; constructor; [apply IH|exact IHl].
Qed.

Lemma dumps_value_cons (x : json F) (xs : list (json F)) (r : string) :
  dumps_value (JList (x :: xs)) r = String "[" (dumps_value x (dumps_tail xs r)).
Proof.
  simpl. do 2 f_equal. induction xs as [|y ys IH]; simpl; [done|]. by rewrite IH.
Qed.

Lemma dumps_atom (v : json F) (a r : string) :
  atom_text v = Some a → dumps_value v r = a +:+ r.
Proof. destruct v as [|[]| | | |]; simpl; intros [= <-]; done. Qed.

Lemma int_char_atom (c : ascii) : int_char c = true → atom_char c = true.
Proof. destruct c as [[] [] [] [] [] [] [] []]; by vm_compute. Qed.

Lemma float_char_atom (c : ascii) : float_char c = true → atom_char c = true.
Proof. destruct c as [[] [] [] [] [] [] [] []]; by vm_compute. Qed.

Lemma float_not_int (x : F) (z : Z) : float_repr x ≠ pretty z.
Proof.
  intros E. pose proof (float_repr_shape x) as Hs.
  apply andb_true_iff in Hs as [_ Hs]. apply some_not_all in Hs.
  rewrite E, pretty_Z_chars in Hs. done.
Qed.

Lemma atom_chars (v : json F) (a : string) :
  atom_text v = Some a → all_chars atom_char a = true ∧ a ≠ "".
Proof.
  destruct v as [|[]|n|x| |]; simpl; intros [= <-]; try done.
  - split; [|apply pretty_Z_not_empty].
    apply (all_chars_weaken int_char); [apply int_char_atom|apply pretty_Z_chars].
  - pose proof (float_repr_shape x) as Hs.
    apply andb_true_iff in Hs as [Hall Hsome]. split.
    + by apply (all_chars_weaken float_char); [apply float_char_atom|].
    + intros E. by rewrite E in Hsome.
Qed.

Lemma atom_text_inj (v v' : json F) (a : string) :
  atom_text v = Some a → atom_text v' = Some a → v = v'.
Proof.
  assert (∀ (s : string) (z : Z), all_chars int_char s = false → s = pretty z → False)
    as Hint.
  { intros s z Hs ->. by rewrite pretty_Z_chars in Hs. }
  assert (∀ (s : string) (x : F), float_shape s = false → s = float_repr x → False)
    as Hfl.
  { intros s x Hs ->. by rewrite float_repr_shape in Hs. }
  intros E1 E2.
  destruct v as [|[]|n|x| |], v' as [|[]|n'|x'| |]; simpl in E1, E2;
    try discriminate; try done;
    rewrite <- E2 in E1; clear E2; apply (inj Some) in E1 as E;
    try discriminate E.
  all: try (exfalso; refine (Hint _ _ _ E); reflexivity).
  all: try (exfalso; refine (Hint _ _ _ (eq_sym E)); reflexivity).
  all: try (exfalso; refine (Hfl _ _ _ E); reflexivity).
  all: try (exfalso; refine (Hfl _ _ _ (eq_sym E)); reflexivity).
  - f_equal. by apply pretty_Z_inj.
  - exfalso. symmetry in E. by apply float_not_int in E.
  - exfalso. by apply float_not_int in E.
  - f_equal. by apply float_repr_inj.
Qed.

(** A value never begins with a delimiter. *)
Lemma dumps_value_head (v : json F) (r : string) :
  ∃ c s, dumps_value v r = String c s ∧ delimiter c = false
         ∧ (opener c = true ↔ atom_text v = None).
Proof.
  destruct (atom_text v) as [a|] eqn:Ea.
  - destruct (atom_chars v a Ea) as [Hall Hne]. rewrite (dumps_atom v a r Ea).
    destruct a as [|c a]; [done|]. simpl in Hall.
    apply andb_true_iff in Hall as [Hc _]. exists c, (a +:+ r).
    unfold atom_char in Hc. apply andb_true_iff in Hc as [Hd Ho].
    apply negb_true_iff in Hd, Ho. split_and!; [done|done|].
    rewrite Ho. split; done.
  - destruct v as [|[]| | |s|[|x xs]]; try done.
    + eexists _, _. split; [reflexivity|]. done.
    + eexists _, _. split; [reflexivity|]. done.
    + rewrite dumps_value_cons. eexists _, _. split; [reflexivity|]. done.
Qed.

Lemma stops_tail (l : list (json F)) (r : string) : stops (dumps_tail l r) = true.
Proof. by destruct l. Qed.

(** The tail of an array determines its elements, if each element's
    text determines the element. *)
Lemma dumps_tail_inj (xs : list (json F)) :
  Forall (λ x, ∀ v' r1 r2, stops r1 = true → stops r2 = true →
                dumps_value x r1 = dumps_value v' r2 → x = v' ∧ r1 = r2) xs →
  ∀ ys r1 r2, dumps_tail xs r1 = dumps_tail ys r2 → xs = ys ∧ r1 = r2.
Proof.
  induction 1 as [|x xs Hx _ IH]; intros [|y ys] r1 r2 E; simpl in E.
  - by injection E.
  - done.
  - done.
  - injection E as E.
    destruct (Hx y _ _ (stops_tail xs r1) (stops_tail ys r2) E) as [-> E'].
    destruct (IH _ _ _ E') as [-> ->]. done.
Qed.

(** Numbers and keywords. *)
Lemma dumps_atom_inj (v v' : json F) (a r1 r2 : string) :
  atom_text v = Some a → stops r1 = true → stops r2 = true →
  dumps_value v r1 = dumps_value v' r2 → v = v' ∧ r1 = r2.
Proof.
  intros Ea H1 H2 E. rewrite (dumps_atom v a r1 Ea) in E.
  destruct (atom_chars v a Ea) as [Ha Hne].
  destruct (atom_text v') as [b'|] eqn:Eb.
  - rewrite (dumps_atom v' b' r2 Eb) in E.
    destruct (atom_chars v' b' Eb) as [Hb _].
    destruct (token_inj a b' r1 r2 Ha Hb H1 H2 E) as [-> ->].
    split; [by eapply atom_text_inj|done].
  - exfalso.
    destruct (dumps_value_head v' r2) as (c & t & Ec & _ & Ho).
    rewrite Ec in E. destruct a as [|c' a]; [done|].
    injection E as -> _. simpl in Ha.
    apply andb_true_iff in Ha as [Ha _]. unfold atom_char in Ha.
    apply andb_true_iff in Ha as [_ Ha].
    apply proj2 in Ho. rewrite (Ho Eb) in Ha. done.
Qed.

(** A value followed by a delimiter (or nothing) can be read back in
    one way only. *)
Lemma dumps_value_inj (v : json F) :
  ∀ v' r1 r2, stops r1 = true → stops r2 = true →
    dumps_value v r1 = dumps_value v' r2 → v = v' ∧ r1 = r2.
Proof.
  induction v as [| b | n | x | s | l IH] using json_induction;
    intros v' r1 r2 H1 H2 E.
  - by apply (dumps_atom_inj JNull v' "null").
  - destruct b; [by apply (dumps_atom_inj (JBool true) v' "true")
                |by apply (dumps_atom_inj (JBool false) v' "false")].
  - by apply (dumps_atom_inj (JInt n) v' (pretty n)).
  - by apply (dumps_atom_inj (JFloat x) v' (float_repr x)).
  - destruct (atom_text v') as [b|] eqn:Eb.
    { by destruct (dumps_atom_inj v' (JStr s) b r2 r1 Eb H2 H1 (eq_sym E)) as [-> ->]. }
    destruct v' as [|[]|n'|x'|s'|l']; try discriminate Eb.
    + destruct (dumps_str_inj _ _ _ _ E) as [-> ->]. done.
    + exfalso. destruct l' as [|y ys]; [|rewrite dumps_value_cons in E];
        discriminate E.
  - destruct (atom_text v') as [b|] eqn:Eb.
    { by destruct (dumps_atom_inj v' (JList l) b r2 r1 Eb H2 H1 (eq_sym E)) as [-> ->]. }
    destruct v' as [|[]|n'|x'|s'|l']; try discriminate Eb.
    + exfalso. destruct l as [|x xs]; [|rewrite dumps_value_cons in E];
        discriminate E.
    + destruct l as [|x xs], l' as [|y ys].
      * simpl in E. by injection E as ->.
      * exfalso. rewrite dumps_value_cons in E. simpl in E. injection E as E.
        destruct (dumps_value_head y (dumps_tail ys r2)) as (c & t & Ec & Hd & _).
        rewrite Ec in E. injection E as <- _. done.
      * exfalso. rewrite dumps_value_cons in E. simpl in E. injection E as E.
        destruct (dumps_value_head x (dumps_tail xs r1)) as (c & t & Ec & Hd & _).
        rewrite Ec in E. injection E as -> _. done.
      * rewrite !dumps_value_cons in E. injection E as E.
        apply Forall_cons in IH as [Hx Hxs].
        destruct (Hx y _ _ (stops_tail xs r1) (stops_tail ys r2) E) as [-> E'].
        destruct (dumps_tail_inj xs Hxs _ _ _ E') as [-> ->]. done.
Qed.

End JsonInjective.

Section RecordFacts.
Import Json.
Context {F : Type} {PF : PyFloat F}.

#[global] Instance key_le_trans : Transitive (@key_le F).
Proof. intros a b c. unfold key_le. apply transitivity. Qed.

#[global] Instance key_le_total : Total (@key_le F).
Proof. intros a b. unfold key_le. apply total, _. Qed.

Lemma get_elem_of {V} (d : pydict V) (k : string) (v : V) :
  NoDup (keys d) → get k d = Some v ↔ (k, v) ∈ d.
Proof.
  induction d as [|[k' v'] d IH]; intros Hnd; simpl.
  - split; [done|]. intros Hin. by apply elem_of_nil in Hin.
  - apply NoDup_cons in Hnd as [Hk' Hnd]. destruct (decide (k = k')) as [->|Hne].
    + split.
      * intros [= ->]. by left.
      * intros [[= ->]|Hin]%elem_of_cons; [done|].
        exfalso. apply Hk'. unfold keys. apply list_elem_of_fmap.
        by exists (k', v).
    + rewrite (IH Hnd). split.
      * intros Hin. by right.
      * intros [[= -> ->]|Hin]%elem_of_cons; done.
Qed.

(** Dicts with the same items, in whatever order, are the same mapping. *)
Lemma perm_same_mapping {V} (d1 d2 : pydict V) :
  NoDup (keys d1) → d1 ≡ₚ d2 → same_mapping d1 d2.
Proof.
  intros Hnd Hp k.
  assert (NoDup (keys d2)) as Hnd2 by (unfold keys; by rewrite <- Hp).
  destruct (get k d1) as [v|] eqn:E1.
  - apply (get_elem_of d1 k v Hnd) in E1. rewrite Hp in E1.
    symmetry. by apply get_elem_of.
  - destruct (get k d2) as [v|] eqn:E2; [|done].
    apply (get_elem_of d2 k v Hnd2) in E2. rewrite <- Hp in E2.
    apply (get_elem_of d1 k v Hnd) in E2. congruence.
Qed.

(** The sorted items do not depend on the order of insertion. *)
Lemma sorted_items_perm (d1 d2 : pydict (json F)) :
  NoDup (keys d1) → d1 ≡ₚ d2 → sorted_items d1 = sorted_items d2.
Proof.
  intros Hnd Hp. unfold sorted_items.
  apply (StronglySorted_unique_strong key_le).
  - intros [k1 v1] [k2 v2] H1 H2 Hle Hge. unfold key_le in *. simpl in *.
    assert (k1 = k2) as -> by (by apply (anti_symm String.le)).
    f_equal.
    rewrite merge_sort_Permutation in H1. rewrite merge_sort_Permutation, <- Hp in H2.
    apply (get_elem_of d1 k2 v1 Hnd) in H1. apply (get_elem_of d1 k2 v2 Hnd) in H2.
    congruence.
  - apply StronglySorted_merge_sort; apply _.
  - apply StronglySorted_merge_sort; apply _.
  - by rewrite !merge_sort_Permutation.
Qed.

End RecordFacts.

Section RecordInjective.
Import Json.
Context {F : Type} {PF : PyFloat F}.
Hypothesis float_repr_inj : ∀ x y : F, float_repr x = float_repr y → x = y.
Hypothesis float_repr_shape : ∀ x : F, float_shape (float_repr x) = true.

Lemma stops_items_tail (l : list (string * json F)) :
  stops (dumps_items_tail l) = true.
Proof. by destruct l. Qed.

Lemma dumps_item_inj (kv1 kv2 : string * json F) (r1 r2 : string) :
  stops r1 = true → stops r2 = true →
  dumps_item kv1 r1 = dumps_item kv2 r2 → kv1 = kv2 ∧ r1 = r2.
Proof.
  intros H1 H2 E. unfold dumps_item in E.
  apply dumps_str_inj in E as [Ek E]. simpl in E. injection E as E.
  destruct (dumps_value_inj float_repr_inj float_repr_shape _ _ _ _ H1 H2 E)
    as [Ev ->].
  split; [|done]. destruct kv1, kv2. simpl in *. by subst.
Qed.

Lemma dumps_items_tail_inj (l1 l2 : list (string * json F)) :
  dumps_items_tail l1 = dumps_items_tail l2 → l1 = l2.
Proof.
  revert l2. induction l1 as [|kv1 l1 IH]; intros [|kv2 l2] E;
    cbn [dumps_items_tail String.append] in E; try done.
  injection E as E.
  assert (dumps_item kv1 (dumps_items_tail l1) = dumps_item kv2 (dumps_items_tail l2))
    as E0 by (unfold dumps_item, dumps_str; by f_equal).
  destruct (dumps_item_inj kv1 kv2 _ _ (stops_items_tail l1) (stops_items_tail l2) E0)
    as [-> E'].
  by rewrite (IH l2 E').
Qed.

(** Equal serialisations come from equal mappings. *)
Lemma dumps_inj (d1 d2 : pydict (json F)) :
  NoDup (keys d1) → NoDup (keys d2) → dumps d1 = dumps d2 → same_mapping d1 d2.
Proof.
  intros Hnd1 Hnd2 E.
  assert (sorted_items d1 = sorted_items d2) as Es.
  { unfold dumps in E.
    destruct (sorted_items d1) as [|kv1 l1], (sorted_items d2) as [|kv2 l2].
    - done.
    - exfalso. unfold dumps_item, dumps_str in E. discriminate E.
    - exfalso. unfold dumps_item, dumps_str in E. discriminate E.
    - injection E as E.
      assert (dumps_item kv1 (dumps_items_tail l1)
              = dumps_item kv2 (dumps_items_tail l2)) as E0
        by (unfold dumps_item, dumps_str; by f_equal).
      destruct (dumps_item_inj kv1 kv2 _ _ (stops_items_tail l1)
                  (stops_items_tail l2) E0) as [-> E'].
      by rewrite (dumps_items_tail_inj l1 l2 E'). }
  apply perm_same_mapping; [done|].
  unfold sorted_items in Es.
  rewrite <- (merge_sort_Permutation key_le d1), Es.
  apply merge_sort_Permutation.
Qed.

End RecordInjective.

(* ===================================================================== *)
(** ** Cache keys *)
(* ===================================================================== *)

Section DigestFacts.
Import Sha256.

Lemma hex_digit_lower (n : Z) : lower_hex (hex_digit n) = true.
Proof. unfold hex_digit. by repeat case_match. Qed.

(** A digest is 64 lower-case hexadecimal characters. *)
Lemma hexdigest_shape (msg : list Z) :
  String.length (hexdigest msg) = 64%nat
  ∧ all_chars lower_hex (hexdigest msg) = true.
Proof.
  unfold hexdigest, hex_of_state, hex8, nibble. split; [reflexivity|].
  cbn [all_chars]. by rewrite !hex_digit_lower.
Qed.

Lemma unutf8_utf8 (c : ascii) (s : string) :
  unutf8 (utf8 (String c s)) = Some (c, utf8 s).
Proof. destruct c as [[] [] [] [] [] [] [] []]; reflexivity. Qed.

Lemma utf8_inj (s1 s2 : string) : utf8 s1 = utf8 s2 → s1 = s2.
Proof.
  revert s2. induction s1 as [|c1 s1 IH]; intros [|c2 s2] E.
  - done.
  - apply (f_equal unutf8) in E. by rewrite unutf8_utf8 in E.
  - apply (f_equal unutf8) in E. by rewrite unutf8_utf8 in E.
  - apply (f_equal unutf8) in E. rewrite !unutf8_utf8 in E.
    injection E as -> E. by rewrite (IH s2 E).
Qed.

End DigestFacts.

Section DictFacts.
Import Json.
Context {V : Type}.

Lemma dict_get_set (k k' : string) (v : V) (d : pydict V) :
  get k (set k' v d) = if decide (k = k') then Some v else get k d.
Proof.
  induction d as [|[k0 v0] d IH]; simpl.
  - destruct (decide (k = k')); done.
  - destruct (decide (k' = k0)) as [->|Hne]; simpl.
    + destruct (decide (k = k0)); done.
    + destruct (decide (k = k0)) as [->|Hne0].
      * destruct (decide (k0 = k')); [congruence|done].
      * done.
Qed.

Lemma keys_set (k : string) (v : V) (d : pydict V) :
  keys (set k v d) = if decide (k ∈ keys d) then keys d else keys d ++ [k].
Proof.
  unfold keys. induction d as [|[k0 v0] d IH]; simpl.
  - done.
  - destruct (decide (k = k0)) as [->|Hne]; simpl.
    + clear IH. destruct (decide (k0 ∈ k0 :: map fst d)) as [_|Hn]; [done|].
      exfalso. apply Hn. by left.
    + rewrite IH. clear IH.
      destruct (decide (k ∈ map fst d)) as [Hin|Hin],
               (decide (k ∈ k0 :: map fst d)) as [Hin'|Hin']; try done.
      * exfalso. apply Hin'. by right.
      * apply elem_of_cons in Hin' as [?|?]; done.
Qed.

Lemma NoDup_set (k : string) (v : V) (d : pydict V) :
  NoDup (keys d) → NoDup (keys (set k v d)).
Proof.
  intros Hnd. rewrite keys_set. destruct (decide (k ∈ keys d)) as [_|Hn]; [done|].
  apply NoDup_app. split_and!; [done| |apply NoDup_singleton].
  intros x Hx Hx'. apply list_elem_of_singleton in Hx'. by subst.
Qed.

Lemma NoDup_update (d other : pydict V) :
  NoDup (keys d) → NoDup (keys (update d other)).
Proof.
  unfold update. revert d. induction other as [|[k v] other IH]; intros d Hnd; [done|].
  simpl. apply IH. by apply NoDup_set.
Qed.

(** After [d.update(other)] every key of [other] has its value from
    [other], every other key its value from [d]. *)
Lemma get_update (k : string) (d other : pydict V) :
  NoDup (keys other) →
  get k (update d other)
  = match get k other with Some v => Some v | None => get k d end.
Proof.
  unfold update. revert d. induction other as [|[k' v'] other IH]; intros d Hnd; [done|].
  apply NoDup_cons in Hnd as [Hk' Hnd]. simpl. rewrite (IH _ Hnd), dict_get_set.
  destruct (decide (k = k')) as [->|Hne]; [|done].
  destruct (get k' other) as [v|] eqn:E; [|done].
  exfalso. apply Hk'. apply (get_elem_of other k' v Hnd) in E.
  unfold keys. apply list_elem_of_fmap. by exists (k', v).
Qed.

End DictFacts.

Section CacheKeyTheorems.
Import Json CacheKey.
Context {F : Type} {PF : PyFloat F}.
(** The printing of floats is one-to-one, and a printed float is made
    of the characters of a float literal, one of which no integer has. *)
Hypothesis float_repr_inj : ∀ x y : F, float_repr x = float_repr y → x = y.
Hypothesis float_repr_shape : ∀ x : F, float_shape (float_repr x) = true.

Lemma different_records (d1 d2 : pydict (json F)) :
  NoDup (keys d1) → NoDup (keys d2) → ¬ same_mapping d1 d2 →
  dumps d1 ≠ dumps d2
  ∧ (generate_cache_key d1 ≠ generate_cache_key d2
     ∨ collision (Sha256.utf8 (dumps d1)) (Sha256.utf8 (dumps d2))).
Proof.
  intros Hnd1 Hnd2 Hdiff.
  assert (dumps d1 ≠ dumps d2) as Hne.
  { intros E. apply Hdiff. by apply (dumps_inj float_repr_inj float_repr_shape). }
  split; [done|].
  destruct (decide (generate_cache_key d1 = generate_cache_key d2)) as [E|Hk];
    [right|by left].
  split; [|done]. intros E'. by apply utf8_inj in E'.
Qed.

(** C2. The key is a digest of 64 lower-case hexadecimal characters,
    taken of the record's items serialised in the order of their keys;
    it is the same for a record and for the same items inserted in
    another order; and records that differ as mappings have different
    serialisations, hence different keys unless SHA-256 collides on
    them. *)
Theorem generate_cache_key_deterministic (d1 d2 : pydict (json F)) :
  NoDup (keys d1) → NoDup (keys d2) →
  (String.length (generate_cache_key d1) = 64%nat
   ∧ all_chars lower_hex (generate_cache_key d1) = true)
  ∧ (Sorted key_le (sorted_items d1) ∧ sorted_items d1 ≡ₚ d1)
  ∧ (d1 ≡ₚ d2 →
     dumps d1 = dumps d2 ∧ generate_cache_key d1 = generate_cache_key d2)
  ∧ (¬ same_mapping d1 d2 →
     dumps d1 ≠ dumps d2
     ∧ (generate_cache_key d1 ≠ generate_cache_key d2
        ∨ collision (Sha256.utf8 (dumps d1)) (Sha256.utf8 (dumps d2)))).
Proof.
  intros Hnd1 Hnd2. split_and!.
  - apply hexdigest_shape.
  - apply hexdigest_shape.
  - apply Sorted_merge_sort, _.
  - apply merge_sort_Permutation.
  - intros Hp.
    assert (dumps d1 = dumps d2) as E
      by (unfold dumps; by rewrite (sorted_items_perm d1 d2 Hnd1 Hp)).
    split; [done|]. unfold generate_cache_key. by rewrite E.
  - by apply different_records.
Qed.

Context {CF : Spacecraft.Clock F}.


End CacheKeyTheorems.

Section CacheKeyExamples.
Import Json CacheKey.

Lemma str_app_inv_tail (a b t : string) : a +:+ t = b +:+ t → a = b.
Proof.
  revert b. induction a as [|c a IH]; intros [|d b] E; simpl in E.
  - done.
  - exfalso. apply (f_equal String.length) in E.
    simpl in E. rewrite str_length_app in E. lia.
  - exfalso. apply (f_equal String.length) in E.
    simpl in E. rewrite str_length_app in E. lia.
  - injection E as -> E. by rewrite (IH b E).
Qed.

Lemma all_chars_app (p : ascii → bool) (a b : string) :
  all_chars p (a +:+ b) = all_chars p a && all_chars p b.
Proof. induction a as [|c a IH]; simpl; [done|]. by rewrite IH, andb_assoc. Qed.

Lemma some_char_app (p : ascii → bool) (a b : string) :
  some_char p (a +:+ b) = some_char p a || some_char p b.
Proof. induction a as [|c a IH]; simpl; [done|]. by rewrite IH, orb_assoc. Qed.

Lemma whole_floats_inj (x y : Z) : float_repr x = float_repr y → x = y.
Proof. simpl. intros E. apply str_app_inv_tail in E. by apply pretty_Z_inj. Qed.

Lemma whole_floats_shape (x : Z) : float_shape (float_repr x) = true.
Proof.
  unfold float_shape. simpl. rewrite all_chars_app, some_char_app.
  rewrite (all_chars_weaken int_char float_char (pretty x)).
  - simpl. apply orb_true_r.
  - intros c Hc. unfold float_char. by rewrite Hc.
  - apply pretty_Z_chars.
Qed.

(** The same two options given in either order have one key. *)
Lemma generate_cache_key_deterministic_witness :
  generate_cache_key [("frame", JStr "HEEQ"); ("cache", JBool true)]
  = generate_cache_key heeq_call.
Proof.
  apply (generate_cache_key_deterministic whole_floats_inj whole_floats_shape
           [("frame", JStr "HEEQ"); ("cache", JBool true)] heeq_call).
  - repeat (apply NoDup_cons_2; [not_in_list|]). apply NoDup_nil_2.
  - repeat (apply NoDup_cons_2; [not_in_list|]). apply NoDup_nil_2.
  - apply Permutation_swap.
Defined.



End CacheKeyExamples.

(* ===================================================================== *)
(** ** More on the result cache *)
(* ===================================================================== *)

Section CacheEntries.
Import Caching.
Context {obj : Type} `{Pickle obj}.
Variable cache_path : string.

Lemma exists_set_other (k k' : string) (o : obj) (fs : cache_dir) :
  cache_file cache_path k ≠ cache_file cache_path k' →
  cache_entry_exists cache_path k' (set_cache_entry cache_path k o fs)
  = cache_entry_exists cache_path k' fs.
Proof.
  intros Hne. unfold cache_entry_exists, set_cache_entry. simpl.
  by rewrite lookup_insert_ne.
Qed.

Lemma get_set_other (k k' : string) (o : obj) (fs : cache_dir) :
  cache_file cache_path k ≠ cache_file cache_path k' →
  get_cache_entry cache_path k' (set_cache_entry cache_path k o fs)
  = get_cache_entry cache_path k' fs.
Proof.
  intros Hne. unfold get_cache_entry. rewrite exists_set_other by done.
  unfold set_cache_entry. simpl. by rewrite lookup_insert_ne.
Qed.

Lemma exists_delete_other (k k' : string) (fs : cache_dir) :
  cache_file cache_path k ≠ cache_file cache_path k' →
  cache_entry_exists cache_path k' (delete_cache_entry cache_path k fs).1
  = cache_entry_exists cache_path k' fs.
Proof.
  intros Hne. unfold delete_cache_entry.
  destruct (cache_entry_exists cache_path k fs); simpl; [|done].
  unfold cache_entry_exists. simpl. by rewrite lookup_delete_ne.
Qed.

Lemma get_delete_other (k k' : string) (fs : cache_dir) :
  cache_file cache_path k ≠ cache_file cache_path k' →
  get_cache_entry cache_path k' (delete_cache_entry cache_path k fs).1
  = get_cache_entry cache_path k' fs.
Proof.
  intros Hne. unfold get_cache_entry. rewrite exists_delete_other by done.
  unfold delete_cache_entry.
  destruct (cache_entry_exists cache_path k fs); simpl; [|done].
  by rewrite lookup_delete_ne.
Qed.




End CacheEntries.

(* ===================================================================== *)
(** ** [get_data]: options, cache and frame *)
(* ===================================================================== *)

Section DictRemoval.
Import Json.
Context {V : Type}.

Lemma get_not_key (k : string) (d : pydict V) : k ∉ keys d → get k d = None.
Proof.
  induction d as [|[k' v'] d IH]; simpl; [done|]. intros Hk.
  apply not_elem_of_cons in Hk as [Hne Hk].
  destruct (decide (k = k')); [done|]. by apply IH.
Qed.

Lemma get_is_key (k : string) (v : V) (d : pydict V) : get k d = Some v → k ∈ keys d.
Proof.
  induction d as [|[k' v'] d IH]; simpl; [done|].
  destruct (decide (k = k')) as [->|Hne]; [intros _; by left|].
  intros E. right. by apply IH.
Qed.

(** Filtering on the keys. *)
Lemma get_filter (q : string → bool) (k : string) (d : list (string * V)) :
  get k (filter (λ kv, q kv.1 = true) d) = if q k then get k d else None.
Proof.
  induction d as [|[k' v'] d IH]; [simpl; by destruct (q k)|].
  rewrite filter_cons. simpl. destruct (decide (q k' = true)) as [Hq|Hq]; simpl.
  - destruct (decide (k = k')) as [->|Hne]; [by rewrite Hq|done].
  - destruct (decide (k = k')) as [->|Hne]; [|done].
    rewrite IH. by destruct (q k').
Qed.

Lemma keys_filter (q : string → bool) (d : list (string * V)) :
  keys (filter (λ kv, q kv.1 = true) d) = filter (λ k, q k = true) (keys d).
Proof.
  unfold keys. induction d as [|[k' v'] d IH]; [done|].
  change (map fst ((k', v') :: d)) with (k' :: map fst d).
  rewrite !filter_cons. simpl.
  destruct (decide (q k' = true)); simpl; by rewrite IH.
Qed.

Lemma remove_absent (k : string) (d : pydict V) : k ∉ keys d → remove k d = d.
Proof.
  induction d as [|[k' v'] d IH]; simpl; [done|]. intros Hk.
  apply not_elem_of_cons in Hk as [Hne Hk].
  destruct (decide (k = k')); [done|]. by rewrite IH.
Qed.

Lemma remove_middle (k : string) (v : V) (kept todo : pydict V) :
  k ∉ keys kept → remove k (kept ++ (k, v) :: todo) = kept ++ todo.
Proof.
  induction kept as [|[k' v'] kept IH]; simpl; intros Hk.
  - by destruct (decide (k = k)).
  - apply not_elem_of_cons in Hk as [Hne Hk].
    destruct (decide (k = k')); [done|]. by rewrite IH.
Qed.

Lemma get_middle (k : string) (v : V) (kept todo : pydict V) :
  k ∉ keys kept → get k (kept ++ (k, v) :: todo) = Some v.
Proof.
  induction kept as [|[k' v'] kept IH]; simpl; intros Hk.
  - by destruct (decide (k = k)).
  - apply not_elem_of_cons in Hk as [Hne Hk].
    destruct (decide (k = k')); [done|]. by apply IH.
Qed.

Lemma get_remove (k k' : string) (d : pydict V) :
  NoDup (keys d) →
  get k (remove k' d) = if decide (k = k') then None else get k d.
Proof.
  induction d as [|[k0 v0] d IH]; intros Hnd; simpl.
  - by destruct (decide (k = k')).
  - apply NoDup_cons in Hnd as [Hk0 Hnd].
    destruct (decide (k' = k0)) as [->|Hne].
    + destruct (decide (k = k0)) as [->|Hne']; [by apply get_not_key|done].
    + simpl. rewrite (IH Hnd).
      destruct (decide (k = k0)) as [->|Hne']; [|done].
      destruct (decide (k0 = k')); [congruence|done].
Qed.

Lemma keys_remove_sublist (k : string) (d : pydict V) :
  sublist (keys (remove k d)) (keys d).
Proof.
  unfold keys. induction d as [|[k0 v0] d IH]; simpl; [done|].
  destruct (decide (k = k0)); simpl.
  - by apply sublist_cons.
  - by apply sublist_skip.
Qed.

Lemma NoDup_remove (k : string) (d : pydict V) :
  NoDup (keys d) → NoDup (keys (remove k d)).
Proof. intros Hnd. apply (sublist_NoDup _ _ Hnd), keys_remove_sublist. Qed.

(** [pop] with a default, on a dict. *)
Lemma pop_default_spec (k : string) (dflt : V) (d : pydict V) :
  pop_default k dflt d = (default dflt (get k d), remove k d).
Proof.
  unfold pop_default. destruct (get k d) as [v|] eqn:E; [done|].
  simpl. rewrite remove_absent; [done|].
  intros Hin. unfold keys in Hin. apply list_elem_of_fmap in Hin as ([k' v] & -> & Hin).
  clear -E Hin. induction d as [|[k0 v0] d IH]; [by apply elem_of_nil in Hin|].
  simpl in E. destruct (decide (k' = k0)) as [->|Hne]; [done|].
  apply elem_of_cons in Hin as [[= -> ->]|Hin]; [done|]. by apply IH.
Qed.

End DictRemoval.

Section OptionFacts.
Import Json GetData.
Context {F : Type}.

Lemma move_smoothing_spec (todo kept sd : list (string * json F)) :
  NoDup (keys (kept ++ todo)) →
  move_smoothing (keys todo) (kept ++ todo) sd
  = Ok (kept ++ filter (λ kv, negb (PyStr.contains "smoothing" kv.1) = true) todo,
        update sd (filter (λ kv, PyStr.contains "smoothing" kv.1 = true) todo)).
Proof.
  revert kept sd. induction todo as [|[k v] todo IH]; intros kept sd Hnd; [done|].
  assert (k ∉ keys kept) as Hk.
  { unfold keys in *. rewrite map_app in Hnd. apply NoDup_app in Hnd as (_ & Hd & _).
    intros Hin. apply (Hd k Hin). by left. }
  change (keys ((k, v) :: todo)) with (k :: keys todo).
  cbn [move_smoothing]. rewrite !filter_cons. cbn [fst].
  destruct (PyStr.contains "smoothing" k) eqn:Hs.
  - unfold pop. rewrite get_middle, remove_middle by done. rewrite bind_Ok. cbn [fst snd].
    rewrite IH; last first.
    { unfold keys in *. rewrite map_app in *. simpl in Hnd.
      apply NoDup_app in Hnd as (Hn1 & Hd & Hn2). apply NoDup_cons in Hn2 as [_ Hn2].
      apply NoDup_app. split_and!; [done| |done].
      intros x Hx Hx'. apply (Hd x Hx). by right. }
    simpl. destruct (decide (false = true)); [done|].
    destruct (decide (true = true)); done.
  - replace (kept ++ (k, v) :: todo) with ((kept ++ [(k, v)]) ++ todo)
      by (by rewrite <- app_assoc).
    rewrite IH by (by rewrite <- app_assoc).
    simpl. destruct (decide (true = true)); [|done].
    destruct (decide (false = true)); [done|]. by rewrite <- app_assoc.
Qed.

(** The head of [get_data] on a dict of options: it never fails, and
    every option goes one way. *)
Lemma read_options_spec (kwargs : pydict (json F)) :
  NoDup (keys kwargs) →
  ∃ o, read_options kwargs = Ok o
    ∧ cache o = default (JBool false) (get "cache" kwargs)
    ∧ frame_to o = default JNull (get "frame" kwargs)
    ∧ smoothing o = default JNull (get "smoothing" kwargs)
    ∧ NoDup (keys (raw_kwargs o))
    ∧ (∀ k, get k (raw_kwargs o)
            = if decide (k = "cache" ∨ k = "frame")
              then None
              else if PyStr.contains "smoothing" k then None else get k kwargs)
    ∧ (∀ k, get k (smoothing_dict o)
            = if decide (k = "smoothing")
              then Some (default JNull (get "smoothing" kwargs))
              else if PyStr.contains "smoothing" k then get k kwargs else None).
Proof.
  intros Hnd. unfold read_options. rewrite pop_default_spec.
  rewrite pop_default_spec.
  set (kw := remove "frame" (remove "cache" kwargs)).
  assert (NoDup (keys kw)) as Hkw by (by apply NoDup_remove, NoDup_remove).
  assert (∀ k, get k kw = if decide (k = "cache" ∨ k = "frame") then None
                          else get k kwargs) as Hget.
  { intros k. unfold kw. rewrite get_remove by (by apply NoDup_remove).
    rewrite get_remove by done.
    destruct (decide (k = "frame")) as [->|Hf].
    - by destruct (decide _) as [_|Hn]; [|exfalso; apply Hn; by right].
    - destruct (decide (k = "cache")) as [->|Hc].
      + by destruct (decide _) as [_|Hn]; [|exfalso; apply Hn; by left].
      + by destruct (decide _) as [[?|?]|_]. }
  pose proof (move_smoothing_spec kw [] [("smoothing", default JNull (get "smoothing" kw))] Hkw)
    as Hmove.
  cbn [app] in Hmove. rewrite Hmove, bind_Ok. cbn [fst snd]. eexists. split; [done|].
  cbn [cache frame_to smoothing raw_kwargs smoothing_dict].
  assert (get "smoothing" kw = get "smoothing" kwargs) as Hsm.
  { rewrite Hget. by destruct (decide _) as [[?|?]|_]. }
  split_and!; try done.
  - rewrite get_remove by done. by destruct (decide _).
  - by rewrite Hsm.
  - rewrite (keys_filter (λ k, negb (PyStr.contains "smoothing" k))).
    by apply NoDup_filter.
  - intros k. rewrite (get_filter (λ k, negb (PyStr.contains "smoothing" k))), Hget.
    destruct (decide _); destruct (PyStr.contains "smoothing" k); done.
  - intros k. rewrite get_update; last first.
    { rewrite (keys_filter (λ k, PyStr.contains "smoothing" k)). by apply NoDup_filter. }
    rewrite (get_filter (λ k, PyStr.contains "smoothing" k)), Hsm. simpl.
    destruct (decide (k = "smoothing")) as [->|Hne].
    + change (PyStr.contains "smoothing" "smoothing") with true. cbv iota.
      rewrite Hsm. by destruct (get "smoothing" kwargs).
    + rewrite Hget. destruct (PyStr.contains "smoothing" k) eqn:Hs; [|done].
      destruct (decide (k = "cache" ∨ k = "frame")) as [[->| ->]|_]; [done..|].
      by destruct (get k kwargs).
Qed.

End OptionFacts.

Section GetDataFacts.
Import Json Datetime Caching CacheKey GetData.
Context {F : Type} {PF : PyFloat F} {CF : Spacecraft.Clock F}.
Context {T D W : Type} {PK : Pickle (T * D)}.
Variable cache_path : string.

(** The cache flag that [get_data] pops is the one the key is made
    for. *)
Lemma read_options_cache (kwargs : pydict (json F)) (o : options) :
  read_options kwargs = Ok o →
  truthy (cache o) = cache_enabled kwargs
  ∧ frame_to o = default JNull (get "frame" (remove "cache" kwargs)).
Proof.
  unfold read_options. rewrite !pop_default_spec.
  destruct (move_smoothing _ _ _) as [moved|e]; [|done].
  rewrite bind_Ok. intros [= <-]. cbn [cache frame_to]. split; [|done].
  unfold cache_enabled. by destruct (get "cache" kwargs).
Qed.

(** X4. Each option of a call other than [cache] and [frame] reaches
    exactly one callee with its value: [smooth_data] if its name
    contains ["smoothing"], [get_data_raw] if not; [cache] and [frame]
    reach neither, and [smooth_data] is given [smoothing=None] when the
    call has no such option. *)
Theorem get_data_sorts_options (kwargs : pydict (json F)) :
  NoDup (keys kwargs) →
  ∃ o, read_options kwargs = Ok o
    ∧ (∀ k v, get k kwargs = Some v → k ≠ "cache" → k ≠ "frame" →
         if PyStr.contains "smoothing" k
         then get k (smoothing_dict o) = Some v ∧ get k (raw_kwargs o) = None
         else get k (raw_kwargs o) = Some v ∧ get k (smoothing_dict o) = None)
    ∧ (∀ k, get k kwargs = None →
         get k (raw_kwargs o) = None
         ∧ get k (smoothing_dict o)
           = if decide (k = "smoothing") then Some JNull else None)
    ∧ get "cache" (raw_kwargs o) = None ∧ get "cache" (smoothing_dict o) = None
    ∧ get "frame" (raw_kwargs o) = None ∧ get "frame" (smoothing_dict o) = None.
Proof.
  intros Hnd.
  destruct (read_options_spec kwargs Hnd)
    as (o & Ho & _ & _ & _ & _ & Hraw & Hsd).
  exists o. split; [done|]. split_and!.
  - intros k v Hk Hc Hf. rewrite Hraw, Hsd.
    destruct (decide (k = "cache" ∨ k = "frame")) as [[?|?]|_]; [done..|].
    destruct (PyStr.contains "smoothing" k) eqn:Hs.
    + split; [|done]. destruct (decide (k = "smoothing")) as [->|_]; [|done].
      by rewrite Hk.
    + split; [done|]. destruct (decide (k = "smoothing")) as [->|_]; done.
  - intros k Hk. rewrite Hraw, Hsd. split.
    + destruct (decide _); [done|]. by destruct (PyStr.contains "smoothing" k).
    + destruct (decide (k = "smoothing")) as [->|_]; [by rewrite Hk|].
      by destruct (PyStr.contains "smoothing" k).
  - by rewrite Hraw.
  - by rewrite Hsd.
  - by rewrite Hraw.
  - by rewrite Hsd.
Qed.

Section Externals.
Context {E : Externals F T D W}.
Variable data : gmap string (product F).


End Externals.

(** X6. A successful call with caching enabled is repeated from the
    cache: any later call with the same arguments returns the same pair
    without changing the cache or the world, whatever [get_data_raw],
    [smooth_data], [transform_frame] and the registry then are. *)
Theorem get_data_served_from_cache (E1 E2 : Externals F T D W)
    (data1 data2 : gmap string (product F)) (name : string)
    (t : list datetime) (data_key : string) (kwargs : pydict (json F))
    (fs fs' : cache_dir) (w w' w2 : W) (v : T * D) :
  (∀ o : T * D, pickle_load (pickle_dump o) = Ok o) →
  cache_enabled kwargs = true →
  get_data (H2 := E1) cache_path data1 name t data_key kwargs fs w = (fs', w', Ok v) →
  get_data (H2 := E2) cache_path data2 name t data_key kwargs fs' w2 = (fs', w2, Ok v).
Proof.
  intros Hpickle Hc. unfold get_data.
  set (key := generate_cache_key (identifier name data_key t kwargs)).
  destruct (decide _) as [_|_]; [done|].
  destruct (read_options kwargs) as [o|e] eqn:Ho; [|done].
  destruct (read_options_cache _ _ Ho) as [-> _]. rewrite Hc. cbn [andb].
  destruct (cache_entry_exists cache_path key fs) eqn:Hx.
  - intros [= <- <- Hv]. by rewrite Hx, Hv.
  - destruct (processed data1 o t data_key w) as [w1 [[time data_]|e]];
      [|done].
    cbn [negb]. intros [= <- <- <-].
    rewrite (exists_set cache_path). by rewrite (get_set cache_path Hpickle).
Qed.

End GetDataFacts.

Section FrameFacts.
Import Json Datetime Caching CacheKey GetData.
Context {F : Type} {PF : PyFloat F} {CF : Spacecraft.Clock F}.
Context {T D W : Type} {PK : Pickle (T * D)} {E : Externals F T D W}.
Variable cache_path : string.
Variable data : gmap string (product F).

Lemma in_frame_undefined (o : options) (data_key : string) (p : product F)
    (time : T) (data_ : D) (w : W) :
  truthy (frame_to o) = true → data !! data_key = Some p → frame p = None →
  in_frame data o data_key time data_ w = (w, Raise KeyError).
Proof.
  intros Hf Hp Hnone. unfold in_frame, frame_defined, frame_missing, lookup_product.
  rewrite Hf, Hp, !bind_Ok, Hnone. by simpl.
Qed.

Lemma processed_undefined (o : options) (t : list datetime) (data_key : string)
    (p : product F) (w : W) :
  truthy (frame_to o) = true → data !! data_key = Some p → frame p = None →
  is_ok (processed data o t data_key w).2 = false.
Proof.
  intros Hf Hp Hnone. unfold processed. destruct t as [|t0 t]; [done|].
  destruct (decide _); [done|].
  destruct (get_data_raw _ _ _ _ _) as [w1 [[time data_]|e]]; [|done].
  destruct (if truthy (smoothing o) then _ else _) as [w2 [[time' data']|e]]; [|done].
  by rewrite (in_frame_undefined _ _ p).
Qed.

(** X7. A call that asks for a frame, for a product that has no
    reference frame in the registry, never returns unless the cache
    answers: it raises, and writes nothing to the cache. The raw data are
    fetched all the same: when [get_data_raw] returns and no smoothing is
    asked for, the exception is [KeyError] and the world is as
    [get_data_raw] left it. *)
Theorem get_data_frame_undefined (name : string) (t : list datetime)
    (data_key : string) (kwargs : pydict (json F)) (fs : cache_dir) (w : W)
    (p : product F) :
  NoDup (keys kwargs) →
  Forall (λ k, k ∉ keys kwargs)
    ["self"; "t"; "data_key"; "range_start"; "range_end"] →
  truthy (default JNull (get "frame" kwargs)) = true →
  data !! data_key = Some p → frame p = None →
  let key := generate_cache_key (identifier name data_key t kwargs) in
  let out := get_data cache_path data name t data_key kwargs fs w in
  cache_enabled kwargs && cache_entry_exists cache_path key fs = false →
  is_ok out.2 = false
  ∧ out.1.1 = fs
  ∧ ∃ o, read_options kwargs = Ok o
      ∧ ∀ t0 rest w1 time data_,
          t = t0 :: rest →
          get_data_raw t0 (List.last t t0) data_key (raw_kwargs o) w
          = (w1, Ok (time, data_)) →
          truthy (smoothing o) = false →
          out = (fs, w1, Raise KeyError).
Proof.
  intros Hnd Hres Hframe Hp Hnone key out Hmiss.
  apply Forall_cons in Hres as [Hself Hres]. apply Forall_cons in Hres as [Ht Hres].
  apply Forall_cons in Hres as [Hdk Hres]. apply Forall_cons in Hres as [Hrs Hres].
  apply Forall_cons in Hres as [Hre _].
  destruct (read_options_spec kwargs Hnd)
    as (o & Ho & Hcache & Hfr & Hsm & Hndraw & Hraw & _).
  destruct (read_options_cache _ _ Ho) as [Hc _].
  assert (truthy (frame_to o) = true) as Hf by (by rewrite Hfr).
  assert (∀ k, k ∉ keys kwargs → k ∉ keys (raw_kwargs o)) as Hkeys.
  { intros k Hk Hin.
    destruct (get k (raw_kwargs o)) as [v|] eqn:Hg.
    - rewrite Hraw in Hg. destruct (decide _); [done|].
      destruct (PyStr.contains "smoothing" k); [done|].
      by apply get_is_key in Hg.
    - unfold keys in Hin. apply list_elem_of_fmap in Hin as ([k' v] & -> & Hin).
      apply (get_elem_of _ _ _ Hndraw) in Hin. simpl in Hg. congruence. }
  unfold out, get_data. fold key.
  destruct (decide _) as [[?|[?|?]]|_]; [done..|].
  rewrite Ho, Hc, Hmiss.
  pose proof (processed_undefined o t data_key p w Hf Hp Hnone) as Hproc.
  split_and!.
  - by destruct (processed data o t data_key w) as [w' [[time data_]|e]].
  - by destruct (processed data o t data_key w) as [w' [[time data_]|e]].
  - exists o. split; [done|]. intros t0 rest w1 time data_ -> Hrawcall Hsmooth.
    unfold processed. destruct (decide _) as [[?|?]|_].
    + by apply Hkeys in Hrs.
    + by apply Hkeys in Hre.
    + rewrite Hrawcall, Hsmooth. by rewrite (in_frame_undefined _ _ p).
Qed.

End FrameFacts.

(* ===================================================================== *)
(** ** [get_data_raw]: the columns handed to the readers *)
(* ===================================================================== *)

Section ReadArgumentsFacts.
Import Spacecraft ReadArguments.

Lemma call_spec (data_key : string) (extra : option (list selector)) (st : store)
    (p : product) (l : loc) (cols : list selector) :
  data st !! data_key = Some p → columns p = Some l → lists st !! l = Some cols →
  call data_key extra st
  = ({| data := data st;
        lists := <[l := cols ++ default [] extra]> (lists st) |},
     Ok (Some (cols ++ default [] extra))).
Proof.
  intros Hp Hl Hcols. unfold call, kwargs_read. rewrite Hp. cbv zeta.
  destruct p as [c]. simpl in Hl. subst c. unfold columns_read.
  destruct extra as [extra|]; simpl.
  - rewrite lookup_alter_eq, Hcols. simpl.
    do 2 f_equal. apply map_eq. intros l'.
    destruct (decide (l' = l)) as [->|Hne].
    + by rewrite lookup_alter_eq, lookup_insert_eq, Hcols.
    + by rewrite lookup_alter_ne, lookup_insert_ne.
  - rewrite Hcols, app_nil_r. rewrite insert_id by done. by destruct st.
Qed.

(** X8. The columns of a product grow with every call that passes
    [extra_columns]: the list extended is the registry's own, so the
    readers of a call are given the columns of the registry, the extra
    columns of every earlier call of the process for that product, and
    then its own; a later call without the option still reads them
    all. *)
Theorem extra_columns_accumulate (data_key : string)
    (extras : list (option (list selector))) (extra : option (list selector))
    (st : store) (p : product) (l : loc) (cols : list selector) :
  data st !! data_key = Some p → columns p = Some l → lists st !! l = Some cols →
  (call data_key extra (calls data_key extras st)).2
  = Ok (Some (cols ++ concat (map (default []) extras) ++ default [] extra)).
Proof.
  revert st cols. induction extras as [|ex extras IH]; intros st cols Hp Hl Hcols.
  - simpl. by rewrite (call_spec _ _ _ p l cols).
  - change (calls data_key (ex :: extras) st)
      with (calls data_key extras (call data_key ex st).1).
    rewrite (call_spec _ ex _ p l cols) by done. cbn [fst].
    rewrite (IH _ (cols ++ default [] ex)); cbn [data lists].
    + cbn [map concat]. by rewrite <- !app_assoc.
    + done.
    + done.
    + by rewrite lookup_insert_eq.
Qed.

End ReadArgumentsFacts.

(* ===================================================================== *)
(** ** [get_data_files]: the lists of URLs and of files *)
(* ===================================================================== *)

Section FileListFacts.
Import DataFiles.
Context {W : Type} {SP : Urls.UtilStrptime} {SY : System W}.

Lemma remove_first_middle (x : string) (kept rest : list string) :
  x ∉ kept → remove_first x (kept ++ x :: rest) = Ok (kept ++ rest).
Proof.
  induction kept as [|y kept IH]; intros Hx; simpl.
  - by destruct (decide (x = x)).
  - apply not_elem_of_cons in Hx as [Hne Hx].
    destruct (decide (x = y)); [done|]. by rewrite IH.
Qed.

Lemma skip_extracted_gen (data_path : string) (w : W)
    (copy kept files_extracted : list string) :
  Forall (λ u, already_extracted data_path w u = false) kept →
  skip_extracted data_path copy (kept ++ copy) files_extracted w
  = Ok (kept ++ filter (λ u, already_extracted data_path w u = false) copy,
        files_extracted
        ++ map (extracted_path data_path)
             (filter (λ u, already_extracted data_path w u = true) copy)).
Proof.
  revert kept files_extracted.
  induction copy as [|url copy IH]; intros kept files_extracted Hkept.
  - simpl. by rewrite !app_nil_r.
  - cbn [skip_extracted]. rewrite !filter_cons.
    destruct (already_extracted data_path w url) eqn:Hurl.
    + unfold already_extracted, archive, extracted_path in Hurl.
      apply andb_true_iff in Hurl as [Hgz Hex]. rewrite Hgz, Hex.
      rewrite remove_first_middle; last first.
      { intros Hin. rewrite Forall_forall in Hkept. specialize (Hkept _ Hin).
        unfold already_extracted, archive, extracted_path in Hkept.
        apply andb_false_iff in Hkept as [?|?]; congruence. }
      rewrite bind_Ok, (IH kept) by done.
      destruct (decide (true = false)); [done|]. destruct (decide (true = true)); [|done].
      cbn [map]. by rewrite <- app_assoc.
    + assert (skip_extracted data_path copy (kept ++ url :: copy) files_extracted w
              = skip_extracted data_path copy ((kept ++ [url]) ++ copy)
                  files_extracted w) as Hstep by (by rewrite <- app_assoc).
      destruct (decide (false = false)); [|done]. destruct (decide (false = true)); [done|].
      assert (Forall (λ u, already_extracted data_path w u = false) (kept ++ [url]))
        as Hkept' by (apply Forall_app; split; [done|by apply Forall_singleton]).
      unfold already_extracted, archive, extracted_path in Hurl.
      destruct (PyStr.endswith ".gz" url); cbn [andb] in Hurl.
      * rewrite Hurl, Hstep, IH by done. by rewrite <- app_assoc.
      * rewrite Hstep, IH by done. by rewrite <- app_assoc.
Qed.

Lemma extract_archives_gen (copy kept extracted : list string) (w : W) :
  Forall (λ f, archive f = false) kept →
  extract_archives copy (kept ++ copy ++ extracted) w
  = let '(w', r) := extract_each (filter (λ f, archive f = true) copy) w in
    (w', _ ← r;
         Ok (kept ++ filter (λ f, archive f = false) copy
             ++ extracted ++ map stem (filter (λ f, archive f = true) copy))).
Proof.
  revert kept extracted w.
  induction copy as [|file copy IH]; intros kept extracted w Hkept.
  - simpl. by rewrite app_nil_r.
  - cbn [extract_archives]. rewrite !filter_cons. fold (archive file).
    destruct (archive file) eqn:Hfile.
    + destruct (decide (true = true)) as [_|?]; [|done].
      destruct (decide (true = false)) as [?|_]; [done|].
      cbn [extract_each map].
      destruct (gunzip file (stem file) w) as [w1 [[]|e]]; [|done].
      destruct (os_remove file w1) as [w2 [[]|e]]; [|done].
      change ((file :: copy) ++ extracted) with (file :: copy ++ extracted).
      rewrite remove_first_middle; last first.
      { intros Hin. rewrite Forall_forall in Hkept. specialize (Hkept _ Hin). congruence. }
      rewrite <- !app_assoc. rewrite (IH kept (extracted ++ [stem file]) w2 Hkept).
      destruct (extract_each _ w2) as [w3 r]. by rewrite <- !app_assoc.
    + destruct (decide (false = true)) as [?|_]; [done|].
      destruct (decide (false = false)) as [_|?]; [|done].
      change (kept ++ (file :: copy) ++ extracted)
        with (kept ++ file :: copy ++ extracted).
      replace (kept ++ file :: copy ++ extracted)
        with ((kept ++ [file]) ++ copy ++ extracted) by (by rewrite <- app_assoc).
      rewrite IH.
      * destruct (extract_each _ w) as [w3 r]. by rewrite <- !app_assoc.
      * apply Forall_app. split; [done|]. by apply Forall_singleton.
Qed.

(** The two loops of [get_data_files] that change the list they walk
    through amount to filters. The first takes out of [urls] the
    archives whose extracted file exists, each occurrence of them, and
    lists the extracted paths in the order of the URLs; it never raises.
    The second extracts the archives in the order of the list and
    returns the other files in their order, followed by the names of the
    extracted files. *)
Lemma skip_extracted_filter (data_path : string) (urls : list string) (w : W) :
  skip_extracted data_path urls urls [] w
  = Ok (filter (λ u, already_extracted data_path w u = false) urls,
        map (extracted_path data_path)
          (filter (λ u, already_extracted data_path w u = true) urls)).
Proof. by apply (skip_extracted_gen data_path w urls [] []). Qed.

Lemma extract_archives_filter (files : list string) (w : W) :
  extract_archives files files w
  = let '(w', r) := extract_each (filter (λ f, archive f = true) files) w in
    (w', _ ← r;
         Ok (filter (λ f, archive f = false) files
             ++ map stem (filter (λ f, archive f = true) files))).
Proof.
  pose proof (extract_archives_gen files [] [] w (Forall_nil_2 _)) as Hgen.
  cbn [app] in Hgen. rewrite app_nil_r in Hgen. apply Hgen.
Qed.

Variable data_root : string.
Variable spacecraft : Registry.descriptor.
Variable data : gmap string product.


End FileListFacts.

Section NameFacts.
Import DataFiles.

Lemma split_not_nil (sep : ascii) (s : string) : PyStr.split sep s ≠ [].
Proof.
  destruct s as [|c s]; simpl; [done|].
  destruct (decide (c = sep)); [done|]. by destruct (PyStr.split sep s).
Qed.

Lemma split_app (sep : ascii) (a b : string) :
  PyStr.split sep (a +:+ String sep b) = PyStr.split sep a ++ PyStr.split sep b.
Proof.
  induction a as [|c a IH]; simpl.
  - by destruct (decide (sep = sep)).
  - destruct (decide (c = sep)); [by rewrite IH|].
    rewrite IH. pose proof (split_not_nil sep a).
    by destruct (PyStr.split sep a).
Qed.

(** Joining the pieces with the separator gives the string back. *)
Lemma join_split (sep : ascii) (s : string) :
  PyStr.join (String sep "") (PyStr.split sep s) = s.
Proof.
  induction s as [|c s IH]; [done|]. cbn [PyStr.split].
  pose proof (split_not_nil sep s) as Hne.
  destruct (decide (c = sep)) as [->|_].
  - destruct (PyStr.split sep s) as [|p ps] eqn:E; [done|].
    cbn [PyStr.join]. cbn [PyStr.join] in IH. rewrite IH. done.
  - destruct (PyStr.split sep s) as [|p ps] eqn:E; [done|].
    cbn [PyStr.join] in *. destruct ps as [|q ps]; simpl; by rewrite <- IH.
Qed.

Lemma split_no_separator (sep : ascii) (s : string) :
  PyStr.contains (String sep "") s = false → PyStr.split sep s = [s].
Proof.
  induction s as [|c s IH]; [done|]. cbn [PyStr.contains PyStr.startswith].
  intros Hc. apply orb_false_iff in Hc as [Hhead Htail].
  cbn [PyStr.split]. destruct (decide (c = sep)) as [->|_].
  - destruct (decide (sep = sep)); [|done]. by destruct s.
  - by rewrite IH.
Qed.

Lemma contains_app_char (sep : ascii) (a b : string) :
  PyStr.contains (String sep "") a = false →
  PyStr.contains (String sep "") b = false →
  PyStr.contains (String sep "") (a +:+ b) = false.
Proof.
  intros Ha Hb. induction a as [|c a IH]; [done|].
  cbn [PyStr.contains PyStr.startswith] in Ha.
  apply orb_false_iff in Ha as [Hhead Htail].
  change (String c a +:+ b) with (String c (a +:+ b)).
  cbn [PyStr.contains PyStr.startswith]. apply orb_false_iff. split; [|by apply IH].
  destruct (decide (sep = c)); [|done]. by destruct a.
Qed.

Lemma str_app_assoc (a b c : string) : (a +:+ b) +:+ c = a +:+ b +:+ c.
Proof. induction a as [|x a IH]; [done|]. simpl. by rewrite IH. Qed.

Lemma basename_app (dir name : string) :
  PyStr.contains "/" name = false → basename (dir +:+ "/" +:+ name) = name.
Proof.
  intros Hname. unfold basename.
  change (dir +:+ "/" +:+ name) with (dir +:+ String "/" name).
  rewrite split_app, (split_no_separator _ name Hname). apply List.last_last.
Qed.

Lemma stem_app (name suffix : string) :
  PyStr.contains "." suffix = false → stem (name +:+ "." +:+ suffix) = name.
Proof.
  intros Hs. unfold stem.
  change (name +:+ "." +:+ suffix) with (name +:+ String "." suffix).
  rewrite split_app, (split_no_separator _ suffix Hs).
  rewrite removelast_last. apply join_split.
Qed.

(** X10. Names of files. Joining with ["."] what [split(".")] gave
    restores a name. For a URL [dir/name] whose [name] has no slash, the
    file is looked for under [name]; for an archive [name.gz], the
    extracted file is [name], with whatever dots [name] has; so the
    archive behind [dir/name.gz] is extracted to [name]. *)
Theorem archive_names (dir name : string) :
  PyStr.contains "/" name = false →
  PyStr.join "." (PyStr.split "." name) = name
  ∧ basename (dir +:+ "/" +:+ name) = name
  ∧ stem (name +:+ ".gz") = name
  ∧ stem (basename (dir +:+ "/" +:+ name +:+ ".gz")) = name
  ∧ PyStr.endswith ".gz" (dir +:+ "/" +:+ name +:+ ".gz") = true.
Proof.
  intros Hname. split_and!.
  - apply join_split.
  - by apply basename_app.
  - by apply (stem_app name "gz").
  - rewrite basename_app.
    + by apply (stem_app name "gz").
    + by apply contains_app_char.
  - replace (dir +:+ "/" +:+ name +:+ ".gz") with ((dir +:+ "/" +:+ name) +:+ ".gz")
      by (by rewrite !str_app_assoc).
    apply endswith_app.
Qed.

End NameFacts.

(* ===================================================================== *)
(** ** Dates read back from their ordinals *)
(* ===================================================================== *)

Section CalendarInverse.
Import Datetime.

Lemma month_day_back_ok (leap : bool) (m d : Z) :
  1 ≤ m ≤ 12 → 1 ≤ d ≤ DAYS_IN_MONTH m + (if (m =? 2) && leap then 1 else 0) →
  let n := DAYS_BEFORE_MONTH m + (if (2 <? m) && leap then 1 else 0) + d - 1 in
  month_day n leap = (m, d) ∧ 0 ≤ n < 365 + (if leap then 1 else 0)
  ∧ (n < 365 ∨ (m = 12 ∧ d = 31)).
Proof.
  intros Hm Hd n.
  assert (all_dates leap = true) as Hall by (destruct leap; vm_compute; reflexivity).
  unfold all_dates in Hall.
  pose proof (all_below_spec 12 1 _ Hall m ltac:(lia)) as Hmonth. cbv beta in Hmonth.
  assert (d ≤ 31) as Hd31 by (destruct leap; each_month m; simpl in Hd; lia).
  assert (0 ≤ n) as Hn0 by (unfold n; destruct leap; each_month m; simpl; lia).
  pose proof (all_below_spec 31 1 _ Hmonth d ltac:(lia)) as Hday. cbv beta in Hday.
  unfold month_day_back in Hday. fold n in Hday.
  apply orb_true_iff in Hday as [Hday|Hday].
  - apply negb_true_iff, Z.leb_gt in Hday. lia.
  - destruct (month_day n leap) as [m' d'].
    apply andb_true_iff in Hday as [Hday Hlast].
    apply andb_true_iff in Hday as [Hday Hn].
    apply andb_true_iff in Hday as [Hm' Hd'].
    apply Z.eqb_eq in Hm', Hd'. apply Z.ltb_lt in Hn. subst.
    split; [reflexivity|]. split; [lia|].
    apply orb_true_iff in Hlast as [Hlast|Hlast].
    + left. by apply Z.ltb_lt in Hlast.
    + right. apply andb_true_iff in Hlast as [H1 H2].
      apply Z.eqb_eq in H1, H2. by split.
Qed.

(** Every year is [400 q + 100 a + 4 b + c + 1]. *)
Lemma year_split (y : Z) :
  ∃ q a b c, y = q * 400 + 1 + a * 100 + b * 4 + c
    ∧ 0 ≤ a ≤ 3 ∧ 0 ≤ b ≤ 24 ∧ 0 ≤ c ≤ 3.
Proof.
  exists ((y - 1) / 400), ((y - 1) mod 400 / 100), ((y - 1) mod 400 mod 100 / 4),
    ((y - 1) mod 400 mod 100 mod 4).
  pose proof (Z.div_mod (y - 1) 400 ltac:(lia)) as E1.
  pose proof (Z.mod_pos_bound (y - 1) 400 ltac:(lia)) as B1.
  set (r := (y - 1) mod 400) in *.
  pose proof (Z.div_mod r 100 ltac:(lia)) as E2.
  pose proof (Z.mod_pos_bound r 100 ltac:(lia)) as B2.
  set (r' := r mod 100) in *.
  pose proof (Z.div_mod r' 4 ltac:(lia)) as E3.
  pose proof (Z.mod_pos_bound r' 4 ltac:(lia)) as B3.
  set (c := r' mod 4) in *.
  set (q := (y - 1) / 400) in *. set (a := r / 100) in *. set (b := r' / 4) in *.
  clearbody q r a r' b c. lia.
Qed.

Lemma div_known (k q r : Z) : 0 ≤ r < k → (k * q + r) / k = q.
Proof. intros Hr. symmetry. apply (Z.div_unique _ _ _ r); lia. Qed.

Lemma mod_known (k q r : Z) : 0 ≤ r < k → (k * q + r) mod k = r.
Proof. intros Hr. symmetry. apply (Z.mod_unique _ _ q); lia. Qed.

Lemma days_in_month_table (y m : Z) :
  days_in_month y m = DAYS_IN_MONTH m + (if (m =? 2) && is_leap y then 1 else 0).
Proof.
  unfold days_in_month. destruct ((m =? 2) && is_leap y) eqn:E; [|lia].
  apply andb_true_iff in E as [E _]. apply Z.eqb_eq in E. by subst m.
Qed.

(** [date.fromordinal] is a left inverse of [date.toordinal] on the
    dates of the calendar, of whatever year. *)
Lemma ord2ymd_ymd2ord (y m d : Z) :
  1 ≤ m ≤ 12 → 1 ≤ d ≤ days_in_month y m →
  ord2ymd (ymd2ord y m d) = (y, m, d).
Proof.
  intros Hm Hd.
  destruct (year_split y) as (q & a & b & c & -> & Ha & Hb & Hc).
  set (y := q * 400 + 1 + a * 100 + b * 4 + c) in *.
  rewrite days_in_month_table in Hd.
  destruct (month_day_back_ok (is_leap y) m d Hm Hd) as (Hmd & [Hn0 Hn] & Hlast).
  set (n := DAYS_BEFORE_MONTH m + (if (2 <? m) && is_leap y then 1 else 0) + d - 1) in *.
  assert (ymd2ord y m d - 1 = 146097 * q + (36524 * a + (1461 * b + (365 * c + n))))
    as E.
  { unfold ymd2ord, days_before_month. fold n. unfold y at 1. rewrite year_days by lia.
    unfold n. lia. }
  pose proof (year_leap q a b c Ha Hb Hc) as Hleap. fold y in Hleap.
  rewrite ord2ymd_month_day. cbv zeta. rewrite E. unfold DI400Y, DI100Y, DI4Y.
  destruct (Z.eq_dec n 365) as [Hn365|Hn365].
  - (* the last day of a leap year *)
    destruct Hlast as [?|[-> ->]]; [lia|].
    destruct (is_leap y) eqn:Hly; [|lia].
    symmetry in Hleap. apply andb_true_iff in Hleap as [Hc3 Hba].
    apply Z.eqb_eq in Hc3. subst c. rewrite Hn365.
    destruct (Z.eq_dec b 24) as [Hb24|Hb24].
    + subst b. change (negb (24 =? 24)) with false in Hba. cbn [orb] in Hba.
      apply Z.eqb_eq in Hba. subst a.
      change (36524 * 3 + (1461 * 24 + (365 * 3 + 365))) with 146096.
      rewrite (div_known 146097 q 146096), (mod_known 146097 q 146096) by lia.
      change (146096 / 36524) with 4. change (146096 mod 36524) with 0.
      change (0 / 1461) with 0. change (0 mod 1461) with 0.
      change (0 / 365) with 0. change ((0 =? 4) || (4 =? 4)) with true. cbv iota.
      unfold y. f_equal. f_equal. ring.
    + rewrite (div_known 146097 q), (mod_known 146097 q) by lia.
      rewrite (div_known 36524 a), (mod_known 36524 a) by lia.
      rewrite (div_known 1461 b), (mod_known 1461 b) by lia.
      change (365 * 3 + 365) with 1460.
      change (1460 / 365) with 4. change (4 =? 4) with true. cbn [orb]. cbv iota.
      unfold y. f_equal. f_equal. ring.
  - assert (n < 365) as Hn' by (destruct (is_leap y); lia).
    rewrite (div_known 146097 q), (mod_known 146097 q) by lia.
    rewrite (div_known 36524 a), (mod_known 36524 a) by lia.
    rewrite (div_known 1461 b), (mod_known 1461 b) by lia.
    rewrite (div_known 365 c), (mod_known 365 c) by lia.
    assert ((c =? 4) = false) as -> by (apply Z.eqb_neq; lia).
    assert ((a =? 4) = false) as -> by (apply Z.eqb_neq; lia).
    cbn [orb]. cbv iota. by rewrite <- Hleap, Hmd.
Qed.

(** A year has 365 days, and one more if it is a leap year. *)
Lemma year_length (y : Z) :
  days_before_year (y + 1)
  = days_before_year y + 365 + (if is_leap y then 1 else 0).
Proof.
  unfold days_before_year, is_leap. cbv zeta.
  replace (y + 1 - 1) with y by ring.
  destruct (Z.eqb_spec (y mod 4) 0) as [H4|H4];
    destruct (Z.eqb_spec (y mod 100) 0) as [H100|H100];
    destruct (Z.eqb_spec (y mod 400) 0) as [H400|H400];
    cbn [andb orb negb]; Z.div_mod_to_equations; lia.
Qed.

(** A month ends where the next begins. *)
Lemma month_length (y m : Z) :
  1 ≤ m ≤ 11 →
  days_before_month y (m + 1) = days_before_month y m + days_in_month y m.
Proof.
  intros Hm. rewrite days_in_month_table. unfold days_before_month.
  assert (m = 1 ∨ m = 2 ∨ m = 3 ∨ m = 4 ∨ m = 5 ∨ m = 6 ∨ m = 7 ∨ m = 8
          ∨ m = 9 ∨ m = 10 ∨ m = 11) as Hcases by lia.
  destruct (is_leap y);
    destruct Hcases as [->|[->|[->|[->|[->|[->|[->|[->|[->|[->| ->]]]]]]]]]];
    reflexivity.
Qed.

Lemma december_length (y : Z) :
  days_before_month y 12 + days_in_month y 12
  = 365 + (if is_leap y then 1 else 0).
Proof.
  rewrite days_in_month_table. unfold days_before_month. by destruct (is_leap y).
Qed.

(** Adding no day gives the datetime back, and days add up. *)
Lemma add_days_0 (d : datetime) : calendar_date d → add_days d 0 = d.
Proof.
  intros [Hm Hd]. unfold add_days, toordinal. rewrite Z.add_0_r.
  rewrite ord2ymd_ymd2ord by done. by destruct d.
Qed.

Lemma add_days_add (d : datetime) (i j : Z) :
  add_days (add_days d i) j = add_days d (i + j).
Proof.
  unfold add_days at 1. rewrite toordinal_add_days.
  unfold add_days. rewrite Z.add_assoc.
  destruct (ord2ymd (toordinal d + i)) as [[y m] dd].
  by destruct (ord2ymd (toordinal d + i + j)) as [[y' m'] dd'].
Qed.

End CalendarInverse.

(* ===================================================================== *)
(** ** [urls_build]: the days of a range and the months of a year *)
(* ===================================================================== *)

Section RangeFacts.
Import Datetime Urls.

Lemma sub_days_instant (a b : datetime) :
  sub_days a b = (instant a - instant b) / MICROS_PER_DAY.
Proof. unfold sub_days, instant. f_equal. ring. Qed.

Lemma sub_days_negative (a b : datetime) :
  sub_days a b < 0 ↔ instant a < instant b.
Proof.
  rewrite sub_days_instant. unfold MICROS_PER_DAY.
  generalize (instant a), (instant b). intros x y.
  split; intros Hlt; Z.div_mod_to_equations; lia.
Qed.

Lemma days_nil (range_start range_end : datetime) :
  days range_start range_end = [] ↔ instant range_end < instant range_start.
Proof.
  rewrite <- sub_days_negative. unfold days. split.
  - intros E. apply (f_equal length) in E. rewrite length_map, length_seq in E.
    simpl in E. lia.
  - intros Hlt. by replace (Z.to_nat (sub_days range_end range_start + 1)) with 0%nat by lia.
Qed.

Lemma days_lookup (range_start range_end : datetime) (i : nat) (day : datetime) :
  days range_start range_end !! i = Some day →
  day = add_days range_start (Z.of_nat i)
  ∧ Z.of_nat i ≤ sub_days range_end range_start.
Proof.
  unfold days. intros Hi. apply list_lookup_fmap_Some in Hi as (j & -> & Hj).
  apply lookup_seq in Hj as [-> Hlt]. split; [done|]. lia.
Qed.

(** X11. A range whose end is earlier than its start has no day:
    [urls_build] returns the empty list, whatever the template and the
    version descriptors, and raises nothing; any other range has a day,
    and a first URL unless building it raises. *)
Theorem urls_build_reversed_range `{UtilStrptime} (fmt : string)
    (range_start range_end : datetime) (versions : option (list version)) :
  (instant range_end < instant range_start →
   urls_build fmt range_start range_end versions = Ok [])
  ∧ (instant range_start ≤ instant range_end →
     days range_start range_end ≠ []
     ∧ urls_build fmt range_start range_end versions ≠ Ok []).
Proof.
  split.
  - intros Hlt. unfold urls_build. by rewrite (proj2 (days_nil _ _) Hlt).
  - intros Hle.
    assert (days range_start range_end ≠ []) as Hne.
    { intros E. apply days_nil in E. lia. }
    split; [done|]. unfold urls_build. intros E.
    apply mapM_length in E. by destruct (days range_start range_end).
Qed.

(** X12. The days of a range begin with [range_start] itself and go on
    day by day: the day of index [i] is [range_start] moved by [i] days,
    its date is [i] dates later and its time of day is that of
    [range_start]; there are as many days as whole periods of 24 hours
    from [range_start] to [range_end], and one more. *)
Theorem urls_build_consecutive_days (range_start range_end : datetime) :
  calendar_date range_start → instant range_start ≤ instant range_end →
  length (days range_start range_end)
  = S (Z.to_nat ((instant range_end - instant range_start) / MICROS_PER_DAY))
  ∧ days range_start range_end !! 0%nat = Some range_start
  ∧ ∀ (i : nat) (day : datetime),
      days range_start range_end !! i = Some day →
      day = add_days range_start (Z.of_nat i)
      ∧ toordinal day = toordinal range_start + Z.of_nat i
      ∧ (hour day, minute day, second day, microsecond day)
        = (hour range_start, minute range_start, second range_start,
           microsecond range_start)
      ∧ (∀ next, days range_start range_end !! S i = Some next →
         next = add_days day 1).
Proof.
  intros Hdate Hle.
  assert (0 ≤ sub_days range_end range_start) as Hn.
  { pose proof (sub_days_negative range_end range_start). lia. }
  split_and!.
  - rewrite days_length, <- sub_days_instant. lia.
  - unfold days.
    replace (Z.to_nat (sub_days range_end range_start + 1))
      with (S (Z.to_nat (sub_days range_end range_start))) by lia.
    simpl. by rewrite add_days_0.
  - intros i day Hi. apply days_lookup in Hi as [-> Hi]. split_and!.
    + done.
    + apply toordinal_add_days.
    + unfold add_days.
      by destruct (ord2ymd (toordinal range_start + Z.of_nat i)) as [[y m] dd].
    + intros next Hnext. apply days_lookup in Hnext as [-> _].
      rewrite add_days_add. f_equal. lia.
Qed.

End RangeFacts.

Section MonthFacts.
Import Datetime Urls.

Lemma new_ok (y m d : Z) :
  MINYEAR ≤ y ≤ MAXYEAR → 1 ≤ m ≤ 12 → 1 ≤ d ≤ days_in_month y m →
  Datetime.new y m d
  = Ok {| year := y; month := m; day := d;
          hour := 0; minute := 0; second := 0; microsecond := 0 |}.
Proof.
  intros Hy Hm Hd. unfold Datetime.new.
  assert ((MINYEAR <=? y) && (y <=? MAXYEAR) && (1 <=? m) && (m <=? 12)
          && (1 <=? d) && (d <=? days_in_month y m) = true) as ->; [|done].
  repeat (apply andb_true_iff; split); apply Z.leb_le; lia.
Qed.

Lemma new_year_out (y m d : Z) : MAXYEAR < y → Datetime.new y m d = Raise ValueError.
Proof.
  intros Hy. unfold Datetime.new.
  assert ((y <=? MAXYEAR) = false) as -> by (apply Z.leb_gt; lia).
  by rewrite andb_false_r.
Qed.

Lemma days_in_month_positive (y m : Z) : 1 ≤ m ≤ 12 → 28 ≤ days_in_month y m ≤ 31.
Proof.
  intros Hm. rewrite days_in_month_table.
  destruct (is_leap y); each_month m; simpl; lia.
Qed.

(** The day before the first of the next month is the last of this
    one. *)
Lemma last_day_of_month (y m : Z) :
  1 ≤ m ≤ 12 →
  let first_of_next :=
    if m =? 12
    then {| year := y + 1; month := 1; day := 1;
            hour := 0; minute := 0; second := 0; microsecond := 0 |}
    else {| year := y; month := m + 1; day := 1;
            hour := 0; minute := 0; second := 0; microsecond := 0 |} in
  add_days first_of_next (-1)
  = {| year := y; month := m; day := days_in_month y m;
       hour := 0; minute := 0; second := 0; microsecond := 0 |}.
Proof.
  intros Hm first_of_next.
  pose proof (days_in_month_positive y m Hm) as Hdim.
  assert (toordinal first_of_next + -1 = ymd2ord y m (days_in_month y m)) as E.
  { unfold first_of_next, toordinal. destruct (Z.eqb_spec m 12) as [->|Hne]; cbn [year month day].
    - unfold ymd2ord. rewrite year_length.
      pose proof (december_length y) as Hdec.
      change (days_before_month (y + 1) 1) with 0. lia.
    - unfold ymd2ord. rewrite month_length by lia. lia. }
  unfold add_days. rewrite E, ord2ymd_ymd2ord by lia.
  unfold first_of_next. by destruct (m =? 12).
Qed.

(** X13. The placeholders of a day are filled in with its year, month
    and day, its day of the year, and the days of the year on which its
    month begins and ends; for a day in December of the year 9999,
    whose next month has no date, [ValueError] is raised instead. *)
Theorem expand_day_months (fmt : string) (day : datetime) :
  MINYEAR ≤ year day ≤ MAXYEAR → 1 ≤ month day ≤ 12 →
  expand_day fmt day
  = if (year day =? MAXYEAR) && (month day =? 12) then Raise ValueError
    else Ok (fill_in fmt (year day) (month day) (Datetime.day day) (tm_yday day)
               (days_before_month (year day) (month day) + 1)
               (days_before_month (year day) (month day)
                + days_in_month (year day) (month day))).
Proof.
  intros Hy Hm. unfold expand_day. cbv zeta.
  pose proof (days_in_month_positive (year day) (month day) Hm) as Hdim.
  rewrite (new_ok (year day) (month day) 1) by lia. rewrite bind_Ok.
  pose proof (last_day_of_month (year day) (month day) Hm) as Hlast. cbv zeta in Hlast.
  destruct (Z.eqb_spec (month day) 12) as [H12|H12].
  - destruct (Z.eqb_spec (year day) MAXYEAR) as [Hmax|Hmax]; cbn [andb].
    + rewrite (new_year_out (year day + 1)) by lia. done.
    + rewrite (new_ok (year day + 1) 1 1);
        [|unfold MINYEAR, MAXYEAR in *; lia|lia|by vm_compute].
      rewrite !bind_Ok, Hlast. unfold fill_in, tm_yday. cbn [year month Datetime.day].
      done.
  - rewrite andb_false_r.
    rewrite (new_ok (year day) (month day + 1) 1); [|lia|lia|].
    + rewrite !bind_Ok, Hlast. unfold fill_in, tm_yday. cbn [year month Datetime.day].
      done.
    + pose proof (days_in_month_positive (year day) (month day + 1) ltac:(lia)). lia.
Qed.

End MonthFacts.

(* ===================================================================== *)
(** ** [read_file]: formats and shapes *)
(* ===================================================================== *)

Section ImplementedFacts.
Import Numpy Spacecraft.
Context {F : Type} {FF : Float F} {CF : Clock F} {SP : Strptime}.

Lemma implemented_bind {A B} (m : result A) (f : A → result B) :
  implemented m → (∀ x, implemented (f x)) → implemented (m ≫= f).
Proof.
  intros Hm Hf. destruct m as [x|e]; [apply Hf|].
  unfold implemented in *. simpl. intros [= ->]. by apply Hm.
Qed.

Lemma implemented_mapM {A B} (f : A → result B) (l : list A) :
  (∀ x, implemented (f x)) → implemented (mapM f l).
Proof.
  intros Hf. induction l as [|x l IH]; [done|]. simpl.
  apply implemented_bind; [done|]. intros y.
  apply implemented_bind; [done|]. done.
Qed.

Lemma implemented_discard (cols : list selector) (data : list (ndarray F)) :
  implemented (discard cols data).
Proof.
  revert data. induction cols as [|[i|name keep] cols IH]; intros data; simpl; [done..|].
  destruct data as [|a data].
  - destruct keep; [done|]. apply IH.
  - apply implemented_bind.
    + destruct keep as [n|]; [|done]. by destruct a.
    + intros a'. apply implemented_bind; [apply IH|done].
Qed.

Lemma implemented_stack_parts (lo hi : nat) (acc : ndarray F) (data : list (ndarray F)) :
  implemented (stack_parts lo hi acc data).
Proof.
  revert acc. induction data as [|d data IH]; intros acc; simpl; [done|].
  apply implemented_bind; [by destruct d|]. intros s.
  apply implemented_bind; [|done].
  unfold hstack. destruct acc, s; try done. by destruct (decide _).
Qed.

Lemma implemented_select (idx : list nat) (a : ndarray F) : implemented (select idx a).
Proof.
  destruct a as [dt x|dt xs|dt c rows]; simpl; [done| |].
  - apply implemented_bind; [|done]. apply implemented_mapM. intros i.
    by destruct (xs !! i).
  - apply implemented_bind; [|done]. apply implemented_mapM. intros i.
    by destruct (rows !! i).
Qed.

(** X14. [read_file] raises [NotImplementedError] for the formats it
    does not know, and for them only: the format is none of [cdf],
    [netcdf] and [pds3], or it is [pds3] with a time format type other
    than [string] and [timestamp]. The time format type of a [cdf] or
    [netcdf] product is not looked at. *)
Theorem read_file_not_implemented (format time_format_type : string)
    (file : @parsed F) (columns : list selector) (values : option (list F))
    (range_start range_end : Datetime.datetime) :
  read_file format time_format_type file columns values range_start range_end
  = Raise NotImplementedError
  ↔ ¬ (format = "cdf" ∨ format = "netcdf"
       ∨ (format = "pds3"
          ∧ (time_format_type = "string" ∨ time_format_type = "timestamp"))).
Proof.
  unfold read_file, check_format. split.
  - intros Hraise Hknown.
    assert (check_format format time_format_type = Ok ()) as Hcheck.
    { unfold check_format. destruct Hknown as [->|[->|[-> [->| ->]]]]; done. }
    unfold check_format in Hcheck. rewrite Hcheck, bind_Ok in Hraise.
    revert Hraise. apply implemented_bind.
    { unfold discard_dimensions. destruct columns as [|[i|name keep] cols]; try done.
      apply implemented_discard. }
    intros data. destruct (where_ _ _) as [|lo mask]; [done|].
    apply implemented_bind.
    { unfold data_block. destruct data as [|d0 data]; [done|].
      apply implemented_bind; [by destruct d0|]. intros s. apply implemented_stack_parts. }
    intros data_part. destruct values as [[|v vs]|]; [done| |done].
    apply implemented_bind.
    { unfold column0. destruct (squeeze data_part) as [| |dt c rows]; try done.
      destruct c; [done|]. apply implemented_mapM. by intros [|x r]. }
    intros col. apply implemented_bind; [done|]. intros v0.
    apply implemented_bind; [unfold item; by destruct (_ !! _)|]. intros v1.
    apply implemented_bind; [apply implemented_select|]. intros t.
    apply implemented_bind; [apply implemented_select|]. done.
  - intros Hunknown.
    destruct (decide (format = "cdf")) as [->|_]; [exfalso; apply Hunknown; by left|].
    destruct (decide (format = "netcdf")) as [->|_];
      [exfalso; apply Hunknown; right; by left|].
    destruct (decide (format = "pds3")) as [->|_]; [|done].
    destruct (decide (time_format_type = "string")) as [->|_];
      [exfalso; apply Hunknown; right; right; split; [done|by left]|].
    destruct (decide (time_format_type = "timestamp")) as [->|_];
      [exfalso; apply Hunknown; right; right; split; [done|by right]|].
    done.
Qed.

End ImplementedFacts.

Section ShapingFacts.
Import Numpy Spacecraft.
Context {F : Type} {FF : Float F}.

Lemma fix_shape_table (n : nat) (a : ndarray F) :
  per_time_stamp n a → is_table n (fix_shape a).
Proof.
  destruct a as [dt x|dt xs|dt c rows]; simpl; [done| |done].
  intros <-. split; [by rewrite length_map|].
  apply Forall_forall. intros r Hr. apply list_elem_of_fmap in Hr as (x & -> & _). done.
Qed.

Lemma slice_stop_le (k : Z) (c : nat) : (slice_stop k c ≤ c)%nat.
Proof. unfold slice_stop. destruct (decide (k < 0)); lia. Qed.

Lemma truncate_table (n : nat) (k : Z) (a : ndarray F) :
  is_table n a → ∃ a', truncate_columns k a = Ok a' ∧ is_table n a'.
Proof.
  destruct a as [dt x|dt xs|dt c rows]; simpl; [done..|]. intros [Hrows Hwide].
  eexists. split; [done|]. simpl. split; [by rewrite length_map|].
  apply Forall_forall. intros r Hr. apply list_elem_of_fmap in Hr as (r' & -> & Hr').
  rewrite Forall_forall in Hwide. specialize (Hwide _ Hr').
  rewrite length_take. pose proof (slice_stop_le k c). lia.
Qed.

Lemma discard_tables (n : nat) (cols : list selector) (data : list (ndarray F)) :
  Forall (λ c, is_name c = true) cols → length cols = length data →
  Forall (is_table n) data →
  ∃ shaped, discard cols data = Ok shaped
    ∧ length shaped = length data ∧ Forall (is_table n) shaped.
Proof.
  revert data. induction cols as [|c cols IH]; intros data Hnames Hlen Htab.
  - exists data. by destruct data.
  - destruct data as [|a data]; [done|].
    apply Forall_cons in Hnames as [Hc Hnames]. apply Forall_cons in Htab as [Ha Htab].
    destruct c as [i|name keep]; [done|]. simpl in Hlen.
    destruct (IH data Hnames ltac:(lia) Htab) as (rest & Hrest & Hlrest & Htrest).
    assert (∃ a', (match keep with Some k => truncate_columns k a | None => Ok a end)
                  = Ok a' ∧ is_table n a') as (a' & Ha' & Hta').
    { destruct keep as [k|]; [by apply truncate_table|by exists a]. }
    exists (a' :: rest). simpl. rewrite Ha', bind_Ok, Hrest, bind_Ok.
    split_and!; [done|simpl; lia|by apply Forall_cons].
Qed.

(** X15. Shaping does not fail on a file as the readers of the three
    formats deliver it. When every variable has an entry or a row for
    each time stamp, and the value columns are as many as the variables
    and named if the time column is, "fix some odd shapes" and "discard
    unneeded dimensions" return as many tables as there are variables,
    each with a row for each time stamp. *)
Theorem read_file_shaping (file : @parsed F) (c0 : selector) (cols : list selector) :
  Forall (per_time_stamp (length (time file))) (data file) →
  length cols = length (data file) →
  (is_name c0 = true → Forall (λ c, is_name c = true) cols) →
  ∃ shaped,
    discard_dimensions (c0 :: cols) (map fix_shape (data file)) = Ok shaped
    ∧ length shaped = length (data file)
    ∧ Forall (is_table (length (time file))) shaped.
Proof.
  intros Hdata Hlen Hnames.
  assert (Forall (is_table (length (time file))) (map fix_shape (data file))) as Htab.
  { apply Forall_forall. intros a Ha. apply list_elem_of_fmap in Ha as (a' & -> & Ha').
    rewrite Forall_forall in Hdata. by apply fix_shape_table, Hdata. }
  destruct c0 as [i|name keep]; simpl.
  - exists (map fix_shape (data file)). by rewrite length_map.
  - destruct (discard_tables _ cols (map fix_shape (data file)) (Hnames eq_refl)
                ltac:(by rewrite length_map) Htab) as (shaped & Hs & Hl & Ht).
    exists shaped. rewrite length_map in Hl. done.
Qed.

End ShapingFacts.

(* ===================================================================== *)
(** ** Cache keys and cache files *)
(* ===================================================================== *)

Section KeyFiles.
Import Json Caching CacheKey.
Context {F : Type} {PF : PyFloat F} {obj : Type} {PK : Pickle obj}.

Lemma hexdigest_no_slash (msg : list Z) :
  PyStr.startswith "/" (Sha256.hexdigest msg) = false.
Proof.
  destruct (hexdigest_shape msg) as [Hlen Hhex].
  destruct (Sha256.hexdigest msg) as [|c s]; [done|].
  simpl in Hhex. apply andb_true_iff in Hhex as [Hc _].
  simpl. destruct (decide ("/"%char = c)) as [<-|_]; [|done].
  by vm_compute in Hc.
Qed.

(** X16. Keys made by [generate_cache_key] have cache files of their
    own: two records with different keys are stored in different files,
    so that storing the result of one call leaves the entry of the other
    as it was. *)
Theorem generated_keys_have_files_of_their_own (cache_path : string)
    (d1 d2 : pydict (json F)) (o : obj) (fs : cache_dir) :
  generate_cache_key d1 ≠ generate_cache_key d2 →
  cache_file cache_path (generate_cache_key d1)
  ≠ cache_file cache_path (generate_cache_key d2)
  ∧ cache_entry_exists cache_path (generate_cache_key d2)
      (set_cache_entry cache_path (generate_cache_key d1) o fs)
    = cache_entry_exists cache_path (generate_cache_key d2) fs
  ∧ get_cache_entry cache_path (generate_cache_key d2)
      (set_cache_entry cache_path (generate_cache_key d1) o fs)
    = get_cache_entry cache_path (generate_cache_key d2) fs.
Proof.
  intros Hne.
  assert (cache_file cache_path (generate_cache_key d1)
          ≠ cache_file cache_path (generate_cache_key d2)) as Hfile.
  { intros E. apply Hne. apply (cache_file_inj cache_path); [..|done];
      apply hexdigest_no_slash. }
  split_and!; [done| |].
  - by apply exists_set_other.
  - by apply get_set_other.
Qed.

End KeyFiles.

Section KeySeparation.
Import Json CacheKey.
Context {F : Type} {PF : PyFloat F} {CF : Spacecraft.Clock F}.

Lemma dict_ext {V} (d1 d2 : pydict V) :
  keys d1 = keys d2 → NoDup (keys d1) → same_mapping d1 d2 → d1 = d2.
Proof.
  revert d2. induction d1 as [|[k v] d1 IH]; intros [|[k' v'] d2] Hkeys Hnd Hsame;
    try done.
  simpl in Hkeys. injection Hkeys as <- Hkeys.
  apply NoDup_cons in Hnd as [Hk Hnd].
  pose proof (Hsame k) as Hv. simpl in Hv. destruct (decide (k = k)); [|done].
  injection Hv as <-. f_equal. apply IH; [done..|].
  intros k0. specialize (Hsame k0). simpl in Hsame.
  destruct (decide (k0 = k)) as [->|_]; [|done].
  rewrite (get_not_key k d1) by done.
  rewrite (get_not_key k d2) by (by rewrite <- Hkeys). done.
Qed.

Lemma keys_update_same {V} (d1 d2 other : pydict V) :
  keys d1 = keys d2 → keys (update d1 other) = keys (update d2 other).
Proof.
  unfold update. revert d1 d2. induction other as [|[k v] other IH]; intros d1 d2 E; [done|].
  simpl. apply IH. by rewrite !keys_set, E.
Qed.

(** X17. The key of a call tells calls apart by their data key, and by
    the spacecraft and the time stamps unless an option of the call is
    named [spacecraft] or [times]: the serialisations differ, and so do
    the keys unless SHA-256 collides on them. An option named [times]
    takes the place of the time stamps, so that calls for different
    times then have one key. *)
Theorem cache_key_separates_calls (name1 name2 dk1 dk2 : string)
    (t1 t2 : list Datetime.datetime) (kw : pydict (json F)) :
  (∀ x y : F, float_repr x = float_repr y → x = y) →
  (∀ x : F, float_shape (float_repr x) = true) →
  NoDup (keys kw) → "data_key" ∉ keys kw →
  let id1 := identifier name1 dk1 t1 kw in
  let id2 := identifier name2 dk2 t2 kw in
  (dk1 ≠ dk2
   ∨ (name1 ≠ name2 ∧ "spacecraft" ∉ keys kw)
   ∨ (map Spacecraft.timestamp t1 ≠ map Spacecraft.timestamp t2 ∧ "times" ∉ keys kw) →
   dumps id1 ≠ dumps id2
   ∧ (generate_cache_key id1 ≠ generate_cache_key id2
      ∨ collision (Sha256.utf8 (dumps id1)) (Sha256.utf8 (dumps id2))))
  ∧ ("times" ∈ keys kw → dk1 = dk2 → name1 = name2 →
     generate_cache_key id1 = generate_cache_key id2).
Proof.
  intros Hinj Hshape Hnd Hdk id1 id2.
  assert (∀ name dk t, NoDup (keys (identifier name dk t kw))) as Hndid.
  { intros name dk t. apply NoDup_update. unfold keys. simpl.
    repeat (apply NoDup_cons_2; [not_in_list|]). apply NoDup_nil_2. }
  split.
  - intros Hdiff. apply (different_records Hinj Hshape); [apply Hndid..|].
    intros Hsame. destruct Hdiff as [Hd|[[Hn Hk]|[Ht Hk]]].
    + specialize (Hsame "data_key"). unfold id1, id2, identifier in Hsame.
      rewrite !get_update, (get_not_key _ _ Hdk) in Hsame by done.
      simpl in Hsame. congruence.
    + specialize (Hsame "spacecraft"). unfold id1, id2, identifier in Hsame.
      rewrite !get_update, (get_not_key _ _ Hk) in Hsame by done.
      simpl in Hsame. congruence.
    + specialize (Hsame "times"). unfold id1, id2, identifier in Hsame.
      rewrite !get_update, (get_not_key _ _ Hk) in Hsame by done.
      simpl in Hsame. injection Hsame as Hsame. apply Ht.
      clear -Hsame. revert t2 Hsame. induction t1 as [|a t1 IH]; intros [|b t2] E;
        simpl in *; try done.
      injection E as -> E. f_equal. by apply IH.
  - intros Htimes <- <-. f_equal. apply dict_ext.
    + by apply keys_update_same.
    + apply Hndid.
    + intros k. unfold id1, id2, identifier. rewrite !get_update by done.
      destruct (get k kw) as [v|] eqn:Hk; [done|]. simpl.
      destruct (decide (k = "data_key")); [done|].
      destruct (decide (k = "spacecraft")); [done|].
      destruct (decide (k = "times")) as [->|_]; [|done].
      exfalso. unfold keys in Htimes.
      apply list_elem_of_fmap in Htimes as ([k' v] & Hk' & Hin).
      simpl in Hk'. subst k'.
      apply (get_elem_of _ _ _ Hnd) in Hin. congruence.
Qed.

End KeySeparation.

(* ===================================================================== *)
(** ** [get_data_raw]: the joined arrays; [urls_build]: the dates *)
(* ===================================================================== *)

Section JoinedFacts.
Import Numpy Spacecraft.
Context {F : Type}.

Lemma well_shaped_widths (c : nat) (r : ndarray F * ndarray F) :
  well_shaped c r → Forall (λ row, length row = c) (values_of r).
Proof.
  intros (dt & ts & E & [->|(dt' & rows & E' & _ & Hw)]);
    unfold values_of; rewrite E; [done|]. rewrite E'. by destruct ts.
Qed.

(** X18. When every per-file result is a line of time stamps with a
    table of as many rows and [c] channels (or is empty), and the first
    result has rows, [get_data_raw] returns the time stamps of the
    results one after the other, in the order of the files, and their
    rows likewise; an empty result adds nothing. The two arrays have the
    same length, every row has [c] entries, and no cell of the arrays
    made by [np.empty] is left unwritten. *)
Theorem get_data_raw_joins_results (c : nat) (results : list (ndarray F * ndarray F)) :
  Forall (well_shaped c) results →
  (∃ r rest, results = r :: rest ∧ times_of r ≠ []) →
  ∃ time data_,
    get_data_raw results = Ok (Arr1 float64 time, Arr2 float32 c data_)
    ∧ time = map Some (concat (map times_of results))
    ∧ data_ = map (map Some) (concat (map values_of results))
    ∧ length time = length data_
    ∧ Forall (λ row, length row = c) data_
    ∧ Forall is_Some time ∧ Forall (Forall is_Some) data_.
Proof.
  intros Hres Hfirst. eexists _, _. split; [by apply get_data_raw_concat|].
  split; [done|]. split; [done|]. split_and!.
  - rewrite !length_map. clear Hfirst.
    induction Hres as [|r results Hr Hres IH]; [done|]. simpl.
    rewrite !length_app, IH. by rewrite (well_shaped_values_length c).
  - apply Forall_fmap. apply Forall_concat. apply Forall_fmap.
    eapply Forall_impl; [exact Hres|]. intros r Hr. simpl.
    eapply Forall_impl; [by apply (well_shaped_widths c)|].
    intros row Hrow. simpl. by rewrite length_map.
  - apply Forall_forall. intros x Hx. apply list_elem_of_fmap in Hx as (y & -> & _).
    by eexists.
  - apply Forall_forall. intros row Hrow.
    apply list_elem_of_fmap in Hrow as (row' & -> & _).
    apply Forall_forall. intros x Hx. apply list_elem_of_fmap in Hx as (y & -> & _).
    by eexists.
Qed.

End JoinedFacts.

Section DatesCovered.
Import Datetime Urls.

(** X19. The dates for which [urls_build] builds a URL are those from
    the date of [range_start] to the date of [range_end], when
    [range_end] is not earlier in its day than [range_start] in its own;
    when it is, the date of [range_end] is left out. *)
Theorem urls_build_dates_covered (range_start range_end : datetime) (n : Z) :
  clock_time range_start → clock_time range_end →
  n ∈ map toordinal (days range_start range_end)
  ↔ toordinal range_start ≤ n
    ∧ n ≤ toordinal range_end
          - (if time_of_day range_end <? time_of_day range_start then 1 else 0).
Proof.
  intros Hs He. destruct (Z.ltb_spec (time_of_day range_end) (time_of_day range_start)).
  - rewrite days_miss_last by done. lia.
  - rewrite days_reach_last by done. lia.
Qed.

End DatesCovered.


(* ===================================================================== *)
(** ** Examples *)
(* ===================================================================== *)

Section CacheExamples.
Import Caching.




(** The keys of two calls that differ in the frame. *)
Lemma generated_keys_have_files_of_their_own_witness :
  get_cache_entry (H := bytes_pickle) "/var/cache"
    (CacheKey.generate_cache_key hee_call)
    (set_cache_entry "/var/cache" (CacheKey.generate_cache_key heeq_call)
       [Byte.x01] empty_dir)
  = get_cache_entry (H := bytes_pickle) "/var/cache"
      (CacheKey.generate_cache_key hee_call) empty_dir.
Proof.
  refine (proj2 (proj2 (generated_keys_have_files_of_their_own (PK := bytes_pickle)
                          "/var/cache" heeq_call hee_call [Byte.x01] empty_dir _))).
  vm_compute. discriminate.
Defined.

End CacheExamples.

Section GetDataExamples.
Import Json Caching GetData.

(** The options of a call with smoothing and an extra column. *)
Lemma get_data_sorts_options_witness :
  ∃ o, read_options smoothed_call = Ok o
    ∧ get "smoothing_scale" (smoothing_dict o) = Some (JInt 5)
    ∧ get "smoothing_scale" (raw_kwargs o) = None
    ∧ get "extra_columns" (raw_kwargs o) = Some (JList [JStr "Bx"])
    ∧ get "cache" (raw_kwargs o) = None.
Proof.
  destruct (get_data_sorts_options smoothed_call) as (o & Ho & Hkeep & _ & Hcache & _).
  { apply (bool_decide_unpack _). by vm_compute. }
  exists o. split; [exact Ho|].
  pose proof (Hkeep "smoothing_scale" (JInt 5) eq_refl
                ltac:(discriminate) ltac:(discriminate)) as Hs.
  pose proof (Hkeep "extra_columns" (JList [JStr "Bx"]) eq_refl
                ltac:(discriminate) ltac:(discriminate)) as He.
  change (PyStr.contains "smoothing" "smoothing_scale") with true in Hs.
  change (PyStr.contains "smoothing" "extra_columns") with false in He.
  destruct Hs as [Hs1 Hs2]. destruct He as [He1 _].
  repeat split; assumption.
Defined.

(** A first call with caching fetches the data; the same call again,
    when fetching would fail, returns them from the cache. *)
Lemma get_data_served_from_cache_witness :
  get_data (H := whole_floats) (H0 := utc_clock) (H1 := line_pickle)
    (H2 := failing_fetch) "/var/cache" ∅ "wind" new_year "mag" cached_call
    (get_data (H := whole_floats) (H0 := utc_clock) (H1 := line_pickle)
       (H2 := counting_fetch) "/var/cache" ∅ "wind" new_year "mag" cached_call
       empty_dir 0%nat).1.1 7%nat
  = ((get_data (H := whole_floats) (H0 := utc_clock) (H1 := line_pickle)
        (H2 := counting_fetch) "/var/cache" ∅ "wind" new_year "mag" cached_call
        empty_dir 0%nat).1.1, 7%nat, Ok ([Byte.x01], ())).
Proof.
  apply (get_data_served_from_cache (PF := whole_floats) (CF := utc_clock)
           (PK := line_pickle) "/var/cache" counting_fetch failing_fetch ∅ ∅
           "wind" new_year "mag" cached_call empty_dir _ 0%nat 1%nat 7%nat).
  - by intros [bytes []].
  - reflexivity.
  - vm_compute. reflexivity.
Defined.

(** A frame is asked for, and the product has none. *)
Lemma get_data_frame_undefined_witness :
  is_ok (get_data (H := whole_floats) (H0 := utc_clock) (H1 := line_pickle)
           (H2 := counting_fetch) "/var/cache" frameless "wind" new_year "mag"
           framed_call empty_dir 0%nat).2
  = false.
Proof.
  refine (proj1 (get_data_frame_undefined (PF := whole_floats) (CF := utc_clock)
                   (PK := line_pickle) (E := counting_fetch) "/var/cache" frameless
                   "wind" new_year "mag" framed_call empty_dir 0%nat
                   {| frame := None |} _ _ _ _ _ _)).
  - apply (bool_decide_unpack _). by vm_compute.
  - apply (bool_decide_unpack _). by vm_compute.
  - reflexivity.
  - reflexivity.
  - reflexivity.
  - reflexivity.
Defined.

End GetDataExamples.

Section ColumnExamples.
Import Spacecraft ReadArguments.

(** After a call with an extra column, a call without the option still
    reads it. *)
Lemma extra_columns_accumulate_witness :
  (call "mag" None (calls "mag" [Some [Name "Bx" None]] one_product)).2
  = Ok (Some [Name "Epoch" None; Name "B" None; Name "Bx" None]).
Proof.
  exact (extra_columns_accumulate "mag" [Some [Name "Bx" None]] None one_product
           {| columns := Some 0%nat |} 0%nat [Name "Epoch" None; Name "B" None]
           eq_refl eq_refl eq_refl).
Defined.

End ColumnExamples.

Section FileExamples.
Import Datetime DataFiles.


(** The archive behind a URL is extracted under its name without
    [.gz]. *)
Lemma archive_names_witness :
  stem (basename "https://host/2023/mag_05.dat.gz") = "mag_05.dat".
Proof.
  exact (proj1 (proj2 (proj2 (proj2 (archive_names "https://host/2023" "mag_05.dat"
                                       eq_refl))))).
Defined.

End FileExamples.

Section RangeExamples.
Import Datetime Urls.

(** From 23:00 on 5 March 2023 to 01:00 on 7 March: the first day is
    the start itself. *)
Lemma urls_build_consecutive_days_witness :
  days (at_hour 2023 3 5 23) (at_hour 2023 3 7 1) !! 0%nat
  = Some (at_hour 2023 3 5 23).
Proof.
  refine (proj1 (proj2 (urls_build_consecutive_days
                          (at_hour 2023 3 5 23) (at_hour 2023 3 7 1) _ _))).
  - unfold calendar_date. vm_compute. repeat split; discriminate.
  - vm_compute. discriminate.
Defined.

(** March 2023 begins on day 60 of the year and ends on day 90. *)
Lemma expand_day_months_witness :
  expand_day "{DOYM1}-{DOYM2}" (at_hour 2023 3 5 0) = Ok "060-090".
Proof.
  refine (eq_trans (expand_day_months "{DOYM1}-{DOYM2}" (at_hour 2023 3 5 0) _ _) _).
  - vm_compute. split; discriminate.
  - vm_compute. split; discriminate.
  - reflexivity.
Defined.

(** The date of 01:00 on 6 March is covered from 23:00 on 5 March if
    and only if it lies before itself: it is not. *)
Lemma urls_build_dates_covered_witness :
  toordinal (at_hour 2023 3 6 1)
    ∈ map toordinal (days (at_hour 2023 3 5 23) (at_hour 2023 3 6 1))
  ↔ toordinal (at_hour 2023 3 5 23) ≤ toordinal (at_hour 2023 3 6 1)
    ∧ toordinal (at_hour 2023 3 6 1) ≤ toordinal (at_hour 2023 3 6 1) - 1.
Proof.
  refine (urls_build_dates_covered (at_hour 2023 3 5 23) (at_hour 2023 3 6 1)
            (toordinal (at_hour 2023 3 6 1)) _ _).
  - vm_compute. split; [discriminate|reflexivity].
  - vm_compute. split; [discriminate|reflexivity].
Defined.

End RangeExamples.

Section ShapeExamples.
Import Numpy Spacecraft Json CacheKey.

(** The sorted sample file, with its two named columns. *)
Lemma read_file_shaping_witness :
  ∃ shaped,
    discard_dimensions field_columns (map fix_shape (data sorted_file)) = Ok shaped
    ∧ length shaped = length (data sorted_file)
    ∧ Forall (is_table (length (time sorted_file))) shaped.
Proof.
  apply (read_file_shaping sorted_file (Name "Epoch" None) [Name "B" None]).
  - repeat constructor.
  - reflexivity.
  - intros _. repeat constructor.
Defined.

(** Three results, of which the second is empty, joined. *)
Lemma get_data_raw_joins_results_witness :
  get_data_raw three_results
  = Ok (Arr1 float64 [Some 1; Some 2; Some 3],
        Arr2 float32 2 [[Some 10; Some 11]; [Some 20; Some 21]; [Some 30; Some 31]]).
Proof.
  destruct (get_data_raw_joins_results 2 three_results)
    as (time & data_ & Hjoined & -> & -> & _).
  - repeat constructor.
    + exists float64, [1; 2]. split; [reflexivity|]. right.
      exists float32, [[10; 11]; [20; 21]]. repeat constructor.
    + exists float64, []. split; [reflexivity|]. by left.
    + exists float64, [3]. split; [reflexivity|]. right.
      exists float32, [[30; 31]]. repeat constructor.
  - eexists _, _. split; [reflexivity|]. discriminate.
  - exact Hjoined.
Defined.

(** An option named [times] hides the time stamps from the key. *)
Lemma cache_key_separates_calls_witness :
  generate_cache_key
    (identifier (H0 := utc_clock) "wind" "mag" new_year timed_call)
  = generate_cache_key
      (identifier (H0 := utc_clock) "wind" "mag" [at_hour 2021 1 1 0] timed_call).
Proof.
  refine (proj2 (cache_key_separates_calls (PF := whole_floats) (CF := utc_clock)
                   "wind" "wind" "mag" "mag" new_year [at_hour 2021 1 1 0] timed_call
                   whole_floats_inj whole_floats_shape _ _) _ eq_refl eq_refl).
  - apply (bool_decide_unpack _). vm_compute. exact I.
  - apply (bool_decide_unpack _). vm_compute. exact I.
  - apply (bool_decide_unpack _). vm_compute. exact I.
Defined.

End ShapeExamples.
